(** * ssl_utils.c: certificate and TLS identifier helpers of HAProxy

    A shallow embedding of [src/ssl_utils.c] and the properties of its
    extractors, scalar parsers and lookup tables.

    Conventions of the embedding.
    - A C integer is a [Z]; every conversion the C code performs between
      integer types is written out ([to_uint], [to_size_t], [to_long]).
      Signed [int] arithmetic is kept exact: all the signed expressions of
      this file stay far inside the [int] range for the lengths a
      certificate library hands out ([0 .. INT_MAX]).
    - A byte is a [Z] in [0, 256).  A [char *] argument is the list of the
      bytes before the terminating NUL; reading at the end of the list
      reads that NUL.
    - [struct buffer] is HAProxy's chunk: [size], [area], [data], [head],
      the three counters being [size_t] (haproxy/buf-t.h).  The fields
      carry the names of HAProxy's own accessors ([b_size], [b_data], ...).
    - A function that returns a status and writes through [out] returns the
      pair of the status and the buffer as it is left. *)

From Stdlib Require Import ZArith List Lia Bool String Ascii DecimalString.
From stdpp Require Import base tactics list strings.

Open Scope Z_scope.

(** ** C integer types *)

Definition INT_MAX : Z := 2 ^ 31 - 1.
Definition INT_MIN : Z := - 2 ^ 31.
Definition LONG_MAX : Z := 2 ^ 63 - 1.
Definition LONG_MIN : Z := - 2 ^ 63.

(** Conversion to [unsigned int]. *)
Definition to_uint (z : Z) : Z := z mod 2 ^ 32.

(** Conversion to [size_t] and [unsigned long] (64 bits). *)
Definition to_size_t (z : Z) : Z := z mod 2 ^ 64.

(** Conversion of an [unsigned long] value to [long]. *)
Definition to_long (z : Z) : Z :=
  let u := z mod 2 ^ 64 in
  if u <? 2 ^ 63 then u else u - 2 ^ 64.

(** The value of a [char] holding byte [b]: [char] is signed on the
    platforms HAProxy is built for (x86-64 System V). *)
Definition char_val (b : Z) : Z := if b <? 128 then b else b - 256.

(** A string literal as its bytes. *)
Definition bytes_of_string (s : string) : list Z :=
  List.map (fun a => Z.of_N (N_of_ascii a)) (list_ascii_of_string s).

(** [*p] for a [char *] walking a NUL-terminated string. *)
Definition peek (p : list Z) : Z :=
  match p with
  | [] => 0
  | c :: _ => c
  end.

(** [p[i]] for a byte array. *)
Definition byte_at (p : list Z) (i : Z) : Z := nth (Z.to_nat i) p 0.

(** ** struct buffer *)

Record buffer : Type := Buffer {
  b_size : Z;         (* size_t size: capacity of area *)
  b_area : list Z;    (* char *area: the bytes of the storage *)
  b_data : Z;         (* size_t data: number of bytes in use *)
  b_head : Z          (* size_t head *)
}.

Definition set_data (out : buffer) (d : Z) : buffer :=
  Buffer (b_size out) (b_area out) d (b_head out).

Definition set_area (out : buffer) (a : list Z) : buffer :=
  Buffer (b_size out) a (b_data out) (b_head out).

(** The counters are [size_t] values and [area] points to [size] bytes. *)
Definition buffer_wf (out : buffer) : Prop :=
  0 <= b_size out < 2 ^ 64 /\
  0 <= b_data out < 2 ^ 64 /\
  Z.of_nat (length (b_area out)) = b_size out.

(** The contract of section 3 of the specification. *)
Definition buffer_inv (out : buffer) : Prop := b_data out <= b_size out.

(** [memcpy(dst + off, src, n)].  The bytes that fall inside [dst] are
    stored; a byte addressed past the end of [dst] is an out-of-bounds
    write in C, and leaves the modelled storage as it is. *)
Definition memcpy (dst : list Z) (off : Z) (src : list Z) (n : Z) : list Z :=
  list_inserts (Z.to_nat off) (take (Z.to_nat n) src) dst.

(** [dst[off] = b], with the same convention. *)
Definition store (dst : list Z) (off : Z) (b : Z) : list Z :=
  <[Z.to_nat off := b]> dst.

(** The first [data] bytes of the area: the contents of the chunk. *)
Definition contents (out : buffer) : list Z :=
  take (Z.to_nat (b_data out)) (b_area out).

(** ** Objects of the cryptography library

    Only what the accessors used by ssl_utils.c return is represented. *)

(** [ASN1_STRING], also [ASN1_INTEGER], [ASN1_TIME], ... *)
Record ASN1_STRING : Type := Asn1String {
  asn1_length : Z;        (* int length *)
  asn1_type : Z;          (* int type *)
  asn1_data : list Z      (* unsigned char *data *)
}.

(** The two time tags, with their values in the library's asn1.h. *)
Definition V_ASN1_UTCTIME : Z := 23.
Definition V_ASN1_GENERALIZEDTIME : Z := 24.

(** [length] is the number of bytes [data] points to, as an [int]. *)
Definition asn1_wf (s : ASN1_STRING) : Prop :=
  asn1_length s = Z.of_nat (length (asn1_data s)) /\ asn1_length s <= INT_MAX.

(** [X509]: the serial number field, when there is one, and the DER
    encoding, when the encoder succeeds. *)
Record X509 : Type := MkX509 {
  x509_serial : option ASN1_STRING;
  x509_der : option (list Z)
}.

Definition X509_get_serialNumber (crt : X509) : option ASN1_STRING :=
  x509_serial crt.

(** [i2d_X509(crt, NULL)]: the length of the encoding, negative when the
    certificate cannot be encoded. *)
Definition i2d_X509_len (crt : X509) : Z :=
  match x509_der crt with
  | Some der => Z.of_nat (length der)
  | None => -1
  end.

(** [i2d_X509(crt, &p)]: the bytes written at [p]. *)
Definition i2d_X509_bytes (crt : X509) : list Z :=
  match x509_der crt with
  | Some der => der
  | None => []
  end.

(** ** ssl_sock_get_serial *)

Definition ssl_sock_get_serial (crt : X509) (out : buffer) : Z * buffer :=
  match X509_get_serialNumber crt with
  | None => (0, out)
  | Some serial =>
      if b_size out <? to_size_t (asn1_length serial) then (-1, out)
      else
        let area' := memcpy (b_area out) 0 (asn1_data serial) (asn1_length serial) in
        (1, set_data (set_area out area') (to_size_t (asn1_length serial)))
  end.

(** ** ssl_sock_crt2der *)

Definition ssl_sock_crt2der (crt : X509) (out : buffer) : Z * buffer :=
  let len := i2d_X509_len crt in
  if len <=? 0 then (1, out)
  else if b_size out <? to_size_t len then (-1, out)
  else
    let area' := memcpy (b_area out) 0 (i2d_X509_bytes crt) len in
    (1, set_data (set_area out area') (to_size_t len)).

(** ** ssl_sock_get_time *)

Definition ssl_sock_get_time (tm : ASN1_STRING) (out : buffer) : Z * buffer :=
  if asn1_type tm =? V_ASN1_GENERALIZEDTIME then
    let gentm := tm in
    if asn1_length gentm <? 12 then (0, out)
    else if negb (byte_at (asn1_data gentm) 0 =? 0x32)
            || negb (byte_at (asn1_data gentm) 1 =? 0x30) then (0, out)
    else if b_size out <? to_size_t (asn1_length gentm - 2) then (-1, out)
    else
      let area' := memcpy (b_area out) 0 (drop 2 (asn1_data gentm))
                          (asn1_length gentm - 2) in
      (1, set_data (set_area out area') (to_size_t (asn1_length gentm - 2)))
  else if asn1_type tm =? V_ASN1_UTCTIME then
    let utctm := tm in
    if asn1_length utctm <? 10 then (0, out)
    else if 0x35 <=? byte_at (asn1_data utctm) 0 then (0, out)
    else if b_size out <? to_size_t (asn1_length utctm) then (-1, out)
    else
      let area' := memcpy (b_area out) 0 (asn1_data utctm) (asn1_length utctm) in
      (1, set_data (set_area out area') (to_size_t (asn1_length utctm)))
  else (0, out).

(** ** Distinguished names *)

(** [ASN1_OBJECT]: its NID and the text [i2t_ASN1_OBJECT] renders for it. *)
Record ASN1_OBJECT : Type := Asn1Object {
  obj_nid : Z;
  obj_text : list Z
}.

Record X509_NAME_ENTRY : Type := NameEntry {
  ne_object : ASN1_OBJECT;
  ne_value : ASN1_STRING
}.

(** [X509_NAME]: the entries in encoding order. *)
Definition X509_NAME : Type := list X509_NAME_ENTRY.

(** [NID_undef] of the library's obj_mac.h. *)
Definition NID_undef : Z := 0.

Definition X509_NAME_entry_count (a : X509_NAME) : Z := Z.of_nat (length a).

(** NULL when [loc] is out of range. *)
Definition X509_NAME_get_entry (a : X509_NAME) (loc : Z) : option X509_NAME_ENTRY :=
  if loc <? 0 then None else a !! Z.to_nat loc.

Definition OBJ_obj2nid (obj : ASN1_OBJECT) : Z := obj_nid obj.

(** [i2t_ASN1_OBJECT(tmp, sizeof(tmp), obj)] with [char tmp[128]]. *)
Definition i2t_ASN1_OBJECT (obj : ASN1_OBJECT) : list Z := take 127 (obj_text obj).

Fixpoint strlen (s : list Z) : Z :=
  match s with
  | [] => 0
  | c :: s' => if c =? 0 then 0 else 1 + strlen s'
  end.

Section DistinguishedName.

(** The short-name table of the library, and HAProxy's chunk comparison
    (haproxy/chunk.h), are used as they are declared. *)
Variable OBJ_nid2sn : Z -> option (list Z).
Variable chunk_strcasecmp : buffer -> list Z -> Z.

(** The name [s] both DN functions compute for an entry. *)
Definition entry_name (obj : ASN1_OBJECT) : list Z :=
  let n := OBJ_obj2nid obj in
  if n =? NID_undef then i2t_ASN1_OBJECT obj
  else match OBJ_nid2sn n with
       | None => i2t_ASN1_OBJECT obj
       | Some s => s
       end.

(** The [for] loop of ssl_sock_get_dn_entry; [todo] is [name_count - i]. *)
Fixpoint dn_entry_loop (todo : nat) (a : X509_NAME) (entry : buffer) (pos : Z)
    (name_count i cur : Z) (out : buffer) : Z * buffer :=
  match todo with
  | O => (0, out)
  | S todo' =>
      let j := if pos <? 0 then (name_count - 1) - i else i in
      match X509_NAME_get_entry a j with
      | None => (0, out) (* not reached: 0 <= j < name_count *)
      | Some ne =>
          let obj := ne_object ne in
          let data := ne_value ne in
          let data_ptr := asn1_data data in
          let data_len := asn1_length data in
          let s := entry_name obj in
          if negb (chunk_strcasecmp entry s =? 0) then
            dn_entry_loop todo' a entry pos name_count (i + 1) cur out
          else
            let cur' := if pos <? 0 then cur - 1 else cur + 1 in
            if negb (cur' =? pos) then
              dn_entry_loop todo' a entry pos name_count (i + 1) cur' out
            else if b_size out <? to_size_t data_len then (-1, out)
            else
              let area' := memcpy (b_area out) 0 data_ptr data_len in
              (1, set_data (set_area out area') (to_size_t data_len))
      end
  end.

Definition ssl_sock_get_dn_entry (a : X509_NAME) (entry : buffer) (pos : Z)
    (out : buffer) : Z * buffer :=
  let name_count := X509_NAME_entry_count a in
  dn_entry_loop (Z.to_nat name_count) a entry pos name_count 0 0 (set_data out 0).

(** The [for] loop of ssl_sock_get_dn_oneline; [p] is the offset of the
    write pointer in [out->area]. *)
Fixpoint dn_oneline_loop (todo : nat) (a : X509_NAME) (i l p : Z)
    (out : buffer) : Z * buffer :=
  match todo with
  | O => (if b_data out =? 0 then 0 else 1, out)
  | S todo' =>
      match X509_NAME_get_entry a i with
      | None => (0, out) (* not reached: 0 <= i < name_count *)
      | Some ne =>
          let obj := ne_object ne in
          let data := ne_value ne in
          let data_ptr := asn1_data data in
          let data_len := asn1_length data in
          let s := entry_name obj in
          let ln := strlen s in
          let l' := l + (1 + ln + 1 + data_len) in
          if b_size out <? to_size_t l' then (-1, out)
          else
            let out1 := set_data out (to_size_t l') in
            let a1 := store (b_area out1) p 0x2f in
            let a2 := memcpy a1 (p + 1) s ln in
            let a3 := store a2 (p + 1 + ln) 0x3d in
            let a4 := memcpy a3 (p + 1 + ln + 1) data_ptr data_len in
            dn_oneline_loop todo' a (i + 1) l' (p + 1 + ln + 1 + data_len)
                            (set_area out1 a4)
      end
  end.

Definition ssl_sock_get_dn_oneline (a : X509_NAME) (out : buffer) : Z * buffer :=
  let name_count := X509_NAME_entry_count a in
  dn_oneline_loop (Z.to_nat name_count) a 0 0 0 (set_data out 0).

End DistinguishedName.

(** Upper-casing of an ASCII letter. *)
Definition ascii_upper (c : Z) : Z :=
  if (0x61 <=? c) && (c <=? 0x7a) then c - 0x20 else c.

(** Comparison of two byte strings without regard to case: 0 when they
    are equal, the difference of the first upper-cased bytes that differ
    otherwise. *)
Fixpoint strcasecmp_bytes (s1 s2 : list Z) : Z :=
  match s1, s2 with
  | [], _ => 0 - peek s2
  | c1 :: s1', [] => c1
  | c1 :: s1', c2 :: s2' =>
      if ascii_upper c1 =? ascii_upper c2 then strcasecmp_bytes s1' s2'
      else ascii_upper c1 - ascii_upper c2
  end.

(** Modelled from the spec: chunk_strcasecmp (haproxy/chunk.h) is not part
    of ssl_utils.c; the specification has the attribute name matched
    case-insensitively against the contents of the chunk.  The properties
    of ssl_sock_get_dn_entry hold for any comparison function; this one
    serves in the examples. *)
Definition chunk_strcasecmp_model (chk : buffer) (str : list Z) : Z :=
  strcasecmp_bytes (contents chk) str.

(** ** ssl_sock_get_verified_chain_root *)

(** [X509_V_OK] of the library's x509_vfy.h. *)
Definition X509_V_OK : Z := 0.

(** [SSL]: the verified chain, NULL when verification did not build one. *)
Record SSL : Type := MkSSL {
  ssl_verified_chain : option (list X509)
}.

Definition SSL_get0_verified_chain (ssl : SSL) : option (list X509) :=
  ssl_verified_chain ssl.

Definition sk_X509_num (chain : list X509) : Z := Z.of_nat (length chain).

Definition sk_X509_value (chain : list X509) (i : Z) : option X509 :=
  if i <? 0 then None else chain !! Z.to_nat i.

Section VerifiedChain.

Variable X509_check_issued : X509 -> X509 -> Z.

(** The [for] loop; [todo] is [sk_X509_num(chain) - i], [crt] the value
    of the local at loop entry. *)
Fixpoint chain_root_loop (todo : nat) (chain : list X509) (i : Z)
    (crt : option X509) : option X509 :=
  match todo with
  | O => crt
  | S todo' =>
      match sk_X509_value chain i with
      | None => chain_root_loop todo' chain (i + 1) None (* not reached *)
      | Some c =>
          if X509_check_issued c c =? X509_V_OK then Some c
          else chain_root_loop todo' chain (i + 1) (Some c)
      end
  end.

Definition ssl_sock_get_verified_chain_root (ssl : SSL) : option X509 :=
  match SSL_get0_verified_chain ssl with
  | None => None
  | Some chain => chain_root_loop (Z.to_nat (sk_X509_num chain)) chain 0 None
  end.

End VerifiedChain.

(** ** The C library functions the parsers call *)

Definition isspace (c : Z) : bool := (c =? 0x20) || ((0x09 <=? c) && (c <=? 0x0d)).

Definition isdigit (c : Z) : bool := (0x30 <=? c) && (c <=? 0x39).

Fixpoint skip_space (p : list Z) : list Z :=
  match p with
  | c :: p' => if isspace c then skip_space p' else p
  | [] => []
  end.

(** The digits at the front of [p], accumulated in base 10, and the
    first position that is not a digit. *)
Fixpoint strtol_digits (acc : Z) (p : list Z) : Z * list Z :=
  match p with
  | c :: p' =>
      if isdigit c then strtol_digits (acc * 10 + (c - 0x30)) p' else (acc, p)
  | [] => (acc, [])
  end.

Definition clamp_long (v : Z) : Z :=
  if v <? LONG_MIN then LONG_MIN else if LONG_MAX <? v then LONG_MAX else v.

(** [strtol(nptr, &end, 10)]: the value and [end] (ISO C 7.22.1.4: white
    space, an optional sign, decimal digits; the result saturates at the
    limits of [long]; without a digit the value is 0 and [end] is [nptr]). *)
Definition strtol (nptr : list Z) : Z * list Z :=
  let p := skip_space nptr in
  let '(neg, p1) :=
    match p with
    | c :: q => if c =? 0x2d then (true, q)
                else if c =? 0x2b then (false, q) else (false, p)
    | [] => (false, p)
    end in
  if isdigit (peek p1) then
    let '(v, e) := strtol_digits 0 p1 in
    (clamp_long (if neg then - v else v), e)
  else (0, nptr).

(** Conversion of a [long] to [int]. *)
Definition to_int (z : Z) : Z :=
  let u := z mod 2 ^ 32 in
  if u <? 2 ^ 31 then u else u - 2 ^ 32.

Definition atoi (s : list Z) : Z := to_int (fst (strtol s)).

(** [strncmp(s1, s2, n)], bytes compared as [unsigned char]. *)
Fixpoint strncmp (s1 s2 : list Z) (n : nat) : Z :=
  match n with
  | O => 0
  | S n' =>
      let c1 := peek s1 in
      let c2 := peek s2 in
      if c1 =? c2 then
        if c1 =? 0 then 0 else strncmp (tl s1) (tl s2) n'
      else c1 - c2
  end.

(** ** openssl_version_parser *)

(** The return expression at label [end]: MNNFFPPS. *)
Definition numversion (major minor fix_ patch status : Z) : Z :=
  Z.lor (Z.shiftl (Z.land major 0xf) 28)
  (Z.lor (Z.shiftl (Z.land minor 0xff) 20)
  (Z.lor (Z.shiftl (Z.land fix_ 0xff) 12)
  (Z.lor (Z.shiftl (Z.land patch 0xff) 4)
         (Z.land status 0xf)))).

(** The [while] loop of the patch-release branch, which runs to the
    terminating NUL; [patch] is an [unsigned int]. *)
Fixpoint patch_loop (p : list Z) (patch : Z) : Z :=
  match p with
  | [] => patch
  | c :: p' =>
      if c =? 0 then patch
      else patch_loop p' (to_uint (patch + (Z.land (char_val c) (Z.lnot 0x20) - 0x41)))
  end.

(** [version] is [None] for a NULL pointer. *)
Definition openssl_version_parser (version : option (list Z)) : Z :=
  match version with
  | None => 0
  | Some p =>
      if peek p =? 0 then 0
      else
        let '(v, e) := strtol p in
        let major := to_uint v in
        if negb (peek e =? 0x2e) || (0xf <? major) then 0
        else
          let p := tl e in
          let '(v, e) := strtol p in
          let minor := to_uint v in
          if negb (peek e =? 0x2e) || (0xff <? minor) then 0
          else
            let p := tl e in
            let '(v, e) := strtol p in
            let fix_ := to_uint v in
            if 0xff <? fix_ then 0
            else
              let p := e in
              if peek p =? 0 then
                (* end of the string, that's a release *)
                numversion major minor fix_ 0 0xf
              else if peek p =? 0x2d then
                let p := tl p in
                if strncmp p (bytes_of_string "beta") 4 =? 0 then
                  let p := drop 4 p in
                  let '(v, e) := strtol p in
                  let status := to_uint v in
                  if 14 <? status then 0
                  else numversion major minor fix_ 0 status
                else numversion major minor fix_ 0 0
              else
                (* that's a patch release *)
                let patch := patch_loop p 1 in
                numversion major minor fix_ patch 0xf
  end.

(** The fields of a packed version number. *)
Definition version_patch (v : Z) : Z := Z.land (Z.shiftr v 4) 0xff.
Definition version_status (v : Z) : Z := Z.land v 0xf.

(** ** exclude_tls_grease *)

(** The [while] loop: the final [ptr] and buffer.  Each iteration advances
    [ptr] by 2, so [len] iterations are never all used. *)
Fixpoint grease_loop (fuel : nat) (input : list Z) (len ptr : Z)
    (output : buffer) : Z * buffer :=
  match fuel with
  | O => (ptr, output)
  | S fuel' =>
      if ptr <? len - 1 then
        if negb (char_val (byte_at input ptr) =? char_val (byte_at input (ptr + 1)))
           || negb (Z.land (char_val (byte_at input ptr)) 0x0f =? 0x0a) then
          if b_data output <=? to_size_t (b_size output - 2) then
            let area' := memcpy (b_area output) (b_data output) (drop (Z.to_nat ptr) input) 2 in
            grease_loop fuel' input len (ptr + 2)
              (set_data (set_area output area') (to_size_t (b_data output + 2)))
          else (ptr, output) (* break *)
        else grease_loop fuel' input len (ptr + 2) output
      else (ptr, output)
  end.

Definition exclude_tls_grease (input : list Z) (len : Z) (output : buffer) : buffer :=
  let '(ptr, output) := grease_loop (Z.to_nat len) input len 0 output in
  if (0 <? to_size_t (b_size output - b_data output)) && (0 <? len - ptr) then
    set_data (set_area output (store (b_area output) (b_data output) (byte_at input ptr)))
             (to_size_t (b_data output + 1))
  else output.

(** ** The table of verification error codes *)

Record x509_v_code : Type := X509VCode {
  vc_code : Z;          (* integer value of the code or -1 if undefined *)
  vc_value : string;    (* value of the macro as a string or its name *)
  vc_string : string    (* name of the macro *)
}.

(** The constants listed in the initialiser of [x509_v_codes], in order. *)
Definition x509_v_names : list string := [
  "X509_V_OK"%string;
  "X509_V_ERR_UNSPECIFIED"%string;
  "X509_V_ERR_UNABLE_TO_GET_ISSUER_CERT"%string;
  "X509_V_ERR_UNABLE_TO_GET_CRL"%string;
  "X509_V_ERR_UNABLE_TO_DECRYPT_CERT_SIGNATURE"%string;
  "X509_V_ERR_UNABLE_TO_DECRYPT_CRL_SIGNATURE"%string;
  "X509_V_ERR_UNABLE_TO_DECODE_ISSUER_PUBLIC_KEY"%string;
  "X509_V_ERR_CERT_SIGNATURE_FAILURE"%string;
  "X509_V_ERR_CRL_SIGNATURE_FAILURE"%string;
  "X509_V_ERR_CERT_NOT_YET_VALID"%string;
  "X509_V_ERR_CERT_HAS_EXPIRED"%string;
  "X509_V_ERR_CRL_NOT_YET_VALID"%string;
  "X509_V_ERR_CRL_HAS_EXPIRED"%string;
  "X509_V_ERR_ERROR_IN_CERT_NOT_BEFORE_FIELD"%string;
  "X509_V_ERR_ERROR_IN_CERT_NOT_AFTER_FIELD"%string;
  "X509_V_ERR_ERROR_IN_CRL_LAST_UPDATE_FIELD"%string;
  "X509_V_ERR_ERROR_IN_CRL_NEXT_UPDATE_FIELD"%string;
  "X509_V_ERR_OUT_OF_MEM"%string;
  "X509_V_ERR_DEPTH_ZERO_SELF_SIGNED_CERT"%string;
  "X509_V_ERR_SELF_SIGNED_CERT_IN_CHAIN"%string;
  "X509_V_ERR_UNABLE_TO_GET_ISSUER_CERT_LOCALLY"%string;
  "X509_V_ERR_UNABLE_TO_VERIFY_LEAF_SIGNATURE"%string;
  "X509_V_ERR_CERT_CHAIN_TOO_LONG"%string;
  "X509_V_ERR_CERT_REVOKED"%string;
  "X509_V_ERR_NO_ISSUER_PUBLIC_KEY"%string;
  "X509_V_ERR_PATH_LENGTH_EXCEEDED"%string;
  "X509_V_ERR_INVALID_PURPOSE"%string;
  "X509_V_ERR_CERT_UNTRUSTED"%string;
  "X509_V_ERR_CERT_REJECTED"%string;
  "X509_V_ERR_SUBJECT_ISSUER_MISMATCH"%string;
  "X509_V_ERR_AKID_SKID_MISMATCH"%string;
  "X509_V_ERR_AKID_ISSUER_SERIAL_MISMATCH"%string;
  "X509_V_ERR_KEYUSAGE_NO_CERTSIGN"%string;
  "X509_V_ERR_UNABLE_TO_GET_CRL_ISSUER"%string;
  "X509_V_ERR_UNHANDLED_CRITICAL_EXTENSION"%string;
  "X509_V_ERR_KEYUSAGE_NO_CRL_SIGN"%string;
  "X509_V_ERR_UNHANDLED_CRITICAL_CRL_EXTENSION"%string;
  "X509_V_ERR_INVALID_NON_CA"%string;
  "X509_V_ERR_PROXY_PATH_LENGTH_EXCEEDED"%string;
  "X509_V_ERR_KEYUSAGE_NO_DIGITAL_SIGNATURE"%string;
  "X509_V_ERR_PROXY_CERTIFICATES_NOT_ALLOWED"%string;
  "X509_V_ERR_INVALID_EXTENSION"%string;
  "X509_V_ERR_INVALID_POLICY_EXTENSION"%string;
  "X509_V_ERR_NO_EXPLICIT_POLICY"%string;
  "X509_V_ERR_DIFFERENT_CRL_SCOPE"%string;
  "X509_V_ERR_UNSUPPORTED_EXTENSION_FEATURE"%string;
  "X509_V_ERR_UNNESTED_RESOURCE"%string;
  "X509_V_ERR_PERMITTED_VIOLATION"%string;
  "X509_V_ERR_EXCLUDED_VIOLATION"%string;
  "X509_V_ERR_SUBTREE_MINMAX"%string;
  "X509_V_ERR_APPLICATION_VERIFICATION"%string;
  "X509_V_ERR_UNSUPPORTED_CONSTRAINT_TYPE"%string;
  "X509_V_ERR_UNSUPPORTED_CONSTRAINT_SYNTAX"%string;
  "X509_V_ERR_UNSUPPORTED_NAME_SYNTAX"%string;
  "X509_V_ERR_CRL_PATH_VALIDATION_ERROR"%string;
  "X509_V_ERR_PATH_LOOP"%string;
  "X509_V_ERR_SUITE_B_INVALID_VERSION"%string;
  "X509_V_ERR_SUITE_B_INVALID_ALGORITHM"%string;
  "X509_V_ERR_SUITE_B_INVALID_CURVE"%string;
  "X509_V_ERR_SUITE_B_INVALID_SIGNATURE_ALGORITHM"%string;
  "X509_V_ERR_SUITE_B_LOS_NOT_ALLOWED"%string;
  "X509_V_ERR_SUITE_B_CANNOT_SIGN_P_384_WITH_P_256"%string;
  "X509_V_ERR_HOSTNAME_MISMATCH"%string;
  "X509_V_ERR_EMAIL_MISMATCH"%string;
  "X509_V_ERR_IP_ADDRESS_MISMATCH"%string;
  "X509_V_ERR_DANE_NO_MATCH"%string;
  "X509_V_ERR_EE_KEY_TOO_SMALL"%string;
  "X509_V_ERR_CA_KEY_TOO_SMALL"%string;
  "X509_V_ERR_CA_MD_TOO_WEAK"%string;
  "X509_V_ERR_INVALID_CALL"%string;
  "X509_V_ERR_STORE_LOOKUP"%string;
  "X509_V_ERR_NO_VALID_SCTS"%string;
  "X509_V_ERR_PROXY_SUBJECT_NAME_VIOLATION"%string;
  "X509_V_ERR_OCSP_VERIFY_NEEDED"%string;
  "X509_V_ERR_OCSP_VERIFY_FAILED"%string;
  "X509_V_ERR_OCSP_CERT_UNKNOWN"%string;
  "X509_V_ERR_UNSUPPORTED_SIGNATURE_ALGORITHM"%string;
  "X509_V_ERR_SIGNATURE_ALGORITHM_MISMATCH"%string;
  "X509_V_ERR_SIGNATURE_ALGORITHM_INCONSISTENCY"%string;
  "X509_V_ERR_INVALID_CA"%string;
  "X509_V_ERR_PATHLEN_INVALID_FOR_NON_CA"%string;
  "X509_V_ERR_PATHLEN_WITHOUT_KU_KEY_CERT_SIGN"%string;
  "X509_V_ERR_KU_KEY_CERT_SIGN_INVALID_FOR_NON_CA"%string;
  "X509_V_ERR_ISSUER_NAME_EMPTY"%string;
  "X509_V_ERR_SUBJECT_NAME_EMPTY"%string;
  "X509_V_ERR_MISSING_AUTHORITY_KEY_IDENTIFIER"%string;
  "X509_V_ERR_MISSING_SUBJECT_KEY_IDENTIFIER"%string;
  "X509_V_ERR_EMPTY_SUBJECT_ALT_NAME"%string;
  "X509_V_ERR_EMPTY_SUBJECT_SAN_NOT_CRITICAL"%string;
  "X509_V_ERR_CA_BCONS_NOT_CRITICAL"%string;
  "X509_V_ERR_AUTHORITY_KEY_IDENTIFIER_CRITICAL"%string;
  "X509_V_ERR_SUBJECT_KEY_IDENTIFIER_CRITICAL"%string;
  "X509_V_ERR_CA_CERT_MISSING_KEY_USAGE"%string;
  "X509_V_ERR_EXTENSIONS_REQUIRE_VERSION_3"%string;
  "X509_V_ERR_EC_KEY_EXPLICIT_PARAMS"%string
].

Section VerifyCodes.

(** What the preprocessor makes of a constant's name in the headers of
    the cryptography library the build uses: the replacement text of the
    macro, or the name itself when no such macro is defined. *)
Variable cpp_expand : string -> string.

(** The macro [V(x)]. *)
Definition V (x : string) : x509_v_code :=
  X509VCode (-1) (cpp_expand x) x.

(** The static array, without its NULL terminator. *)
Definition x509_v_codes : list x509_v_code := List.map V x509_v_names.

End VerifyCodes.

(** [strcmp(a, b) == 0] on two C strings. *)
Definition streq (a b : string) : bool := String.eqb a b.

(** init_x509_v_err_tab: the array after the initialisation call. *)
Definition init_x509_v_err_tab (tab : list x509_v_code) : list x509_v_code :=
  List.map (fun e =>
    (* either the macro exists or it's equal to its own name *)
    if streq (vc_string e) (vc_value e) then e
    else X509VCode (atoi (bytes_of_string (vc_value e))) (vc_value e) (vc_string e))
    tab.

Fixpoint x509_v_err_str_to_int (tab : list x509_v_code) (str : string) : Z :=
  match tab with
  | [] => -1
  | e :: tab' =>
      if streq str (vc_string e) then vc_code e
      else x509_v_err_str_to_int tab' str
  end.

Fixpoint x509_v_err_find_code (tab : list x509_v_code) (code : Z) : option string :=
  match tab with
  | [] => None
  | e :: tab' =>
      if vc_code e =? code then Some (vc_string e)
      else x509_v_err_find_code tab' code
  end.

(** The result is [None] for NULL. *)
Definition x509_v_err_int_to_str (tab : list x509_v_code) (code : Z) : option string :=
  if code =? -1 then None else x509_v_err_find_code tab code.

(** A library whose headers define every constant of the list, numbered in
    the order of the list from 0 (the numbering of OpenSSL's x509_vfy.h,
    from which the list was taken). *)
Definition decimal (n : nat) : string :=
  DecimalString.NilZero.string_of_uint (Nat.to_uint n).

Fixpoint numbered_from (n : nat) (names : list string) (x : string) : string :=
  match names with
  | [] => x
  | y :: names' => if String.eqb x y then decimal n else numbered_from (S n) names' x
  end.

Definition cpp_expand_numbered : string -> string := numbered_from 0 x509_v_names.

(** ** asn1_generalizedtime_to_epoch *)

Definition month_offset : list Z :=
  [0; 31; 59; 90; 120; 151; 181; 212; 243; 273; 304; 334].

(** [p[i]] read through a [char *]. *)
Definition char_at (p : list Z) (i : Z) : Z := char_val (byte_at p i).

(** [10 * (p[0] - '0') + p[1] - '0'] *)
Definition two_digits (p : list Z) : Z :=
  10 * (char_at p 0 - 0x30) + char_at p 1 - 0x30.

(** [end - p] *)
Definition remaining (p : list Z) : Z := Z.of_nat (length p).

(** The [do ... while] loop over the fraction of the seconds: [p] is at
    the dot or at a digit of the fraction; the result is [None] when the
    loop returns -1 and the position it stops at otherwise. *)
Fixpoint skip_fraction (p : list Z) : option (list Z) :=
  match p with
  | [] => None
  | _ :: p' =>
      match p' with
      | [] => None
      | c :: _ =>
          if (0x30 <=? char_val c) && (char_val c <=? 0x39) then skip_fraction p'
          else Some p'
      end
  end.

(** From label [nosec] on. *)
Definition epoch_timezone (epoch : Z) (p : list Z) : Z :=
  if char_at p 0 =? 0x5a then
    if negb (remaining p =? 1) then -1 else epoch
  else if char_at p 0 =? 0x2b then
    if negb (remaining p =? 5) then -1
    else epoch - ((10 * (char_at p 1 - 0x30) + char_at p 2 - 0x30) * 60 * 60
                  + (10 * (char_at p 3 - 0x30) + char_at p 4 - 0x30)) * 60
  else if char_at p 0 =? 0x2d then
    if negb (remaining p =? 5) then -1
    else epoch + ((10 * (char_at p 1 - 0x30) + char_at p 2 - 0x30) * 60 * 60
                  + (10 * (char_at p 3 - 0x30) + char_at p 4 - 0x30)) * 60
  else -1.

(** [d] is [None] for a NULL pointer.  [year] and [month] are
    [unsigned long], [epoch] is [long]. *)
Definition asn1_generalizedtime_to_epoch (d : option ASN1_STRING) : Z :=
  match d with
  | None => -1
  | Some d =>
      if negb (asn1_type d =? V_ASN1_GENERALIZEDTIME) then -1
      else
        let p := take (Z.to_nat (asn1_length d)) (asn1_data d) in
        if remaining p <? 4 then -1
        else
          let year := to_size_t (1000 * (char_at p 0 - 0x30) + 100 * (char_at p 1 - 0x30)
                                 + 10 * (char_at p 2 - 0x30) + char_at p 3 - 0x30) in
          let p := drop 4 p in
          if remaining p <? 2 then -1
          else
            let month := to_size_t (two_digits p) in
            if (month <? 1) || (12 <? month) then -1
            else
              let lt3 := if month <? 3 then 1 else 0 in
              let y := to_size_t (year - lt3) in
              let epoch := to_long
                ((to_size_t (year - 1970) * 365
                  + (y / 4 - y / 100 + y / 400)
                  - ((1970 - 1) / 4 - (1970 - 1) / 100 + (1970 - 1) / 400)
                  + nth (Z.to_nat (month - 1)) month_offset 0)
                 * 24 * 60 * 60) in
              let p := drop 2 p in
              if remaining p <? 2 then -1
              else
                let epoch := epoch + (two_digits p - 1) * 24 * 60 * 60 in
                let p := drop 2 p in
                if remaining p <? 2 then -1
                else
                  let epoch := epoch + two_digits p * 60 * 60 in
                  let p := drop 2 p in
                  if remaining p <? 2 then -1
                  else
                    let epoch := epoch + two_digits p * 60 in
                    let p := drop 2 p in
                    if remaining p =? 0 then -1
                    else if (char_at p 0 <? 0x30) || (0x39 <? char_at p 0) then
                      epoch_timezone epoch p
                    else if remaining p <? 2 then -1
                    else
                      let epoch := epoch + two_digits p in
                      let p := drop 2 p in
                      if remaining p =? 0 then -1
                      else if char_at p 0 =? 0x2e then
                        match skip_fraction p with
                        | None => -1
                        | Some p => epoch_timezone epoch p
                        end
                      else epoch_timezone epoch p
  end.

(** A generalized-time object holding the bytes of [s]. *)
Definition generalizedtime (s : string) : ASN1_STRING :=
  Asn1String (Z.of_nat (length (bytes_of_string s))) V_ASN1_GENERALIZEDTIME
             (bytes_of_string s).


(** ** Statements and sample values used by the properties below *)

(** The acceptance conditions of ssl_sock_get_time, as the specification
    words them. *)
Definition generalized_accepted (tm : ASN1_STRING) : Prop :=
  asn1_type tm = V_ASN1_GENERALIZEDTIME /\ 12 <= asn1_length tm /\
  byte_at (asn1_data tm) 0 = 0x32 /\ byte_at (asn1_data tm) 1 = 0x30.

Definition utc_accepted (tm : ASN1_STRING) : Prop :=
  asn1_type tm = V_ASN1_UTCTIME /\ 10 <= asn1_length tm /\
  byte_at (asn1_data tm) 0 < 0x35.

(** Sample certificates, times and buffers. *)
Definition crt_serial_3 : X509 :=
  MkX509 (Some (Asn1String 3 2 [0x01; 0xe2; 0x40])) None.

Definition out_4 : buffer := Buffer 4 [0; 0; 0; 0] 0 0.

Definition not_after_utc : ASN1_STRING :=
  Asn1String 13 V_ASN1_UTCTIME (bytes_of_string "301231235959Z").

Definition out_16 : buffer := Buffer 16 (repeat 0 16) 0 0.

Definition crt_leaf : X509 := MkX509 (Some (Asn1String 1 2 [0x05])) None.
Definition crt_intermediate : X509 := MkX509 (Some (Asn1String 1 2 [0x02])) None.

(** An issuer check that never succeeds: it always answers 29, the value
    of X509_V_ERR_SUBJECT_ISSUER_MISMATCH in OpenSSL. *)
Definition check_issued_never (issuer subject : X509) : Z := 29.

(** The body of the loop of ssl_sock_get_dn_entry run over the entries in
    the order the loop visits them; [dn_entry_loop] is related to it in
    [dn_entry_loop_reverse]. *)
Section DistinguishedNameScan.

Variable OBJ_nid2sn : Z -> option (list Z).
Variable chunk_strcasecmp : buffer -> list Z -> Z.

(** An entry whose name compares equal to the requested attribute. *)
Definition entry_matches (entry : buffer) (ne : X509_NAME_ENTRY) : Prop :=
  chunk_strcasecmp entry (entry_name OBJ_nid2sn (ne_object ne)) = 0.

Global Instance entry_matches_dec entry ne : Decision (entry_matches entry ne).
Proof. unfold entry_matches. apply Z.eq_dec. Defined.

(** The matching entries of a name, in encoding order. *)
Definition dn_matches (entry : buffer) (a : X509_NAME) : list X509_NAME_ENTRY :=
  filter (entry_matches entry) a.

(** What the function does once it has selected entry [ne]. *)
Definition dn_entry_copy (ne : X509_NAME_ENTRY) (out : buffer) : Z * buffer :=
  let data_len := asn1_length (ne_value ne) in
  if b_size out <? to_size_t data_len then (-1, out)
  else
    let area' := memcpy (b_area out) 0 (asn1_data (ne_value ne)) data_len in
    (1, set_data (set_area out area') (to_size_t data_len)).

Fixpoint dn_scan (l : list X509_NAME_ENTRY) (entry : buffer) (pos cur : Z)
    (out : buffer) : Z * buffer :=
  match l with
  | [] => (0, out)
  | ne :: l' =>
      if negb (chunk_strcasecmp entry (entry_name OBJ_nid2sn (ne_object ne)) =? 0) then
        dn_scan l' entry pos cur out
      else
        let cur' := if pos <? 0 then cur - 1 else cur + 1 in
        if negb (cur' =? pos) then dn_scan l' entry pos cur' out
        else dn_entry_copy ne out
  end.

End DistinguishedNameScan.

(** A name with two common names around an organisation, and the short
    names of the three attribute types it uses. *)
Definition sample_nid2sn (n : Z) : option (list Z) :=
  if n =? 13 then Some (bytes_of_string "CN")
  else if n =? 17 then Some (bytes_of_string "O")
  else None.

Definition name_entry (nid : Z) (value : string) : X509_NAME_ENTRY :=
  NameEntry (Asn1Object nid (bytes_of_string "2.5.4"))
            (Asn1String (Z.of_nat (length (bytes_of_string value))) 12
                        (bytes_of_string value)).

Definition sample_name : X509_NAME :=
  [name_entry 13 "a.example"; name_entry 17 "Acme"; name_entry 13 "b.example"].

Definition chunk_of_string (s : string) : buffer :=
  Buffer (Z.of_nat (length (bytes_of_string s))) (bytes_of_string s)
         (Z.of_nat (length (bytes_of_string s))) 0.

(** The GREASE filter as the specification words it: every pair whose two
    bytes are equal and whose first byte has low nibble 0xA is dropped,
    every other pair is kept, and an unpaired last byte is kept. *)
Definition is_grease_pair (a b : Z) : bool := (a =? b) && (Z.land a 0x0f =? 0x0a).

Fixpoint grease_spec (l : list Z) : list Z :=
  match l with
  | a :: b :: l' =>
      if is_grease_pair a b then grease_spec l' else a :: b :: grease_spec l'
  | _ => l
  end.

(** Every element is the value of an [unsigned char]. *)
Definition bytes (l : list Z) : Prop := Forall (fun b => 0 <= b < 256) l.

(** Buffers too small to hold one pair. *)
Definition out_0 : buffer := Buffer 0 [] 0 0.
Definition out_1 : buffer := Buffer 1 [0] 0 0.

(** A non-empty run of decimal digits, and the number it denotes. *)
Definition digits (ds : list Z) : Prop :=
  ds <> [] /\ Forall (fun c => isdigit c = true) ds.

Definition decimal_value (ds : list Z) : Z :=
  fold_left (fun acc c => acc * 10 + (c - 0x30)) ds 0.

(** The patch accumulator the specification describes for a suffix: 1 plus
    the sum of each upper-cased character's offset from 'A'. *)
Definition suffix_patch (suffix : list Z) : Z :=
  1 + fold_right (fun c acc => (ascii_upper c - 0x41) + acc) 0 suffix.

(** A version string as the argument of the parser. *)
Definition version_string (s : string) : option (list Z) := Some (bytes_of_string s).

Definition is_letter (c : Z) : bool :=
  ((0x41 <=? c) && (c <=? 0x5a)) || ((0x61 <=? c) && (c <=? 0x7a)).

(** The table once init_x509_v_err_tab has run, for given headers. *)
Definition x509_v_table (cpp_expand : string -> string) : list x509_v_code :=
  init_x509_v_err_tab (x509_v_codes cpp_expand).





(** * The rest of ssl_utils.c *)

(** ** The table of signature algorithms *)

Record sigalgs : Type := SigAlg {
  sa_name : string;     (* const char *name *)
  sa_sigalg : Z         (* int sigalg *)
}.

(** The static array [sigalgs_list], without its NULL terminator. *)
Definition sigalgs_list : list sigalgs := [
  SigAlg "rsa_pkcs1_sha256" 0x0401;
  SigAlg "rsa_pkcs1_sha384" 0x0501;
  SigAlg "rsa_pkcs1_sha512" 0x0601;
  SigAlg "ecdsa_secp256r1_sha256" 0x0403;
  SigAlg "ecdsa_secp384r1_sha384" 0x0503;
  SigAlg "ecdsa_secp521r1_sha512" 0x0603;
  SigAlg "rsa_pss_rsae_sha256" 0x0804;
  SigAlg "rsa_pss_rsae_sha384" 0x0805;
  SigAlg "rsa_pss_rsae_sha512" 0x0806;
  SigAlg "ed25519" 0x0807;
  SigAlg "ed448" 0x0808;
  SigAlg "rsa_pss_pss_sha256" 0x0809;
  SigAlg "rsa_pss_pss_sha384" 0x080a;
  SigAlg "rsa_pss_pss_sha512" 0x080b;
  SigAlg "rsa_pkcs1_sha1" 0x0201;
  SigAlg "ecdsa_sha1" 0x0203;
  SigAlg "rsa_pkcs1_sha256_legacy" 0x0420;
  SigAlg "rsa_pkcs1_sha384_legacy" 0x0520;
  SigAlg "rsa_pkcs1_sha512_legacy" 0x0620;
  SigAlg "eccsi_sha256" 0x0704;
  SigAlg "iso_ibs1" 0x0705;
  SigAlg "iso_ibs2" 0x0706;
  SigAlg "iso_chinese_ibs" 0x0707;
  SigAlg "sm2sig_sm3" 0x0708;
  SigAlg "gostr34102012_256a" 0x0709;
  SigAlg "gostr34102012_256b" 0x070a;
  SigAlg "gostr34102012_256c" 0x070b;
  SigAlg "gostr34102012_256d" 0x070c;
  SigAlg "gostr34102012_512a" 0x070d;
  SigAlg "gostr34102012_512b" 0x070e;
  SigAlg "gostr34102012_512c" 0x070f;
  SigAlg "ecdsa_brainpoolP256r1tls13_sha256" 0x081a;
  SigAlg "ecdsa_brainpoolP384r1tls13_sha384" 0x081b;
  SigAlg "ecdsa_brainpoolP512r1tls13_sha512" 0x081c;
  SigAlg "dsa_sha256" 0x0402;
  SigAlg "dsa_sha384" 0x0502;
  SigAlg "dsa_sha512" 0x0602;
  SigAlg "dsa_sha224" 0x0302;
  SigAlg "dsa_sha1" 0x0202;
  SigAlg "ecdsa_sha224" 0x0303;
  SigAlg "ecdsa_sha1" 0x0203;
  SigAlg "gostr34102012_256_intrinsic" 0x0840;
  SigAlg "gostr34102012_512_intrinsic" 0x0841
].

(** The [while (item->name)] walk of sigalg2str; [None] is NULL. *)
Fixpoint sigalg2str_from (item : list sigalgs) (sigalg : Z) : option string :=
  match item with
  | [] => None
  | e :: item' =>
      if sa_sigalg e =? sigalg then Some (sa_name e)
      else sigalg2str_from item' sigalg
  end.

Definition sigalg2str (sigalg : Z) : option string :=
  sigalg2str_from sigalgs_list sigalg.

(** ** The table of curves *)

Record curve : Type := Curve {
  curve_id : Z;
  cv_nid : Z;
  nid_val_str : string;
  cv_name : string;
  cv_nist : option string    (* NULL for a curve without NIST name *)
}.

(** The second argument of the macro [V] of the curve table: the name of
    a constant of the library, or a literal. *)
Inductive nid_arg : Type :=
| NidMacro (x : string)
| NidLiteral (x : string).

(** The arguments of the lines of [curves_list], in order. *)
Definition curves_args : list (Z * nid_arg * string * option string) := [
  (1, NidMacro "NID_sect163k1", "sect163k1"%string, Some "K-163"%string);
  (2, NidMacro "NID_sect163r1", "sect163r1"%string, None);
  (3, NidMacro "NID_sect163r2", "sect163r2"%string, Some "B-163"%string);
  (4, NidMacro "NID_sect193r1", "sect193r1"%string, None);
  (5, NidMacro "NID_sect193r2", "sect193r2"%string, None);
  (6, NidMacro "NID_sect233k1", "sect233k1"%string, Some "K-233"%string);
  (7, NidMacro "NID_sect233r1", "sect233r1"%string, Some "B-233"%string);
  (8, NidMacro "NID_sect239k1", "sect239k1"%string, None);
  (9, NidMacro "NID_sect283k1", "sect283k1"%string, Some "K-283"%string);
  (10, NidMacro "NID_sect283r1", "sect283r1"%string, Some "B-283"%string);
  (11, NidMacro "NID_sect409k1", "sect409k1"%string, Some "K-409"%string);
  (12, NidMacro "NID_sect409r1", "sect409r1"%string, Some "B-409"%string);
  (13, NidMacro "NID_sect571k1", "sect571k1"%string, Some "K-571"%string);
  (14, NidMacro "NID_sect571r1", "sect571r1"%string, Some "B-571"%string);
  (15, NidMacro "NID_secp160k1", "secp160k1"%string, None);
  (16, NidMacro "NID_secp160r1", "secp160r1"%string, None);
  (17, NidMacro "NID_secp160r2", "secp160r2"%string, None);
  (18, NidMacro "NID_secp192k1", "secp192k1"%string, None);
  (19, NidMacro "NID_X9_62_prime192v1", "secp192r1"%string, Some "P-192"%string);
  (20, NidMacro "NID_secp224k1", "secp224k1"%string, None);
  (21, NidMacro "NID_secp224r1", "secp224r1"%string, Some "P-224"%string);
  (22, NidMacro "NID_secp256k1", "secp256k1"%string, None);
  (23, NidMacro "NID_X9_62_prime256v1", "secp256r1"%string, Some "P-256"%string);
  (24, NidMacro "NID_secp384r1", "secp384r1"%string, Some "P-384"%string);
  (25, NidMacro "NID_secp521r1", "secp521r1"%string, Some "P-521"%string);
  (26, NidMacro "NID_brainpoolP256r1", "brainpoolP256r1"%string, None);
  (27, NidMacro "NID_brainpoolP384r1", "brainpoolP384r1"%string, None);
  (28, NidMacro "NID_brainpoolP512r1", "brainpoolP512r1"%string, None);
  (29, NidMacro "EVP_PKEY_X25519", "ecdh_x25519"%string, None);
  (30, NidMacro "EVP_PKEY_X448", "ecdh_x448"%string, None);
  (31, NidMacro "NID_brainpoolP256r1tls13", "brainpoolP256r1tls13"%string, None);
  (32, NidMacro "NID_brainpoolP384r1tls13", "brainpoolP384r1tls13"%string, None);
  (33, NidMacro "NID_brainpoolP512r1tls13", "brainpoolP512r1tls13"%string, None);
  (34, NidMacro "NID_id_tc26_gost_3410_2012_256_paramSetA", "GC256A"%string, None);
  (35, NidMacro "NID_id_tc26_gost_3410_2012_256_paramSetB", "GC256B"%string, None);
  (36, NidMacro "NID_id_tc26_gost_3410_2012_256_paramSetC", "GC256C"%string, None);
  (37, NidMacro "NID_id_tc26_gost_3410_2012_256_paramSetD", "GC256D"%string, None);
  (38, NidMacro "NID_id_tc26_gost_3410_2012_512_paramSetA", "GC512A"%string, None);
  (39, NidMacro "NID_id_tc26_gost_3410_2012_512_paramSetB", "GC512B"%string, None);
  (40, NidMacro "NID_id_tc26_gost_3410_2012_512_paramSetC", "GC512C"%string, None);
  (256, NidMacro "NID_ffdhe2048", "ffdhe2048"%string, None);
  (257, NidMacro "NID_ffdhe3072", "ffdhe3072"%string, None);
  (258, NidMacro "NID_ffdhe4096", "ffdhe4096"%string, None);
  (259, NidMacro "NID_ffdhe6144", "ffdhe6144"%string, None);
  (260, NidMacro "NID_ffdhe8192", "ffdhe8192"%string, None);
  (25497, NidLiteral "-1", "X25519Kyber768Draft00"%string, None);
  (25498, NidLiteral "-1", "SecP256r1Kyber768Draft00"%string, None);
  (0xFF01, NidLiteral "-1", "arbitrary_explicit_prime_curves"%string, None);
  (0xFF02, NidLiteral "-1", "arbitrary_explicit_char2_curves"%string, None)
].

Section CurvesTable.

(** The headers of the library, as for the verification codes. *)
Variable cpp_expand : string -> string.

(** The stringification [_Q(x)] of the second argument. *)
Definition nid_arg_text (x : nid_arg) : string :=
  match x with
  | NidMacro m => cpp_expand m
  | NidLiteral l => l
  end.

(** The macro [V(w, x, y, z)] of the curve table. *)
Definition V_curve (line : Z * nid_arg * string * option string) : curve :=
  let '(w, x, y, z) := line in
  Curve w (-1) (nid_arg_text x) y z.

(** The static array [curves_list], without its terminator. *)
Definition curves_list : list curve := List.map V_curve curves_args.

End CurvesTable.

(** [errno] after [strtol(nptr, &end, 10)]: ERANGE, here [true], when the
    digits denote a value outside [long]. *)
Definition strtol_erange (nptr : list Z) : bool :=
  let p := skip_space nptr in
  let '(neg, p1) :=
    match p with
    | c :: q => if c =? 0x2d then (true, q)
                else if c =? 0x2b then (false, q) else (false, p)
    | [] => (false, p)
    end in
  if isdigit (peek p1) then
    let '(v, e) := strtol_digits 0 p1 in
    let v' := if neg then - v else v in
    (v' <? LONG_MIN) || (LONG_MAX <? v')
  else false.

(** init_curves_tab: the array after the initialisation call.  [endptr]
    is past [nid_val_str] when what is left to read is shorter. *)
Definition init_curves_tab (tab : list curve) : list curve :=
  List.map (fun c =>
    let s := bytes_of_string (nid_val_str c) in
    let '(value, endptr) := strtol s in
    if negb (strtol_erange s) && (Z.of_nat (length endptr) <? Z.of_nat (length s)) then
      Curve (curve_id c) (to_int value) (nid_val_str c) (cv_name c) (cv_nist c)
    else c)
    tab.

(** The [while (item->name)] walk of curveid2str. *)
Fixpoint curveid2str (item : list curve) (id : Z) : option string :=
  match item with
  | [] => None
  | c :: item' =>
      if curve_id c =? id then Some (cv_name c) else curveid2str item' id
  end.

(** [curves->nist && strcmp(curve, curves->nist) == 0] *)
Definition nist_matches (curve_name : string) (c : curve) : bool :=
  match cv_nist c with
  | Some z => streq curve_name z
  | None => false
  end.

(** The [while (curves->curve_id)] walk of curves2nid. *)
Fixpoint curves2nid (curves : list curve) (curve_name : string) : Z :=
  match curves with
  | [] => -1
  | c :: curves' =>
      if curve_id c =? 0 then -1
      else if streq curve_name (cv_name c) || nist_matches curve_name c then cv_nid c
      else curves2nid curves' curve_name
  end.

(** The curve table once init_curves_tab has run, for given headers. *)
Definition curves_table (cpp_expand : string -> string) : list curve :=
  init_curves_tab (curves_list cpp_expand).

(** ** Fields of a packed version number *)

Definition version_major (v : Z) : Z := Z.land (Z.shiftr v 28) 0xf.
Definition version_minor (v : Z) : Z := Z.land (Z.shiftr v 20) 0xff.
Definition version_fix (v : Z) : Z := Z.land (Z.shiftr v 12) 0xff.

(** What openssl_version_parser does after the three numeric fields, with
    [p] at the first character that follows [fix]. *)
Definition version_tail (major minor fix_ : Z) (p : list Z) : Z :=
  if peek p =? 0 then numversion major minor fix_ 0 0xf
  else if peek p =? 0x2d then
    let p := tl p in
    if strncmp p (bytes_of_string "beta") 4 =? 0 then
      let p := drop 4 p in
      let '(v, e) := strtol p in
      let status := to_uint v in
      if 14 <? status then 0
      else numversion major minor fix_ 0 status
    else numversion major minor fix_ 0 0
  else
    let patch := patch_loop p 1 in
    numversion major minor fix_ patch 0xf.

(** ** The rendering of a distinguished name on one line *)

Section OnelineRendering.

Variable OBJ_nid2sn : Z -> option (list Z).

(** The bytes ssl_sock_get_dn_oneline writes for one entry. *)
Definition oneline_entry (ne : X509_NAME_ENTRY) : list Z :=
  let s := entry_name OBJ_nid2sn (ne_object ne) in
  0x2f :: take (Z.to_nat (strlen s)) s ++ 0x3d :: asn1_data (ne_value ne).

Definition oneline (a : list X509_NAME_ENTRY) : list Z :=
  concat (List.map oneline_entry a).

End OnelineRendering.

(** ** The Gregorian calendar *)

Definition is_leap (y : Z) : bool :=
  ((y mod 4 =? 0) && negb (y mod 100 =? 0)) || (y mod 400 =? 0).

Definition days_in_year (y : Z) : Z := if is_leap y then 366 else 365.

Definition days_in_month (y m : Z) : Z :=
  if m =? 2 then (if is_leap y then 29 else 28)
  else if (m =? 4) || (m =? 6) || (m =? 9) || (m =? 11) then 30
  else 31.

(** Days from 1 January 1970 to 1 January of year [1970 + n]. *)
Fixpoint days_to_year (n : nat) : Z :=
  match n with
  | O => 0
  | S n' => days_to_year n' + days_in_year (1970 + Z.of_nat n')
  end.

(** Days from 1 January of year [y] to the first day of month [1 + n]. *)
Fixpoint days_to_month (y : Z) (n : nat) : Z :=
  match n with
  | O => 0
  | S n' => days_to_month y n' + days_in_month y (Z.of_nat n' + 1)
  end.

(** Seconds from the Epoch to the given UTC date and time. *)
Definition civil_seconds (year month day hour minute second : Z) : Z :=
  (days_to_year (Z.to_nat (year - 1970)) + days_to_month year (Z.to_nat (month - 1))
   + (day - 1)) * 86400 + hour * 3600 + minute * 60 + second.

(** The value of a decimal digit character. *)
Definition digit_val (c : Z) : Z := c - 0x30.

(** ** Statements about the tables *)

(** What the lookups read of an entry does not depend on the headers. *)
Definition curve_key (c : curve) : Z * string * option string :=
  (curve_id c, cv_name c, cv_nist c).

Definition curve_arg_key (line : Z * nid_arg * string * option string) :
    Z * string * option string :=
  let '(w, _, y, z) := line in (w, y, z).

(** The headers in which no constant is defined. *)
Definition cpp_expand_none (x : string) : string := x.

(** The names an entry of the curve table answers to. *)
Definition curve_names (c : curve) : list string :=
  cv_name c :: match cv_nist c with Some z => [z] | None => [] end.

(** Headers that define the constant of the curve P-256 and no other
    (415 is its value in OpenSSL's obj_mac.h). *)
Definition cpp_expand_p256 (x : string) : string :=
  if String.eqb x "NID_X9_62_prime256v1" then "415"%string else x.

(** An entry whose value is a well-formed string and whose name has a
    length that fits the [int] the code keeps it in. *)
Definition name_entry_wf (OBJ_nid2sn : Z -> option (list Z)) (ne : X509_NAME_ENTRY) : Prop :=
  asn1_wf (ne_value ne) /\ strlen (entry_name OBJ_nid2sn (ne_object ne)) <= INT_MAX.

(** The length of a byte string, as an integer. *)
Definition zlength (l : list Z) : Z := Z.of_nat (length l).

(** An issuer check that succeeds on the certificates without serial
    number and fails on the others. *)
Definition check_issued_no_serial (issuer subject : X509) : Z :=
  match x509_serial subject with
  | None => X509_V_OK
  | Some _ => 29
  end.

Definition crt_root : X509 := MkX509 None None.

(** The stages of openssl_version_parser after the first and the second
    field, with [p] just after the dot. *)
Definition version_after_minor (major minor : Z) (p : list Z) : Z :=
  let '(v, e) := strtol p in
  let fix_ := to_uint v in
  if 0xff <? fix_ then 0 else version_tail major minor fix_ e.

Definition version_after_major (major : Z) (p : list Z) : Z :=
  let '(v, e) := strtol p in
  let minor := to_uint v in
  if negb (peek e =? 0x2e) || (0xff <? minor) then 0
  else version_after_minor major minor (tl e).

(** The value a run of digits leaves in an [unsigned int] field. *)
Definition field_value (ds : list Z) : Z := to_uint (clamp_long (decimal_value ds)).

(** [MAJOR.MINOR.FIX] followed by [rest]. *)
Definition version_text (ma mi fx rest : list Z) : option (list Z) :=
  Some (ma ++ bytes_of_string "." ++ mi ++ bytes_of_string "." ++ fx ++ rest).

(** ** Stages of asn1_generalizedtime_to_epoch *)

(** The value [epoch] is given first: the seconds from the Epoch to the
    beginning of the month, computed in [unsigned long] and stored in a
    [long]. *)
Definition epoch_month_start (year month : Z) : Z :=
  let lt3 := if month <? 3 then 1 else 0 in
  let y := to_size_t (year - lt3) in
  to_long
    ((to_size_t (year - 1970) * 365
      + (y / 4 - y / 100 + y / 400)
      - ((1970 - 1) / 4 - (1970 - 1) / 100 + (1970 - 1) / 400)
      + nth (Z.to_nat (month - 1)) month_offset 0)
     * 24 * 60 * 60).

(** The function from the first test after the minutes on, with [p] just
    after the minutes. *)
Definition epoch_seconds_tail (epoch : Z) (p : list Z) : Z :=
  if remaining p =? 0 then -1
  else if (char_at p 0 <? 0x30) || (0x39 <? char_at p 0) then epoch_timezone epoch p
  else if remaining p <? 2 then -1
  else
    let epoch := epoch + two_digits p in
    let p := drop 2 p in
    if remaining p =? 0 then -1
    else if char_at p 0 =? 0x2e then
      match skip_fraction p with
      | None => -1
      | Some p => epoch_timezone epoch p
      end
    else epoch_timezone epoch p.

(** A generalized-time object holding the bytes [l]. *)
Definition generalizedtime_bytes (l : list Z) : option ASN1_STRING :=
  Some (Asn1String (zlength l) V_ASN1_GENERALIZEDTIME l).

(** The number two digit characters denote. *)
Definition two_digit_value (a b : Z) : Z := 10 * digit_val a + digit_val b.

Definition four_digit_value (a b c d : Z) : Z :=
  1000 * digit_val a + 100 * digit_val b + 10 * digit_val c + digit_val d.

Definition all_digits (l : list Z) : Prop := Forall (fun c => isdigit c = true) l.

(** The number of leap years from year 1 to year [k]. *)
Definition leap_count (k : Z) : Z := k / 4 - k / 100 + k / 400.

(** The zone suffixes the function accepts after the time: "Z", or a sign
    followed by four bytes. *)
Definition zone_accepted (tz : list Z) : Prop :=
  tz = [0x5a] \/ (zlength tz = 5 /\ (peek tz = 0x2b \/ peek tz = 0x2d)).

(** One round of the loop of init_curves_tab, on the entry it visits. *)
Definition init_curve (c : curve) : curve := hd c (init_curves_tab [c]).

(** What a call that fills [out] and reports [fst r] may have done to the
    buffer: the capacity and [head] are never written, the buffer is as it
    was unless the call reports 1, and a buffer whose counters fit and
    whose [data] is within the capacity stays so. *)
Definition buffer_frame (out : buffer) (r : Z * buffer) : Prop :=
  b_size (snd r) = b_size out /\ b_head (snd r) = b_head out /\
  (fst r <> 1 -> snd r = out) /\
  (buffer_wf out -> buffer_wf (snd r)) /\
  (buffer_inv out -> buffer_inv (snd r)).
(** * Properties *)

(** ** Integer conversions and memory writes *)

Lemma to_size_t_small (z : Z) : 0 <= z < 2 ^ 64 -> to_size_t z = z.
Proof. intros H. unfold to_size_t. apply Z.mod_small. exact H. Qed.

Lemma to_size_t_int (z : Z) : 0 <= z <= INT_MAX -> to_size_t z = z.
Proof. intros H. apply to_size_t_small. unfold INT_MAX in H. lia. Qed.

Lemma to_size_t_range (z : Z) : 0 <= to_size_t z < 2 ^ 64.
Proof. unfold to_size_t. apply Z.mod_pos_bound. lia. Qed.

Lemma memcpy_length (dst : list Z) off src n :
  length (memcpy dst off src n) = length dst.
Proof. unfold memcpy. apply length_inserts. Qed.

Lemma store_length (dst : list Z) off b : length (store dst off b) = length dst.
Proof. unfold store. apply length_insert. Qed.

(** A copy that fits replaces exactly the addressed bytes. *)
Lemma list_inserts_fits (k dst : list Z) (off : nat) :
  (off + length k <= length dst)%nat ->
  list_inserts off k dst = take off dst ++ k ++ drop (off + length k) dst.
Proof.
  intros Hfit.
  rewrite <- (take_drop off dst) at 1.
  assert (Hoff : length (take off dst) = off) by (rewrite length_take; lia).
  replace off with (length (take off dst) + 0)%nat at 1 by lia.
  rewrite list_inserts_app_r. f_equal.
  rewrite <- (take_drop (length k) (drop off dst)) at 1.
  rewrite list_inserts_0_r.
  - now rewrite drop_drop.
  - rewrite length_take, length_drop. lia.
Qed.

Lemma memcpy_whole_at (dst src : list Z) (off : Z) :
  0 <= off ->
  (Z.to_nat off + length src <= length dst)%nat ->
  memcpy dst off src (Z.of_nat (length src))
  = take (Z.to_nat off) dst ++ src ++ drop (Z.to_nat off + length src) dst.
Proof.
  intros Hoff Hfit. unfold memcpy.
  rewrite Nat2Z.id, firstn_all. now apply list_inserts_fits.
Qed.

(** Copying a whole array to the start of the area makes it the contents. *)
Lemma memcpy_contents (out : buffer) (src : list Z) (n : Z) :
  n = Z.of_nat (length src) ->
  (length src <= length (b_area out))%nat ->
  contents (set_data (set_area out (memcpy (b_area out) 0 src n)) n) = src.
Proof.
  intros -> Hfit. unfold contents. cbn [b_data b_area set_data set_area].
  rewrite memcpy_whole_at by (simpl; lia).
  simpl. rewrite Nat2Z.id. now rewrite take_app_length.
Qed.

(** ** ssl_sock_get_serial *)

(** C1. With a serial field of [L] bytes and a buffer of capacity [C],
    ssl_sock_get_serial returns 1, sets [data] to [L] and leaves the
    serial's bytes as the contents exactly when [L <= C], and returns -1
    exactly when [C < L]; without a serial field it returns 0. *)
Theorem ssl_sock_get_serial_contract (crt : X509) (out : buffer) :
  buffer_wf out ->
  (X509_get_serialNumber crt = None -> fst (ssl_sock_get_serial crt out) = 0) /\
  (forall serial, X509_get_serialNumber crt = Some serial -> asn1_wf serial ->
     let L := asn1_length serial in
     let C := b_size out in
     let r := ssl_sock_get_serial crt out in
     ((fst r = 1 /\ b_data (snd r) = L /\ contents (snd r) = asn1_data serial) <-> L <= C)
     /\ (fst r = -1 <-> C < L)).
Proof.
  intros (Hsize & Hdata & Harea). split.
  - intros Hnone. unfold ssl_sock_get_serial. now rewrite Hnone.
  - intros serial Hsome (Hlen & Hmax) L C r. subst r L C.
    unfold ssl_sock_get_serial. rewrite Hsome.
    assert (HL : 0 <= asn1_length serial <= INT_MAX) by lia.
    rewrite (to_size_t_int _ HL).
    destruct (Z.ltb_spec (b_size out) (asn1_length serial)) as [Hlt | Hge]; cbn [fst snd].
    + split; split; try lia; intros; lia.
    + split; split; try lia; try discriminate. intros _.
      split; [reflexivity | split; [reflexivity |]].
      apply memcpy_contents; lia.
Qed.

Lemma ssl_sock_get_serial_contract_witness :
  let r := ssl_sock_get_serial crt_serial_3 out_4 in
  ((fst r = 1 /\ b_data (snd r) = 3 /\ contents (snd r) = [0x01; 0xe2; 0x40]) <-> 3 <= 4)
  /\ (fst r = -1 <-> 4 < 3).
Proof.
  assert (Hwf : buffer_wf out_4) by (unfold buffer_wf; simpl; lia).
  refine (proj2 (ssl_sock_get_serial_contract crt_serial_3 out_4 Hwf) _ eq_refl _).
  unfold asn1_wf, INT_MAX; simpl; lia.
Defined.

(** ** ssl_sock_crt2der *)

(** C3, at a certificate the encoder rejects.  When [i2d_X509] reports a
    length that is not positive, ssl_sock_crt2der returns 1 and leaves the
    buffer as it was; the comment above the function announces 0 on a DER
    conversion failure. *)
Theorem ssl_sock_crt2der_encoding_failure (out : buffer) :
  i2d_X509_len (MkX509 None None) <= 0 /\
  ssl_sock_crt2der (MkX509 None None) out = (1, out).
Proof. split; [unfold i2d_X509_len; simpl; lia | reflexivity]. Qed.

(** The two other outcomes are the announced ones: -1 when the capacity is
    below the computed length, 1 with [data] set to that length and the
    encoding as contents otherwise. *)
Lemma ssl_sock_crt2der_encoded (crt : X509) (der : list Z) (out : buffer) :
  buffer_wf out ->
  x509_der crt = Some der -> der <> [] -> Z.of_nat (length der) <= INT_MAX ->
  let r := ssl_sock_crt2der crt out in
  let len := Z.of_nat (length der) in
  (b_size out < len -> r = (-1, out)) /\
  (len <= b_size out -> fst r = 1 /\ b_data (snd r) = len /\ contents (snd r) = der).
Proof.
  intros (Hsize & Hdata & Harea) Hder Hne Hmax r len. subst r len.
  unfold ssl_sock_crt2der, i2d_X509_len, i2d_X509_bytes. rewrite Hder.
  assert (Hpos : 0 < Z.of_nat (length der)) by (destruct der; [congruence | simpl; lia]).
  destruct (Z.leb_spec (Z.of_nat (length der)) 0) as [? | _]; [lia |].
  rewrite to_size_t_int by lia.
  destruct (Z.ltb_spec (b_size out) (Z.of_nat (length der))); split; intros; try lia.
  - reflexivity.
  - cbn [fst snd]. split; [reflexivity | split; [reflexivity |]].
    apply memcpy_contents; lia.
Qed.

(** ** ssl_sock_get_time *)

Ltac close_case := first [reflexivity | tauto | lia | congruence].

(** C5. A generalized time is accepted exactly when its length is at
    least 12 and it starts with "20"; the output is then the payload
    without these two bytes and [data] is the length minus 2.  A UTC time
    is accepted exactly when its length is at least 10 and its first byte
    is below '5'; the payload is then copied as it is.  An accepted value
    that does not fit yields -1, and everything else yields 0. *)
Theorem ssl_sock_get_time_spec (tm : ASN1_STRING) (out : buffer) :
  asn1_wf tm -> buffer_wf out ->
  let r := ssl_sock_get_time tm out in
  let len := asn1_length tm in
  (generalized_accepted tm ->
     (len - 2 <= b_size out ->
        fst r = 1 /\ b_data (snd r) = len - 2 /\ contents (snd r) = drop 2 (asn1_data tm)) /\
     (b_size out < len - 2 -> fst r = -1)) /\
  (utc_accepted tm ->
     (len <= b_size out ->
        fst r = 1 /\ b_data (snd r) = len /\ contents (snd r) = asn1_data tm) /\
     (b_size out < len -> fst r = -1)) /\
  (~ generalized_accepted tm -> ~ utc_accepted tm -> fst r = 0).
Proof.
  intros (Hlen & Hmax) (Hsize & Hdata & Harea) r len. subst r len.
  unfold generalized_accepted, utc_accepted, ssl_sock_get_time.
  unfold V_ASN1_GENERALIZEDTIME, V_ASN1_UTCTIME.
  destruct (Z.eqb_spec (asn1_type tm) 24) as [Hgen | Hngen].
  - (* generalized time *)
    destruct (Z.ltb_spec (asn1_length tm) 12) as [Hshort | Hlong].
    { cbn [fst snd]. repeat split; intros; close_case. }
    destruct (Z.eqb_spec (byte_at (asn1_data tm) 0) 0x32) as [H0 | H0];
      [| cbn [negb orb fst snd]; repeat split; intros; close_case].
    destruct (Z.eqb_spec (byte_at (asn1_data tm) 1) 0x30) as [H1 | H1];
      [| cbn [negb orb fst snd]; repeat split; intros; close_case].
    cbn [negb orb].
    rewrite to_size_t_int by lia.
    assert (Hdrop : Z.of_nat (length (drop 2 (asn1_data tm))) = asn1_length tm - 2)
      by (rewrite length_drop; lia).
    destruct (Z.ltb_spec (b_size out) (asn1_length tm - 2)) as [Hlt | Hge]; cbn [fst snd].
    { repeat split; intros; close_case. }
    repeat split; intros; try close_case.
    apply memcpy_contents; lia.
  - destruct (Z.eqb_spec (asn1_type tm) 23) as [Hutc | Hnutc].
    + (* UTC time *)
      destruct (Z.ltb_spec (asn1_length tm) 10) as [Hshort | Hlong].
      { cbn [fst snd]. repeat split; intros; close_case. }
      destruct (Z.leb_spec 0x35 (byte_at (asn1_data tm) 0)) as [H0 | H0].
      { cbn [fst snd]. repeat split; intros; close_case. }
      rewrite to_size_t_int by lia.
      destruct (Z.ltb_spec (b_size out) (asn1_length tm)) as [Hlt | Hge]; cbn [fst snd].
      { repeat split; intros; close_case. }
      repeat split; intros; try close_case.
      apply memcpy_contents; lia.
    + cbn [fst snd]. repeat split; intros; close_case.
Qed.

Lemma ssl_sock_get_time_spec_witness :
  fst (ssl_sock_get_time not_after_utc out_16) = 1 /\
  b_data (snd (ssl_sock_get_time not_after_utc out_16)) = 13 /\
  contents (snd (ssl_sock_get_time not_after_utc out_16)) = bytes_of_string "301231235959Z".
Proof.
  assert (Hwf : asn1_wf not_after_utc) by (unfold asn1_wf, INT_MAX; simpl; lia).
  assert (Hout : buffer_wf out_16) by (unfold buffer_wf; simpl; lia).
  assert (Hacc : utc_accepted not_after_utc)
    by (unfold utc_accepted; repeat split; simpl; try reflexivity; lia).
  refine (proj1 (proj1 (proj2 (ssl_sock_get_time_spec not_after_utc out_16 Hwf Hout)) Hacc) _).
  simpl; lia.
Defined.

(** ** ssl_sock_get_verified_chain_root *)

Section VerifiedChainProperties.

Variable X509_check_issued : X509 -> X509 -> Z.

Lemma sk_X509_value_middle (pre rest : list X509) (c : X509) :
  sk_X509_value (pre ++ c :: rest) (Z.of_nat (length pre)) = Some c.
Proof.
  unfold sk_X509_value.
  destruct (Z.ltb_spec (Z.of_nat (length pre)) 0); [lia |].
  rewrite Nat2Z.id. now rewrite list_lookup_middle.
Qed.

(** Without a self-issued entry the loop runs to the end of the chain and
    leaves the last certificate it looked at in [crt]. *)
Lemma chain_root_loop_no_self_issued (rest pre : list X509) (crt : option X509) :
  (forall c, c ∈ rest -> X509_check_issued c c <> X509_V_OK) ->
  chain_root_loop X509_check_issued (length rest) (pre ++ rest)
                  (Z.of_nat (length pre)) crt
  = match last rest with Some c => Some c | None => crt end.
Proof.
  revert pre crt. induction rest as [| c rest IH]; intros pre crt Hno; [reflexivity |].
  cbn [length chain_root_loop]. rewrite sk_X509_value_middle.
  destruct (Z.eqb_spec (X509_check_issued c c) X509_V_OK) as [Hok | _].
  { exfalso. apply (Hno c); [left | exact Hok]. }
  replace (pre ++ c :: rest) with ((pre ++ [c]) ++ rest) by now rewrite <- app_assoc.
  replace (Z.of_nat (length pre) + 1) with (Z.of_nat (length (pre ++ [c])))
    by (rewrite length_app; simpl; lia).
  rewrite IH by (intros c' Hc'; apply Hno; now right).
  destruct rest as [| c' rest']; [reflexivity |].
  rewrite last_cons_cons. destruct (last (c' :: rest')) eqn:Hl; [reflexivity |].
  apply last_None in Hl. discriminate.
Qed.

(** Whatever the issuer check answers, the loop leaves a certificate in
    [crt] as soon as it runs once. *)
Lemma chain_root_loop_is_Some (rest pre : list X509) (crt : option X509) :
  rest <> [] \/ is_Some crt ->
  is_Some (chain_root_loop X509_check_issued (length rest) (pre ++ rest)
                           (Z.of_nat (length pre)) crt).
Proof.
  revert pre crt. induction rest as [| c rest IH]; intros pre crt H.
  - destruct H as [H | H]; [congruence | exact H].
  - cbn [length chain_root_loop]. rewrite sk_X509_value_middle.
    destruct (X509_check_issued c c =? X509_V_OK); [eauto |].
    replace (pre ++ c :: rest) with ((pre ++ [c]) ++ rest) by now rewrite <- app_assoc.
    replace (Z.of_nat (length pre) + 1) with (Z.of_nat (length (pre ++ [c])))
      by (rewrite length_app; simpl; lia).
    apply IH. right. eauto.
Qed.

(** C10. On a verified chain that is not empty and has no self-issued
    entry the function returns the last certificate of the chain; it
    returns NULL only when the chain is unavailable or empty. *)
Theorem ssl_sock_get_verified_chain_root_last (ssl : SSL) :
  (forall chain,
      SSL_get0_verified_chain ssl = Some chain -> chain <> [] ->
      (forall c, c ∈ chain -> X509_check_issued c c <> X509_V_OK) ->
      ssl_sock_get_verified_chain_root X509_check_issued ssl = last chain
      /\ is_Some (last chain)) /\
  (ssl_sock_get_verified_chain_root X509_check_issued ssl = None <->
   SSL_get0_verified_chain ssl = None \/ SSL_get0_verified_chain ssl = Some []).
Proof.
  unfold ssl_sock_get_verified_chain_root, sk_X509_num. split.
  - intros chain Hchain Hne Hno. rewrite Hchain, Nat2Z.id.
    pose proof (chain_root_loop_no_self_issued chain [] None Hno) as Hloop.
    change (chain_root_loop X509_check_issued (length chain) chain 0 None
              = match last chain with Some c => Some c | None => None end) in Hloop.
    rewrite Hloop.
    assert (Hl : is_Some (last chain)) by now apply last_is_Some.
    split; [| exact Hl]. destruct Hl as [c ->]. reflexivity.
  - destruct (SSL_get0_verified_chain ssl) as [chain |]; [| tauto].
    rewrite Nat2Z.id. split.
    + intros Hnone. right. destruct chain as [| c chain]; [reflexivity |].
      assert (Hcons : c :: chain <> [] \/ is_Some (@None X509)) by (left; discriminate).
      pose proof (chain_root_loop_is_Some (c :: chain) [] None Hcons) as Hs.
      change (is_Some (chain_root_loop X509_check_issued (length (c :: chain))
                                     (c :: chain) 0 None)) in Hs.
      rewrite Hnone in Hs.
      destruct Hs as [x Hx]. discriminate.
    + intros [H | H]; [discriminate |]. injection H as ->. reflexivity.
Qed.

End VerifiedChainProperties.

Lemma ssl_sock_get_verified_chain_root_last_witness :
  ssl_sock_get_verified_chain_root check_issued_never
    (MkSSL (Some [crt_leaf; crt_intermediate])) = Some crt_intermediate.
Proof.
  refine (proj1 (proj1 (ssl_sock_get_verified_chain_root_last check_issued_never
            (MkSSL (Some [crt_leaf; crt_intermediate])))
            [crt_leaf; crt_intermediate] eq_refl _ _)).
  - discriminate.
  - intros c _. unfold check_issued_never, X509_V_OK. lia.
Defined.

(** ** ssl_sock_get_dn_entry *)

Section DistinguishedNameProperties.

Variable OBJ_nid2sn : Z -> option (list Z).
Variable chunk_strcasecmp : buffer -> list Z -> Z.

Local Abbreviation entry_loop := (dn_entry_loop OBJ_nid2sn chunk_strcasecmp).
Local Abbreviation scan := (dn_scan OBJ_nid2sn chunk_strcasecmp).
Local Abbreviation matches := (dn_matches OBJ_nid2sn chunk_strcasecmp).
Local Abbreviation matching := (entry_matches OBJ_nid2sn chunk_strcasecmp).

(** With a negative [pos] the loop visits the entries from the last to
    the first. *)
Lemma dn_entry_loop_reverse (a : X509_NAME) entry pos out :
  pos < 0 ->
  forall (todo i : nat) (cur : Z),
    (i + todo = length a)%nat ->
    entry_loop todo a entry pos (Z.of_nat (length a)) (Z.of_nat i) cur out
    = scan (drop i (reverse a)) entry pos cur out.
Proof.
  intros Hpos todo. induction todo as [| todo IH]; intros i cur Hi.
  - rewrite drop_ge by (rewrite length_reverse; lia). reflexivity.
  - cbn [dn_entry_loop].
    assert (Hltb : (pos <? 0) = true) by (apply Z.ltb_lt; lia).
    rewrite Hltb.
    assert (Hlook : reverse a !! i = a !! (length a - S i)%nat)
      by (apply reverse_lookup; lia).
    destruct (lookup_lt_is_Some_2 (reverse a) i) as [ne Hne];
      [rewrite length_reverse; lia |].
    rewrite (drop_S _ _ _ Hne).
    unfold X509_NAME_get_entry.
    destruct (Z.ltb_spec (Z.of_nat (length a) - 1 - Z.of_nat i) 0); [lia |].
    replace (Z.to_nat (Z.of_nat (length a) - 1 - Z.of_nat i)) with (length a - S i)%nat by lia.
    rewrite <- Hlook, Hne. cbn [dn_scan]. rewrite Hltb.
    replace (Z.of_nat i + 1) with (Z.of_nat (S i)) by lia.
    rewrite !IH by lia. unfold dn_entry_copy. reflexivity.
Qed.

(** Counting down from [cur], the scan stops at the match that brings the
    counter to [pos]. *)
Lemma dn_scan_select (l : list X509_NAME_ENTRY) entry pos out :
  pos < 0 ->
  forall cur, pos < cur ->
    scan l entry pos cur out
    = match filter (matching entry) l !! Z.to_nat (cur - pos - 1) with
      | None => (0, out)
      | Some ne => dn_entry_copy ne out
      end.
Proof.
  intros Hpos. induction l as [| ne l IH]; intros cur Hcur; [reflexivity |].
  cbn [dn_scan].
  destruct (Z.ltb_spec pos 0) as [_ | ?]; [| lia].
  destruct (Z.eqb_spec (chunk_strcasecmp entry (entry_name OBJ_nid2sn (ne_object ne))) 0)
    as [Hm | Hm]; cbn [negb].
  - rewrite filter_cons_True by exact Hm.
    destruct (Z.eqb_spec (cur - 1) pos) as [Heq | Hneq]; cbn [negb].
    + replace (Z.to_nat (cur - pos - 1)) with 0%nat by lia. reflexivity.
    + rewrite IH by lia.
      replace (Z.to_nat (cur - pos - 1)) with (S (Z.to_nat (cur - 1 - pos - 1))) by lia.
      reflexivity.
  - rewrite filter_cons_False by exact Hm. now apply IH.
Qed.

Lemma dn_entry_copy_spec (ne : X509_NAME_ENTRY) (out : buffer) :
  buffer_wf out -> asn1_wf (ne_value ne) ->
  let len := asn1_length (ne_value ne) in
  let r := dn_entry_copy ne out in
  (b_size out < len -> r = (-1, out)) /\
  (len <= b_size out ->
     fst r = 1 /\ b_data (snd r) = len /\ contents (snd r) = asn1_data (ne_value ne)).
Proof.
  intros (Hsize & Hdata & Harea) (Hlen & Hmax) len r. subst len r.
  unfold dn_entry_copy. rewrite to_size_t_int by lia.
  destruct (Z.ltb_spec (b_size out) (asn1_length (ne_value ne))); split; intros; try lia.
  - reflexivity.
  - cbn [fst snd]. split; [reflexivity | split; [reflexivity |]].
    apply memcpy_contents; lia.
Qed.

(** C8. For a negative [pos], ssl_sock_get_dn_entry selects the
    [|pos|]-th matching attribute counted from the end of the name
    ([pos = -1] is the last match); it returns 0 when there is no such
    match, -1 when the value of the match is longer than the capacity of
    the buffer, and 1 with the value as contents otherwise. *)
Theorem ssl_sock_get_dn_entry_negative (a : X509_NAME) (entry : buffer) (pos : Z)
    (out : buffer) :
  pos < 0 -> buffer_wf out ->
  (forall ne, ne ∈ a -> asn1_wf (ne_value ne)) ->
  let r := ssl_sock_get_dn_entry OBJ_nid2sn chunk_strcasecmp a entry pos out in
  match reverse (matches entry a) !! Z.to_nat (- pos - 1) with
  | None => r = (0, set_data out 0)
  | Some ne =>
      let len := asn1_length (ne_value ne) in
      (b_size out < len -> r = (-1, set_data out 0)) /\
      (len <= b_size out ->
         fst r = 1 /\ b_data (snd r) = len /\ contents (snd r) = asn1_data (ne_value ne))
  end.
Proof.
  intros Hpos Hwf Hvals r.
  assert (Hr : r = match reverse (matches entry a) !! Z.to_nat (- pos - 1) with
                   | None => (0, set_data out 0)
                   | Some ne => dn_entry_copy ne (set_data out 0)
                   end).
  { subst r. unfold ssl_sock_get_dn_entry, X509_NAME_entry_count. rewrite Nat2Z.id.
    pose proof (dn_entry_loop_reverse a entry pos (set_data out 0) Hpos
                  (length a) 0%nat 0 eq_refl) as Hloop.
    change (Z.of_nat 0) with 0 in Hloop. rewrite Hloop.
    rewrite drop_0, dn_scan_select by lia.
    unfold dn_matches. rewrite filter_reverse.
    replace (0 - pos - 1) with (- pos - 1) by lia. reflexivity. }
  rewrite Hr. clear Hr r.
  destruct (reverse (matches entry a) !! Z.to_nat (- pos - 1))
    as [ne |] eqn:Hsel; [| reflexivity].
  refine (dn_entry_copy_spec ne (set_data out 0) _ _).
  - destruct Hwf as (? & ? & ?). unfold buffer_wf. cbn. lia.
  - apply Hvals. apply list_elem_of_lookup_2 in Hsel.
    rewrite elem_of_reverse in Hsel. unfold dn_matches in Hsel.
    apply list_elem_of_filter in Hsel. tauto.
Qed.

End DistinguishedNameProperties.

Lemma ssl_sock_get_dn_entry_negative_witness :
  let r := ssl_sock_get_dn_entry sample_nid2sn chunk_strcasecmp_model
             sample_name (chunk_of_string "cn") (-1) out_16 in
  fst r = 1 /\ b_data (snd r) = 9 /\ contents (snd r) = bytes_of_string "b.example".
Proof.
  assert (Hwf : buffer_wf out_16) by (unfold buffer_wf; simpl; lia).
  assert (Hvals : forall ne, ne ∈ sample_name -> asn1_wf (ne_value ne)).
  { intros ne Hne. unfold sample_name in Hne.
    repeat (apply elem_of_cons in Hne; destruct Hne as [-> | Hne];
            [unfold asn1_wf, INT_MAX; simpl; lia |]).
    now apply elem_of_nil in Hne. }
  assert (Hneg : -1 < 0) by lia.
  pose proof (ssl_sock_get_dn_entry_negative sample_nid2sn chunk_strcasecmp_model
                sample_name (chunk_of_string "cn") (-1) out_16 Hneg Hwf Hvals) as H.
  apply (proj2 H). simpl. lia.
Defined.

(** ** exclude_tls_grease *)

Lemma char_val_inj (a b : Z) :
  0 <= a < 256 -> 0 <= b < 256 -> char_val a = char_val b -> a = b.
Proof.
  unfold char_val. intros Ha Hb.
  destruct (Z.ltb_spec a 128), (Z.ltb_spec b 128); lia.
Qed.

(** The low nibble of a [char] does not depend on its sign. *)
Lemma char_val_low_nibble (b : Z) : Z.land (char_val b) 0x0f = Z.land b 0x0f.
Proof.
  change 0x0f with (Z.ones 4). rewrite !Z.land_ones by lia.
  unfold char_val. destruct (b <? 128); [reflexivity |].
  change 256 with (16 * 2 ^ 4). rewrite Zminus_mod, Z_mod_mult, Z.sub_0_r.
  now rewrite Z.mod_mod by lia.
Qed.

(** The test of the loop body is the negation of the GREASE pattern. *)
Lemma grease_test (a b : Z) :
  0 <= a < 256 -> 0 <= b < 256 ->
  negb (char_val a =? char_val b) || negb (Z.land (char_val a) 0x0f =? 0x0a)
  = negb (is_grease_pair a b).
Proof.
  intros Ha Hb. unfold is_grease_pair. rewrite char_val_low_nibble, negb_andb.
  f_equal. f_equal.
  destruct (Z.eqb_spec a b) as [-> | Hne]; [apply Z.eqb_refl |].
  apply Z.eqb_neq. intros H. apply Hne. now apply char_val_inj.
Qed.

(** The iteration bound does not matter once it covers the input left. *)
Lemma grease_loop_fuel (input : list Z) (len : Z) (fuel fuel' : nat) :
  forall ptr out,
    len - ptr <= Z.of_nat fuel -> len - ptr <= Z.of_nat fuel' ->
    grease_loop fuel input len ptr out = grease_loop fuel' input len ptr out.
Proof.
  revert fuel'. induction fuel as [| fuel IH]; intros fuel' ptr out H H'.
  - destruct fuel' as [| fuel']; [reflexivity |]. cbn [grease_loop].
    destruct (Z.ltb_spec ptr (len - 1)); [lia | reflexivity].
  - destruct fuel' as [| fuel']; cbn [grease_loop];
      destruct (Z.ltb_spec ptr (len - 1)); try lia; try reflexivity.
    rewrite !(IH fuel') by lia. reflexivity.
Qed.

Lemma drop_two (input : list Z) (ptr : Z) :
  0 <= ptr < Z.of_nat (length input) - 1 ->
  drop (Z.to_nat ptr) input
  = byte_at input ptr :: byte_at input (ptr + 1) :: drop (Z.to_nat (ptr + 2)) input.
Proof.
  intros Hptr. unfold byte_at.
  destruct (lookup_lt_is_Some_2 input (Z.to_nat ptr)) as [a Ha]; [lia |].
  destruct (lookup_lt_is_Some_2 input (S (Z.to_nat ptr))) as [b Hb]; [lia |].
  rewrite (drop_S _ _ _ Ha), (drop_S _ _ _ Hb).
  rewrite (nth_lookup_Some _ _ _ _ Ha).
  replace (Z.to_nat (ptr + 1)) with (S (Z.to_nat ptr)) by lia.
  rewrite (nth_lookup_Some _ _ _ _ Hb).
  now replace (Z.to_nat (ptr + 2)) with (S (S (Z.to_nat ptr))) by lia.
Qed.

Lemma bytes_byte_at (input : list Z) (i : Z) :
  bytes input -> 0 <= byte_at input i < 256.
Proof.
  intros Hb. unfold byte_at.
  destruct (nth_lookup_or_length input (Z.to_nat i) 0) as [Hl | Hl].
  - unfold bytes in Hb. rewrite Forall_forall in Hb. apply Hb.
    eapply list_elem_of_lookup_2. exact Hl.
  - rewrite nth_overflow by lia. lia.
Qed.

(** Appending [k] at offset [data] of an area with room for it. *)
Lemma contents_append (out : buffer) (k : list Z) :
  buffer_wf out ->
  b_data out + Z.of_nat (length k) <= b_size out ->
  take (Z.to_nat (b_data out + Z.of_nat (length k)))
       (list_inserts (Z.to_nat (b_data out)) k (b_area out))
  = contents out ++ k.
Proof.
  intros (Hsize & Hdata & Harea) Hfit. unfold contents.
  rewrite list_inserts_fits by lia.
  replace (Z.to_nat (b_data out + Z.of_nat (length k)))
    with (length (take (Z.to_nat (b_data out)) (b_area out) ++ k))
    by (rewrite length_app, length_take; lia).
  rewrite app_assoc. apply take_app_length.
Qed.

(** What one run of the loop achieves on a buffer with room for the input
    that is left. *)
Lemma grease_loop_spec (input : list Z) :
  bytes input ->
  forall (fuel : nat) (ptr : Z) (out : buffer),
    let len := Z.of_nat (length input) in
    0 <= ptr <= len -> len - ptr <= Z.of_nat fuel ->
    buffer_wf out -> b_data out + (len - ptr) <= b_size out ->
    let r := grease_loop fuel input len ptr out in
    exists kept,
      grease_spec (drop (Z.to_nat ptr) input) = kept ++ drop (Z.to_nat (fst r)) input /\
      len - 1 <= fst r <= len /\ 0 <= fst r /\
      buffer_wf (snd r) /\
      b_size (snd r) = b_size out /\
      b_data (snd r) = b_data out + Z.of_nat (length kept) /\
      b_data (snd r) + (len - fst r) <= b_size out /\
      contents (snd r) = contents out ++ kept.
Proof.
  intros Hbytes fuel.
  induction fuel as [| fuel IH]; intros ptr out len Hptr Hfuel Hwf Hroom r;
    pose proof Hwf as (Hsize & Hdata & Harea); subst len.
  - subst r. cbn [grease_loop fst snd]. exists [].
    rewrite drop_ge by lia. rewrite app_nil_r. cbn [length Z.of_nat app grease_spec].
    repeat split; try lia. now rewrite app_nil_r.
  - destruct (Z.ltb_spec ptr (Z.of_nat (length input) - 1)) as [Hlt | Hge].
    + assert (Hdrop := drop_two input ptr ltac:(lia)).
      assert (Htest := grease_test (byte_at input ptr) (byte_at input (ptr + 1))
                         (bytes_byte_at input ptr Hbytes)
                         (bytes_byte_at input (ptr + 1) Hbytes)).
      apply Z.ltb_lt in Hlt.
      destruct (is_grease_pair (byte_at input ptr) (byte_at input (ptr + 1))) eqn:Hg;
        cbn [negb] in Htest.
      * (* a GREASE pair: skipped *)
        assert (Hr : r = grease_loop fuel input (Z.of_nat (length input)) (ptr + 2) out)
          by (subst r; cbn [grease_loop]; rewrite Hlt, Htest; reflexivity).
        rewrite Hr. clear Hr r.
        destruct (IH (ptr + 2) out) as (kept & Hk & H); try lia; try easy.
        exists kept. rewrite Hdrop. cbn [grease_spec]. rewrite Hg.
        split; [exact Hk |]. intuition lia.
      * (* any other pair: copied *)
        set (pair := [byte_at input ptr; byte_at input (ptr + 1)]).
        set (out1 := set_data (set_area out
                       (list_inserts (Z.to_nat (b_data out)) pair (b_area out)))
                       (b_data out + 2)).
        assert (Hr : r = grease_loop fuel input (Z.of_nat (length input)) (ptr + 2) out1).
        { subst r. cbn [grease_loop]. rewrite Hlt, Htest.
          rewrite (to_size_t_small (b_size out - 2)) by lia.
          destruct (Z.leb_spec (b_data out) (b_size out - 2)) as [_ | ?]; [| lia].
          rewrite to_size_t_small by lia.
          unfold memcpy. rewrite Hdrop. reflexivity. }
        rewrite Hr. clear Hr r.
        assert (Hwf1 : buffer_wf out1)
          by (unfold buffer_wf, out1; cbn [b_size b_data b_area set_data set_area];
              rewrite length_inserts; lia).
        destruct (IH (ptr + 2) out1) as (kept & Hk & H); try lia; try easy.
        { unfold out1. cbn. lia. }
        exists (pair ++ kept). rewrite Hdrop. cbn [grease_spec]. rewrite Hg.
        destruct H as (H1 & H2 & H3 & H4 & H5 & H6 & H7).
        split; [subst pair; cbn [app]; now rewrite Hk |].
        split; [exact H1 |]. split; [exact H2 |]. split; [exact H3 |].
        split; [rewrite H4; reflexivity |].
        split; [rewrite H5, length_app; unfold out1, pair; cbn; lia |].
        split; [rewrite H6; cbn; lia |].
        rewrite H7, app_assoc. f_equal.
        unfold contents at 1, out1. cbn [b_data b_area set_data set_area].
        apply (contents_append out pair); [exact Hwf | cbn; lia].
    + assert (Hr : r = (ptr, out)).
      { subst r. cbn [grease_loop].
        destruct (Z.ltb_spec ptr (Z.of_nat (length input) - 1)); [lia | reflexivity]. }
      rewrite Hr. clear Hr r. cbn [fst snd]. exists []. cbn [app length Z.of_nat].
      split.
      { destruct (drop (Z.to_nat ptr) input) as [| c [| c' t]] eqn:Hd; try reflexivity.
        assert (Hl : length (drop (Z.to_nat ptr) input) = length (c :: c' :: t)) by now rewrite Hd.
        rewrite length_drop in Hl. cbn in Hl. lia. }
      repeat split; try lia. now rewrite app_nil_r.
Qed.

(** C7. On a buffer with room for the input, exclude_tls_grease appends to
    the contents the input without its GREASE pairs: the pairs whose bytes
    are equal and whose first byte has low nibble 0xA are dropped, the
    other pairs are copied in order, and an unpaired last byte is copied.
    In particular [0x0A,0x0A,0x00,0x01] gives [0x00,0x01] and [0x1A,0x1B]
    is kept. *)
Theorem exclude_tls_grease_spec :
  (forall (input : list Z) (out : buffer),
      bytes input -> buffer_wf out ->
      Z.of_nat (length input) <= INT_MAX ->
      b_data out + Z.of_nat (length input) <= b_size out ->
      let out' := exclude_tls_grease input (Z.of_nat (length input)) out in
      contents out' = contents out ++ grease_spec input /\
      b_data out' = b_data out + Z.of_nat (length (grease_spec input)) /\
      b_size out' = b_size out) /\
  contents (exclude_tls_grease [0x0a; 0x0a; 0x00; 0x01] 4 out_16) = [0x00; 0x01] /\
  contents (exclude_tls_grease [0x1a; 0x1b] 2 out_16) = [0x1a; 0x1b].
Proof.
  split; [| split; reflexivity].
  intros input out Hbytes Hwf Hmax Hroom out'.
  pose proof (grease_loop_spec input Hbytes (Z.to_nat (Z.of_nat (length input))) 0 out
                ltac:(lia) ltac:(lia) Hwf ltac:(lia)) as (kept & Hk & Hspec).
  cbn zeta in Hspec. subst out'. unfold exclude_tls_grease.
  destruct (grease_loop _ input _ 0 out) as [ptr out1].
  cbn [fst snd] in Hk, Hspec. rewrite drop_0 in Hk.
  destruct Hspec as (Hptr & Hptr0 & Hwf1 & Hsz & Hdt & Hrm & Hct).
  pose proof Hwf as (Hsize & Hdata & Harea).
  pose proof Hwf1 as (Hsize1 & Hdata1 & Harea1).
  destruct (Z.eq_dec ptr (Z.of_nat (length input))) as [Hend | Hodd].
  - (* even length: nothing is left *)
    rewrite drop_ge in Hk by lia. rewrite app_nil_r in Hk. subst kept.
    destruct (Z.ltb_spec 0 (Z.of_nat (length input) - ptr)) as [? | _]; [lia |].
    rewrite andb_false_r. auto.
  - (* odd length: one byte is left *)
    assert (Hlast : drop (Z.to_nat ptr) input = [byte_at input ptr]).
    { unfold byte_at.
      destruct (lookup_lt_is_Some_2 input (Z.to_nat ptr)) as [c Hc]; [lia |].
      rewrite (drop_S _ _ _ Hc), (nth_lookup_Some _ _ _ _ Hc).
      now rewrite drop_ge by lia. }
    rewrite Hlast in Hk.
    rewrite to_size_t_small by lia.
    destruct (Z.ltb_spec 0 (b_size out1 - b_data out1)) as [_ | ?]; [| lia].
    destruct (Z.ltb_spec 0 (Z.of_nat (length input) - ptr)) as [_ | ?]; [| lia].
    cbn [andb]. rewrite to_size_t_small by lia.
    rewrite Hk, length_app. cbn [length b_data b_size set_data set_area].
    split; [| split; [lia | exact Hsz]].
    unfold contents. cbn [b_data b_area set_data set_area].
    pose proof (contents_append out1 [byte_at input ptr] Hwf1 ltac:(cbn; lia)) as Happ.
    cbn [length list_inserts] in Happ. unfold store.
    change (Z.of_nat 1) with 1 in Happ.
    rewrite Happ, Hct. now rewrite <- app_assoc.
Qed.

Lemma exclude_tls_grease_spec_witness :
  let out' := exclude_tls_grease [0x13; 0x01; 0xfa; 0xfa; 0x13; 0x02; 0xff] 7 out_16 in
  contents out' = [0x13; 0x01; 0x13; 0x02; 0xff] /\ b_data out' = 5 /\ b_size out' = 16.
Proof.
  assert (Hb : bytes [0x13; 0x01; 0xfa; 0xfa; 0x13; 0x02; 0xff])
    by (repeat constructor; lia).
  assert (Hwf : buffer_wf out_16) by (unfold buffer_wf; simpl; lia).
  refine (proj1 exclude_tls_grease_spec _ out_16 Hb Hwf _ _).
  - unfold INT_MAX; simpl; lia.
  - simpl; lia.
Defined.

(** ** The bound [data <= size] *)

(** The loop of exclude_tls_grease keeps [data <= size] when the buffer can
    hold a pair. *)
Lemma grease_loop_inv (input : list Z) (len : Z) (fuel : nat) :
  forall ptr out,
    buffer_wf out -> 2 <= b_size out -> buffer_inv out ->
    buffer_wf (snd (grease_loop fuel input len ptr out)) /\
    b_size (snd (grease_loop fuel input len ptr out)) = b_size out /\
    buffer_inv (snd (grease_loop fuel input len ptr out)).
Proof.
  induction fuel as [| fuel IH]; intros ptr out Hwf H2 Hinv; [easy |].
  cbn [grease_loop].
  destruct (ptr <? len - 1); [| easy].
  destruct (_ || _); [| now apply IH].
  pose proof Hwf as (Hsize & Hdata & Harea). unfold buffer_inv in Hinv.
  rewrite (to_size_t_small (b_size out - 2)) by lia.
  destruct (Z.leb_spec (b_data out) (b_size out - 2)); [| easy].
  rewrite to_size_t_small by lia.
  match goal with |- context [grease_loop fuel _ _ _ ?o] => destruct (IH (ptr + 2) o) as (A & B & C) end.
  - unfold buffer_wf. cbn [b_size b_data b_area set_data set_area].
    rewrite memcpy_length. lia.
  - exact H2.
  - unfold buffer_inv. cbn. lia.
  - split; [exact A | split; [rewrite B; reflexivity | exact C]].
Qed.

Lemma exclude_tls_grease_inv (input : list Z) (len : Z) (out : buffer) :
  buffer_wf out -> 2 <= b_size out -> buffer_inv out ->
  buffer_inv (exclude_tls_grease input len out).
Proof.
  intros Hwf H2 Hinv. unfold exclude_tls_grease.
  destruct (grease_loop_inv input len (Z.to_nat len) 0 out Hwf H2 Hinv) as (Hwf1 & Hsz & Hinv1).
  destruct (grease_loop _ input len 0 out) as [ptr out1]. cbn [snd] in *.
  destruct Hwf1 as (Hsize & Hdata & Harea). unfold buffer_inv in *.
  rewrite to_size_t_small by lia.
  destruct (Z.ltb_spec 0 (b_size out1 - b_data out1)); [| easy].
  destruct (0 <? len - ptr); [| easy].
  cbn. rewrite to_size_t_small by lia. lia.
Qed.

(** C2, at buffers of capacity 0 and 1.  The bound [data <= size - 2] of
    the loop is computed in [size_t]: with [size < 2] the subtraction wraps
    around, the pair is copied and [data] becomes 2. *)
Theorem exclude_tls_grease_small_buffer :
  (buffer_wf out_0 /\ buffer_inv out_0 /\
   b_data (exclude_tls_grease [0x00; 0x01] 2 out_0) = 2 /\
   ~ buffer_inv (exclude_tls_grease [0x00; 0x01] 2 out_0)) /\
  (buffer_wf out_1 /\ buffer_inv out_1 /\
   b_data (exclude_tls_grease [0x00; 0x01] 2 out_1) = 2 /\
   ~ buffer_inv (exclude_tls_grease [0x00; 0x01] 2 out_1)).
Proof.
  unfold buffer_wf, buffer_inv.
  split; (split; [cbn; lia | split; [cbn; lia | split; [reflexivity |]]]).
  - intros H. vm_compute in H. now apply H.
  - intros H. vm_compute in H. now apply H.
Qed.

(** The extractors keep the bound on every path, for every input. *)
Lemma ssl_sock_get_serial_inv (crt : X509) (out : buffer) :
  buffer_inv out -> buffer_inv (snd (ssl_sock_get_serial crt out)).
Proof.
  intros Hinv. unfold ssl_sock_get_serial.
  destruct (X509_get_serialNumber crt) as [serial |]; [| exact Hinv].
  destruct (Z.ltb_spec (b_size out) (to_size_t (asn1_length serial))); [exact Hinv |].
  unfold buffer_inv. cbn. lia.
Qed.

Lemma ssl_sock_crt2der_inv (crt : X509) (out : buffer) :
  buffer_inv out -> buffer_inv (snd (ssl_sock_crt2der crt out)).
Proof.
  intros Hinv. unfold ssl_sock_crt2der.
  destruct (i2d_X509_len crt <=? 0); [exact Hinv |].
  destruct (Z.ltb_spec (b_size out) (to_size_t (i2d_X509_len crt))); [exact Hinv |].
  unfold buffer_inv. cbn. lia.
Qed.

Lemma ssl_sock_get_time_inv (tm : ASN1_STRING) (out : buffer) :
  buffer_inv out -> buffer_inv (snd (ssl_sock_get_time tm out)).
Proof.
  intros Hinv. unfold ssl_sock_get_time.
  repeat match goal with
         | |- context [if ?b <? ?c then _ else _] => destruct (Z.ltb_spec b c)
         | |- context [if ?b then _ else _] => destruct b
         end; try exact Hinv; unfold buffer_inv; cbn; lia.
Qed.

Section DistinguishedNameBound.

Variable OBJ_nid2sn : Z -> option (list Z).
Variable chunk_strcasecmp : buffer -> list Z -> Z.

Lemma dn_entry_loop_inv (a : X509_NAME) entry pos n (todo : nat) :
  forall i cur out,
    buffer_inv out ->
    buffer_inv (snd (dn_entry_loop OBJ_nid2sn chunk_strcasecmp todo a entry pos n i cur out)).
Proof.
  induction todo as [| todo IH]; intros i cur out Hinv; [exact Hinv |].
  cbn [dn_entry_loop].
  destruct (X509_NAME_get_entry a _) as [ne |]; [| exact Hinv].
  destruct (negb _); [now apply IH |].
  destruct (negb _); [now apply IH |].
  destruct (Z.ltb_spec (b_size out) (to_size_t (asn1_length (ne_value ne)))); [exact Hinv |].
  unfold buffer_inv. cbn. lia.
Qed.

Lemma ssl_sock_get_dn_entry_inv (a : X509_NAME) entry pos (out : buffer) :
  0 <= b_size out ->
  buffer_inv (snd (ssl_sock_get_dn_entry OBJ_nid2sn chunk_strcasecmp a entry pos out)).
Proof.
  intros Hsize. unfold ssl_sock_get_dn_entry. apply dn_entry_loop_inv.
  unfold buffer_inv. cbn. lia.
Qed.

(** The running total [l] is stored in [data] only after it has been
    compared with [size]; on the -1 path [data] is the total of the
    entries already written. *)
Lemma dn_oneline_loop_inv (a : X509_NAME) (todo : nat) :
  forall i l p out,
    buffer_inv out ->
    buffer_inv (snd (dn_oneline_loop OBJ_nid2sn todo a i l p out)).
Proof.
  induction todo as [| todo IH]; intros i l p out Hinv; [exact Hinv |].
  cbn [dn_oneline_loop].
  destruct (X509_NAME_get_entry a i) as [ne |]; [| exact Hinv].
  match goal with |- context [if ?b <? ?c then _ else _] => destruct (Z.ltb_spec b c) end;
    [exact Hinv |].
  apply IH. unfold buffer_inv. cbn. lia.
Qed.

Lemma ssl_sock_get_dn_oneline_inv (a : X509_NAME) (out : buffer) :
  0 <= b_size out ->
  buffer_inv (snd (ssl_sock_get_dn_oneline OBJ_nid2sn a out)).
Proof.
  intros Hsize. unfold ssl_sock_get_dn_oneline. apply dn_oneline_loop_inv.
  unfold buffer_inv. cbn. lia.
Qed.

End DistinguishedNameBound.

(** The example of the specification: two attributes give 22 bytes, and a
    buffer of 21 bytes is refused. *)
Example ssl_sock_get_dn_oneline_example :
  let a := [name_entry 13 "example.com"; name_entry 17 "Acme"] in
  let r := ssl_sock_get_dn_oneline sample_nid2sn a (Buffer 32 (repeat 0 32) 0 0) in
  fst r = 1 /\ b_data (snd r) = 22 /\
  contents (snd r) = bytes_of_string "/CN=example.com/O=Acme" /\
  fst (ssl_sock_get_dn_oneline sample_nid2sn a (Buffer 21 (repeat 0 21) 0 0)) = -1.
Proof. repeat split; reflexivity. Qed.

(** ** strtol and the version parser *)

Lemma isdigit_range (c : Z) : isdigit c = true <-> 0x30 <= c <= 0x39.
Proof. unfold isdigit. rewrite andb_true_iff, !Z.leb_le. tauto. Qed.

Lemma strtol_digits_app (ds rest : list Z) (acc : Z) :
  Forall (fun c => isdigit c = true) ds -> isdigit (peek rest) = false ->
  strtol_digits acc (ds ++ rest)
  = (fold_left (fun acc c => acc * 10 + (c - 0x30)) ds acc, rest).
Proof.
  intros Hds Hrest. revert acc.
  induction Hds as [| c ds Hc _ IH]; intros acc.
  - destruct rest as [| c rest]; [reflexivity |].
    cbn in *. now rewrite Hrest.
  - cbn [app strtol_digits fold_left]. rewrite Hc. apply IH.
Qed.

Lemma fold_decimal_bounds (ds : list Z) (acc : Z) :
  Forall (fun c => isdigit c = true) ds -> 0 <= acc ->
  acc <= fold_left (fun acc c => acc * 10 + (c - 0x30)) ds acc.
Proof.
  intros Hds. revert acc. induction Hds as [| c ds Hc _ IH]; intros acc Hacc.
  - cbn. lia.
  - cbn [fold_left]. apply isdigit_range in Hc.
    etransitivity; [| apply IH]; lia.
Qed.

Lemma decimal_value_nonneg (ds : list Z) : digits ds -> 0 <= decimal_value ds.
Proof. intros [_ Hds]. now apply (fold_decimal_bounds ds 0). Qed.

(** strtol on a run of digits followed by something else: the value of
    the run, saturated, and the position after it. *)
Lemma strtol_decimal (ds rest : list Z) :
  digits ds -> isdigit (peek rest) = false ->
  strtol (ds ++ rest) = (clamp_long (decimal_value ds), rest).
Proof.
  intros [Hne Hds] Hrest.
  destruct ds as [| c ds]; [congruence |].
  pose proof (Forall_inv Hds) as Hc. cbn beta in Hc.
  pose proof (proj1 (isdigit_range c) Hc) as Hr.
  unfold strtol. cbn [app skip_space].
  assert (Hsp : isspace c = false).
  { unfold isspace. destruct (Z.eqb_spec c 0x20); [lia |].
    destruct (Z.leb_spec 0x09 c), (Z.leb_spec c 0x0d); try reflexivity; lia. }
  rewrite Hsp.
  destruct (Z.eqb_spec c 0x2d); [lia |]. destruct (Z.eqb_spec c 0x2b); [lia |].
  cbn [peek]. rewrite Hc.
  change (c :: ds ++ rest) with ((c :: ds) ++ rest).
  now rewrite strtol_digits_app.
Qed.

Lemma strtol_field (ds rest : list Z) (bound : Z) :
  digits ds -> isdigit (peek rest) = false ->
  decimal_value ds <= bound -> bound <= 0xff ->
  strtol (ds ++ rest) = (decimal_value ds, rest) /\
  to_uint (decimal_value ds) = decimal_value ds.
Proof.
  intros Hds Hrest Hle Hb. pose proof (decimal_value_nonneg ds Hds) as H0.
  rewrite strtol_decimal by assumption. split.
  - f_equal. unfold clamp_long, LONG_MIN, LONG_MAX.
    destruct (Z.ltb_spec (decimal_value ds) (- 2 ^ 63)); [lia |].
    destruct (Z.ltb_spec (2 ^ 63 - 1) (decimal_value ds)); [lia | reflexivity].
  - unfold to_uint. apply Z.mod_small. lia.
Qed.

Lemma peek_digits (ds rest : list Z) : digits ds -> isdigit (peek (ds ++ rest)) = true.
Proof.
  intros [Hne Hds]. destruct ds as [| c ds]; [congruence |].
  exact (Forall_inv Hds).
Qed.

(** [strncmp(p, "beta", 4)] is 0 only when [p] starts with "beta". *)
Lemma strncmp_beta (p : list Z) :
  strncmp p (bytes_of_string "beta") 4 = 0 -> take 4 p = bytes_of_string "beta".
Proof.
  change (bytes_of_string "beta") with [0x62; 0x65; 0x74; 0x61].
  destruct p as [| a [| b [| c [| d t]]]]; cbn;
    repeat match goal with
           | |- context [?x =? ?y] => destruct (Z.eqb_spec x y); try subst
           end; cbn; intros; try lia; try congruence.
  now rewrite take_0.
Qed.

(** The fields of a packed number are the ones that were packed. *)
Lemma land_shiftl_low (x k n : Z) :
  0 <= n <= k -> Z.land (Z.shiftl x k) (Z.ones n) = 0.
Proof.
  intros H. rewrite Z.land_ones, Z.shiftl_mul_pow2 by lia.
  replace k with ((k - n) + n) by lia. rewrite Z.pow_add_r by lia.
  rewrite Z.mul_assoc. apply Z_mod_mult.
Qed.

Lemma version_status_numversion (major minor fix_ patch status : Z) :
  version_status (numversion major minor fix_ patch status) = Z.land status 0xf.
Proof.
  unfold version_status, numversion. rewrite !Z.land_lor_distr_l.
  change 0xf with (Z.ones 4). rewrite !land_shiftl_low by lia.
  rewrite <- Z.land_assoc, Z.land_diag. reflexivity.
Qed.

Lemma version_patch_numversion (major minor fix_ patch status : Z) :
  version_patch (numversion major minor fix_ patch status) = Z.land patch 0xff.
Proof.
  unfold version_patch, numversion.
  rewrite !Z.shiftr_lor, !Z.land_lor_distr_l.
  rewrite !Z.shiftr_shiftl_l by lia.
  change 0xff with (Z.ones 8). rewrite !land_shiftl_low by lia.
  cbn [Z.lor Z.sub Z.opp Z.add Z.pos_sub Pos.pred_double]. rewrite Z.shiftl_0_r.
  rewrite <- Z.land_assoc, Z.land_diag.
  change 0xf with (Z.ones 4). rewrite Z.shiftr_land.
  change (Z.shiftr (Z.ones 4) 4) with 0. rewrite Z.land_0_r, Z.land_0_l, Z.lor_0_r.
  reflexivity.
Qed.

(** C4, as the code has it.  After [MAJOR.MINOR.FIX] a hyphen followed by
    anything that does not start with "beta" leaves both counters alone:
    the patch field and the status nibble of the result are 0, as in the
    example [0x30000000 3.0.0-alpha17] of the comment above the function. *)
Theorem openssl_version_parser_dev_suffix (ma mi fx suffix : list Z) :
  digits ma -> digits mi -> digits fx ->
  decimal_value ma <= 0xf -> decimal_value mi <= 0xff -> decimal_value fx <= 0xff ->
  take 4 suffix <> bytes_of_string "beta" ->
  let v := openssl_version_parser
             (Some (ma ++ bytes_of_string "." ++ mi ++ bytes_of_string "." ++ fx
                       ++ bytes_of_string "-" ++ suffix)) in
  v = numversion (decimal_value ma) (decimal_value mi) (decimal_value fx) 0 0 /\
  version_patch v = 0 /\ version_status v = 0.
Proof.
  intros Hma Hmi Hfx Bma Bmi Bfx Hsuffix v.
  assert (Hv : v = numversion (decimal_value ma) (decimal_value mi) (decimal_value fx) 0 0).
  { subst v. unfold openssl_version_parser.
    change (bytes_of_string ".") with [0x2e]. change (bytes_of_string "-") with [0x2d].
    cbn [app].
    pose proof (peek_digits ma (0x2e :: mi ++ 0x2e :: fx ++ 0x2d :: suffix) Hma) as Hp.
    destruct (Z.eqb_spec (peek (ma ++ 0x2e :: mi ++ 0x2e :: fx ++ 0x2d :: suffix)) 0) as [E | _].
    { rewrite E in Hp. discriminate. }
    destruct (strtol_field ma (0x2e :: mi ++ 0x2e :: fx ++ 0x2d :: suffix) 0xf Hma eq_refl Bma)
      as [-> ->]; [lia |].
    cbn [peek tl]. rewrite Z.eqb_refl. cbn [negb orb].
    destruct (Z.ltb_spec 0xf (decimal_value ma)); [lia |].
    destruct (strtol_field mi (0x2e :: fx ++ 0x2d :: suffix) 0xff Hmi eq_refl Bmi)
      as [-> ->]; [lia |].
    cbn [peek tl]. rewrite Z.eqb_refl. cbn [negb orb].
    destruct (Z.ltb_spec 0xff (decimal_value mi)); [lia |].
    destruct (strtol_field fx (0x2d :: suffix) 0xff Hfx eq_refl Bfx) as [-> ->]; [lia |].
    destruct (Z.ltb_spec 0xff (decimal_value fx)); [lia |].
    cbn [peek tl]. change (0x2d =? 0) with false. change (0x2d =? 0x2d) with true. cbn iota.
    destruct (Z.eqb_spec (strncmp suffix (bytes_of_string "beta") 4) 0) as [E | _];
      [| reflexivity].
    apply strncmp_beta in E. contradiction. }
  split; [exact Hv |]. rewrite Hv.
  rewrite version_patch_numversion, version_status_numversion. split; reflexivity.
Qed.

Lemma openssl_version_parser_dev_suffix_witness :
  let v := openssl_version_parser (version_string "3.0.0-alpha17") in
  v = 0x30000000 /\ version_patch v = 0 /\ version_status v = 0.
Proof.
  assert (Hd : forall c, isdigit c = true -> digits [c])
    by (intros c Hc; split; [discriminate | repeat constructor; exact Hc]).
  refine (openssl_version_parser_dev_suffix
            (bytes_of_string "3") (bytes_of_string "0") (bytes_of_string "0")
            (bytes_of_string "alpha17") (Hd 0x33 eq_refl) (Hd 0x30 eq_refl) (Hd 0x30 eq_refl) _ _ _ _).
  - vm_compute. discriminate.
  - vm_compute. discriminate.
  - vm_compute. discriminate.
  - vm_compute. discriminate.
Defined.

(** C4 as it is stated fails on the example it names: for "3.0.0-alpha17"
    the status nibble is not 0xF and the patch field is not the
    accumulated sum. *)
Lemma openssl_version_parser_alpha17_not_patch :
  let v := openssl_version_parser (version_string "3.0.0-alpha17") in
  ~ (version_patch v = suffix_patch (bytes_of_string "alpha17") mod 256 /\
     version_status v = 0xf).
Proof. vm_compute. intros [_ H]. discriminate H. Qed.

(** The patch-release branch: letters that follow [FIX] directly. *)

Lemma is_letter_range (c : Z) :
  is_letter c = true <-> 0x41 <= c <= 0x5a \/ 0x61 <= c <= 0x7a.
Proof.
  unfold is_letter. rewrite orb_true_iff, !andb_true_iff, !Z.leb_le. tauto.
Qed.

(** On a letter, clearing bit 5 is upper-casing. *)
Lemma upper_mask_letter (c : Z) :
  is_letter c = true -> Z.land (char_val c) (Z.lnot 0x20) = ascii_upper c.
Proof.
  intros H. pose proof (proj1 (is_letter_range c) H) as Hr.
  assert (Hall : List.forallb (fun n =>
            implb (is_letter (Z.of_nat n))
                  (Z.land (char_val (Z.of_nat n)) (Z.lnot 0x20) =? ascii_upper (Z.of_nat n)))
            (seq 0 128) = true) by (vm_compute; reflexivity).
  rewrite List.forallb_forall in Hall. specialize (Hall (Z.to_nat c)).
  rewrite Z2Nat.id, H in Hall by lia. cbn [implb] in Hall.
  apply Z.eqb_eq, Hall, in_seq. lia.
Qed.

Lemma patch_loop_sum (p : list Z) :
  Forall (fun c => is_letter c = true) p ->
  forall acc, 0 <= acc < 2 ^ 32 ->
    patch_loop p acc
    = to_uint (acc + fold_right (fun c s => (ascii_upper c - 0x41) + s) 0 p).
Proof.
  intros Hp. induction Hp as [| c p Hc _ IH]; intros acc Hacc.
  - cbn. rewrite Z.add_0_r. unfold to_uint. now rewrite Z.mod_small.
  - cbn [patch_loop fold_right].
    pose proof (proj1 (is_letter_range c) Hc) as Hr.
    destruct (Z.eqb_spec c 0); [lia |].
    rewrite upper_mask_letter by exact Hc.
    rewrite IH by (unfold to_uint; apply Z.mod_pos_bound; lia).
    unfold to_uint. rewrite Zplus_mod_idemp_l. f_equal. lia.
Qed.

(** For letters attached to [FIX] the patch field is the accumulator the
    specification describes, and the status nibble is 0xF. *)
Lemma openssl_version_parser_patch_release (ma mi fx suffix : list Z) :
  digits ma -> digits mi -> digits fx ->
  decimal_value ma <= 0xf -> decimal_value mi <= 0xff -> decimal_value fx <= 0xff ->
  suffix <> [] -> Forall (fun c => is_letter c = true) suffix ->
  let v := openssl_version_parser
             (Some (ma ++ bytes_of_string "." ++ mi ++ bytes_of_string "." ++ fx ++ suffix)) in
  version_patch v = suffix_patch suffix mod 256 /\ version_status v = 0xf.
Proof.
  intros Hma Hmi Hfx Bma Bmi Bfx Hne Hletters v.
  destruct suffix as [| c t]; [congruence |].
  pose proof (proj1 (is_letter_range c) (Forall_inv Hletters)) as Hc.
  assert (Hnd : isdigit (peek (c :: t)) = false).
  { cbn [peek]. unfold isdigit.
    destruct (Z.leb_spec 0x30 c), (Z.leb_spec c 0x39); try reflexivity; lia. }
  assert (Hv : v = numversion (decimal_value ma) (decimal_value mi) (decimal_value fx)
                              (patch_loop (c :: t) 1) 0xf).
  { subst v. unfold openssl_version_parser.
    change (bytes_of_string ".") with [0x2e]. cbn [app].
    pose proof (peek_digits ma (0x2e :: mi ++ 0x2e :: fx ++ c :: t) Hma) as Hp.
    destruct (Z.eqb_spec (peek (ma ++ 0x2e :: mi ++ 0x2e :: fx ++ c :: t)) 0) as [E | _].
    { rewrite E in Hp. discriminate. }
    destruct (strtol_field ma (0x2e :: mi ++ 0x2e :: fx ++ c :: t) 0xf Hma eq_refl Bma)
      as [-> ->]; [lia |].
    cbn [peek tl]. rewrite Z.eqb_refl. cbn [negb orb].
    destruct (Z.ltb_spec 0xf (decimal_value ma)); [lia |].
    destruct (strtol_field mi (0x2e :: fx ++ c :: t) 0xff Hmi eq_refl Bmi)
      as [-> ->]; [lia |].
    cbn [peek tl]. rewrite Z.eqb_refl. cbn [negb orb].
    destruct (Z.ltb_spec 0xff (decimal_value mi)); [lia |].
    destruct (strtol_field fx (c :: t) 0xff Hfx Hnd Bfx) as [-> ->]; [lia |].
    destruct (Z.ltb_spec 0xff (decimal_value fx)); [lia |].
    cbn [peek]. destruct (Z.eqb_spec c 0); [lia |]. destruct (Z.eqb_spec c 0x2d); [lia |].
    reflexivity. }
  rewrite Hv, version_patch_numversion, version_status_numversion.
  split; [| reflexivity].
  rewrite patch_loop_sum by (try exact Hletters; lia).
  change 0xff with (Z.ones 8). rewrite Z.land_ones by lia.
  unfold to_uint, suffix_patch. change (2 ^ 8) with 256.
  apply Z.mod_mod_divide. exists (2 ^ 24). reflexivity.
Qed.

(** The examples of the specification and of the source comment. *)
Example openssl_version_parser_examples :
  openssl_version_parser (version_string "3.0.0") = 0x3000000f /\
  openssl_version_parser (version_string "3.0.0-beta2") = 0x30000002 /\
  openssl_version_parser (version_string "3.0.0-beta14") = 0x3000000e /\
  openssl_version_parser (version_string "1.0.2u") = 0x1000215f /\
  openssl_version_parser (version_string "0.9.8zh") = 0x0090821f /\
  version_patch (openssl_version_parser (version_string "1.0.2u")) = 21 /\
  openssl_version_parser (version_string "9999.0.0") = 0.
Proof. repeat split; reflexivity. Qed.

(** ** asn1_generalizedtime_to_epoch *)

(** 2023-01-15T12:30:45 UTC by calendar arithmetic: 19372 days after
    1970-01-01, then 12 h 30 min 45 s. *)
Example epoch_2023_01_15 : (19372 * 24 + 12) * 3600 + 30 * 60 + 45 = 1673785845.
Proof. reflexivity. Qed.

(** The parts of C6 the code agrees with: the "Z" example and the
    malformed month. *)
Lemma asn1_generalizedtime_to_epoch_utc :
  asn1_generalizedtime_to_epoch (Some (generalizedtime "20230115123045Z")) = 1673785845 /\
  asn1_generalizedtime_to_epoch (Some (generalizedtime "20231315000000Z")) = -1.
Proof. split; reflexivity. Qed.

(** What the code does with an offset: hours and minutes are combined as
    [HH * 60 * 60 + MM] and the sum is multiplied by 60 once more. *)
Lemma epoch_timezone_plus (epoch h1 h2 m1 m2 : Z) :
  let d c := c - 0x30 in
  epoch_timezone epoch [0x2b; h1; h2; m1; m2]
  = epoch - ((10 * d (char_val h1) + d (char_val h2)) * 3600
             + (10 * d (char_val m1) + d (char_val m2))) * 60.
Proof.
  intros d. unfold epoch_timezone, char_at, byte_at, remaining, d.
  change (Z.to_nat 0) with 0%nat. change (Z.to_nat 1) with 1%nat.
  change (Z.to_nat 2) with 2%nat. change (Z.to_nat 3) with 3%nat.
  change (Z.to_nat 4) with 4%nat. cbn [nth length].
  change (char_val 0x2b) with 0x2b. change (Z.of_nat 5) with 5. cbn.
  f_equal. lia.
Qed.

(** C6, at the offset example.  For "20230115123045+0100" the code returns
    216000 seconds less than for the "Z" form, where one hour is 3600. *)
Theorem asn1_generalizedtime_to_epoch_plus_0100 :
  asn1_generalizedtime_to_epoch (Some (generalizedtime "20230115123045+0100"))
  = 1673785845 - 216000 /\
  asn1_generalizedtime_to_epoch (Some (generalizedtime "20230115123045+0100"))
  <> asn1_generalizedtime_to_epoch (Some (generalizedtime "20230115123045Z")) - 3600 /\
  asn1_generalizedtime_to_epoch (Some (generalizedtime "20230115123045-0100"))
  = 1673785845 + 216000.
Proof. vm_compute. repeat split; discriminate. Qed.

(** ** The table of verification error codes *)

Lemma streq_eq (a b : string) : streq a b = true <-> a = b.
Proof. unfold streq. apply String.eqb_eq. Qed.

(** The initialisation fills in codes and leaves the names alone. *)
Lemma init_x509_v_err_tab_names (tab : list x509_v_code) :
  List.map vc_string (init_x509_v_err_tab tab) = List.map vc_string tab.
Proof.
  unfold init_x509_v_err_tab. rewrite List.map_map. apply List.map_ext.
  intros e. now destruct (streq (vc_string e) (vc_value e)).
Qed.

Lemma x509_v_codes_names (cpp_expand : string -> string) :
  List.map vc_string (x509_v_codes cpp_expand) = x509_v_names.
Proof.
  unfold x509_v_codes. rewrite List.map_map. cbn [V vc_string]. apply List.map_id.
Qed.

(** No constant is listed twice. *)
Lemma x509_v_names_NoDup : NoDup x509_v_names.
Proof.
  apply (bool_decide_unpack _). vm_compute. exact I.
Qed.

(** Name to code: the first entry with the name is the only one. *)
Lemma x509_v_err_str_to_int_member (tab : list x509_v_code) (e : x509_v_code) :
  NoDup (List.map vc_string tab) -> e ∈ tab ->
  x509_v_err_str_to_int tab (vc_string e) = vc_code e.
Proof.
  induction tab as [| e0 tab IH]; intros Hnd He.
  - now apply elem_of_nil in He.
  - cbn [List.map] in Hnd. apply NoDup_cons in Hnd as [Hnotin Hnd].
    cbn [x509_v_err_str_to_int].
    destruct (streq (vc_string e) (vc_string e0)) eqn:Heq.
    + apply streq_eq in Heq. apply elem_of_cons in He as [-> | He]; [reflexivity |].
      exfalso. apply Hnotin. rewrite <- Heq.
      change (List.map vc_string tab) with (vc_string <$> tab).
      now apply list_elem_of_fmap_2.
    + apply elem_of_cons in He as [-> | He].
      * unfold streq in Heq. rewrite String.eqb_refl in Heq. discriminate.
      * now apply IH.
Qed.








(** * Properties of the rest of the file *)

(** ** sigalg2str *)

Lemma sigalg2str_from_Some (item : list sigalgs) (id : Z) (n : string) :
  sigalg2str_from item id = Some n -> SigAlg n id ∈ item.
Proof.
  induction item as [| e item IH]; cbn [sigalg2str_from]; [discriminate |].
  destruct (Z.eqb_spec (sa_sigalg e) id) as [<- | _].
  - intros [= <-]. destruct e. left.
  - intros H. right. now apply IH.
Qed.

Lemma sigalg2str_from_None (item : list sigalgs) (id : Z) :
  (forall e, e ∈ item -> sa_sigalg e <> id) -> sigalg2str_from item id = None.
Proof.
  induction item as [| e item IH]; intros H; cbn [sigalg2str_from]; [reflexivity |].
  destruct (Z.eqb_spec (sa_sigalg e) id) as [E | _].
  - exfalso. apply (H e); [left | exact E].
  - apply IH. intros e' He'. apply H. now right.
Qed.

(** X1. sigalg2str maps the identifier of every line of the table to the
    name on that line (the line listed twice included), returns only
    names paired with the identifier in the table, and returns NULL for an
    identifier the table does not list. *)
Theorem sigalg2str_table :
  (forall e, e ∈ sigalgs_list -> sigalg2str (sa_sigalg e) = Some (sa_name e)) /\
  (forall id n, sigalg2str id = Some n -> SigAlg n id ∈ sigalgs_list) /\
  (forall id, (forall e, e ∈ sigalgs_list -> sa_sigalg e <> id) -> sigalg2str id = None).
Proof.
  split; [| split].
  - apply Forall_forall. apply (bool_decide_unpack _). vm_compute. exact I.
  - intros id n. apply sigalg2str_from_Some.
  - intros id. apply sigalg2str_from_None.
Qed.

Lemma sigalg2str_table_witness : sigalg2str 0x1234 = None.
Proof.
  refine (proj2 (proj2 sigalg2str_table) 0x1234 _).
  apply Forall_forall. apply (bool_decide_unpack _). vm_compute. exact I.
Defined.

(** ** The curve table *)

Lemma curves_table_keys (cpp_expand : string -> string) :
  List.map curve_key (curves_table cpp_expand) = List.map curve_arg_key curves_args.
Proof.
  unfold curves_table, init_curves_tab, curves_list. rewrite !List.map_map.
  apply List.map_ext. intros [[[w x] y] z]. cbn [V_curve].
  destruct (strtol _) as [value endptr].
  now destruct (negb _ && _).
Qed.

Lemma curveid2str_keys (t1 t2 : list curve) (id : Z) :
  List.map curve_key t1 = List.map curve_key t2 ->
  curveid2str t1 id = curveid2str t2 id.
Proof.
  revert t2. induction t1 as [| c1 t1 IH]; intros [| c2 t2]; cbn [List.map]; try discriminate;
    [reflexivity |].
  intros [= Hid Hname Hnist Ht]. cbn [curveid2str]. rewrite Hid, Hname.
  destruct (curve_id c2 =? id); [reflexivity | now apply IH].
Qed.

(** X2. Whatever the headers of the library, curveid2str maps the
    identifier of every line of the curve table to the name on that
    line. *)
Theorem curveid2str_table (cpp_expand : string -> string) :
  forall w x y z, (w, x, y, z) ∈ curves_args ->
    curveid2str (curves_table cpp_expand) w = Some y.
Proof.
  intros w x y z Hin.
  rewrite (curveid2str_keys _ (curves_table cpp_expand_none))
    by now rewrite !curves_table_keys.
  revert w x y z Hin.
  assert (H : Forall (fun line : Z * nid_arg * string * option string =>
                curveid2str (curves_table cpp_expand_none) line.1.1.1 = Some line.1.2)
                curves_args)
    by (apply (bool_decide_unpack _); vm_compute; exact I).
  rewrite Forall_forall in H. intros w x y z Hin. exact (H _ Hin).
Qed.

Lemma curveid2str_table_witness :
  curveid2str (curves_table cpp_expand_none) 23 = Some "secp256r1"%string.
Proof.
  refine (curveid2str_table cpp_expand_none 23 (NidMacro "NID_X9_62_prime256v1")
            "secp256r1" (Some "P-256"%string) _).
  apply (list_elem_of_lookup_2 _ 22%nat). reflexivity.
Defined.

Lemma curve_names_match (k : string) (c : curve) :
  streq k (cv_name c) || nist_matches k c = true <-> k ∈ curve_names c.
Proof.
  unfold curve_names, nist_matches. rewrite orb_true_iff, streq_eq.
  destruct (cv_nist c) as [z |].
  - rewrite streq_eq, !elem_of_cons, elem_of_nil. tauto.
  - rewrite elem_of_cons, elem_of_nil. intuition discriminate.
Qed.

(** With names that are not shared between entries, a name of an entry
    leads to the NID of that entry. *)
Lemma curves2nid_member (l : list curve) (c : curve) (k : string) :
  NoDup (concat (List.map curve_names l)) ->
  (forall c', c' ∈ l -> curve_id c' <> 0) ->
  c ∈ l -> k ∈ curve_names c ->
  curves2nid l k = cv_nid c.
Proof.
  induction l as [| c0 l IH]; intros Hnd Hid Hc Hk.
  - now apply elem_of_nil in Hc.
  - cbn [List.map concat] in Hnd. apply NoDup_app in Hnd as (Hnd0 & Hdisj & Hnd).
    cbn [curves2nid].
    destruct (Z.eqb_spec (curve_id c0) 0) as [E | _].
    { exfalso. apply (Hid c0); [left | exact E]. }
    destruct (streq k (cv_name c0) || nist_matches k c0) eqn:Hm.
    + apply curve_names_match in Hm.
      apply elem_of_cons in Hc as [-> | Hc]; [reflexivity |].
      exfalso. apply (Hdisj k Hm).
      apply list_elem_of_In, in_concat. exists (curve_names c). split.
      * apply in_map. now apply list_elem_of_In.
      * now apply list_elem_of_In.
    + apply elem_of_cons in Hc as [-> | Hc].
      * apply curve_names_match in Hk. congruence.
      * apply IH; auto. intros c' Hc'. apply Hid. now right.
Qed.

Lemma curves2nid_unknown (l : list curve) (k : string) :
  (forall c, c ∈ l -> k ∉ curve_names c) -> curves2nid l k = -1.
Proof.
  induction l as [| c0 l IH]; intros H; cbn [curves2nid]; [reflexivity |].
  destruct (curve_id c0 =? 0); [reflexivity |].
  destruct (streq k (cv_name c0) || nist_matches k c0) eqn:Hm.
  - apply curve_names_match in Hm. exfalso. apply (H c0); [left | exact Hm].
  - apply IH. intros c Hc. apply H. now right.
Qed.

Lemma curves_table_names (cpp_expand : string -> string) :
  List.map curve_names (curves_table cpp_expand)
  = List.map curve_names (curves_table cpp_expand_none).
Proof.
  assert (H : forall t, List.map curve_names t
                        = List.map (fun k : Z * string * option string =>
                            k.1.2 :: match k.2 with Some z => [z] | None => [] end)
                            (List.map curve_key t))
    by (intros t; rewrite List.map_map; reflexivity).
  now rewrite !H, !curves_table_keys.
Qed.

Lemma curves_table_ids (cpp_expand : string -> string) (c : curve) :
  c ∈ curves_table cpp_expand -> curve_id c <> 0.
Proof.
  intros Hc.
  assert (Hk : curve_key c ∈ List.map curve_arg_key curves_args).
  { rewrite <- (curves_table_keys cpp_expand).
    change (List.map ?f ?l) with (f <$> l). now apply list_elem_of_fmap_2. }
  assert (H : Forall (fun k : Z * string * option string => k.1.1 <> 0)
                     (List.map curve_arg_key curves_args))
    by (apply (bool_decide_unpack _); vm_compute; exact I).
  rewrite Forall_forall in H. exact (H _ Hk).
Qed.

(** X3. Whatever the headers of the library, curves2nid maps the SECG
    name of an entry of the curve table, and its NIST name when it has
    one, to the NID of that entry: the two names of a curve give the
    same NID.  A name that no entry carries gives -1. *)
Theorem curves2nid_table (cpp_expand : string -> string) :
  (forall c, c ∈ curves_table cpp_expand ->
     curves2nid (curves_table cpp_expand) (cv_name c) = cv_nid c /\
     (forall z, cv_nist c = Some z ->
        curves2nid (curves_table cpp_expand) z = cv_nid c)) /\
  (forall k, (forall c, c ∈ curves_table cpp_expand -> k ∉ curve_names c) ->
     curves2nid (curves_table cpp_expand) k = -1).
Proof.
  assert (Hnd : NoDup (concat (List.map curve_names (curves_table cpp_expand)))).
  { rewrite curves_table_names. apply (bool_decide_unpack _). vm_compute. exact I. }
  split.
  - intros c Hc. split.
    + apply (curves2nid_member _ c);
        [exact Hnd | exact (curves_table_ids cpp_expand) | exact Hc | left].
    + intros z Hz. apply (curves2nid_member _ c);
        [exact Hnd | exact (curves_table_ids cpp_expand) | exact Hc |].
      unfold curve_names. rewrite Hz. right. left.
  - apply curves2nid_unknown.
Qed.

Lemma curves2nid_table_witness :
  curves2nid (curves_table cpp_expand_p256) "secp256r1" = 415 /\
  curves2nid (curves_table cpp_expand_p256) "P-256" = 415 /\
  curves2nid (curves_table cpp_expand_p256) "no-such-curve" = -1.
Proof.
  pose proof (curves2nid_table cpp_expand_p256) as [Hin Hout].
  assert (Hc : Curve 23 415 "415" "secp256r1" (Some "P-256"%string)
               ∈ curves_table cpp_expand_p256)
    by (apply (list_elem_of_lookup_2 _ 22%nat); reflexivity).
  split; [exact (proj1 (Hin _ Hc)) | split; [exact (proj2 (Hin _ Hc) _ eq_refl) |]].
  apply Hout. apply Forall_forall. apply (bool_decide_unpack _). vm_compute. exact I.
Defined.

(** ** The table of verification error codes, the other way round *)

Lemma x509_v_err_find_code_Some (tab : list x509_v_code) (code : Z) (n : string) :
  x509_v_err_find_code tab code = Some n ->
  exists e, e ∈ tab /\ vc_code e = code /\ vc_string e = n.
Proof.
  induction tab as [| e tab IH]; cbn [x509_v_err_find_code]; [discriminate |].
  destruct (Z.eqb_spec (vc_code e) code) as [E | _].
  - intros [= <-]. exists e. split; [left | auto].
  - intros H. destruct (IH H) as (e' & He' & Hc & Hn).
    exists e'. split; [now right | auto].
Qed.

Lemma x509_v_err_str_to_int_unknown (tab : list x509_v_code) (str : string) :
  (forall e, e ∈ tab -> vc_string e <> str) -> x509_v_err_str_to_int tab str = -1.
Proof.
  induction tab as [| e tab IH]; intros H; cbn [x509_v_err_str_to_int]; [reflexivity |].
  destruct (streq str (vc_string e)) eqn:E.
  - apply streq_eq in E. exfalso. apply (H e); [left | congruence].
  - apply IH. intros e' He'. apply H. now right.
Qed.

Lemma x509_v_table_names (cpp_expand : string -> string) :
  List.map vc_string (x509_v_table cpp_expand) = x509_v_names.
Proof.
  unfold x509_v_table. now rewrite init_x509_v_err_tab_names, x509_v_codes_names.
Qed.

(** X4. Whatever the headers of the library, a name that
    x509_v_err_int_to_str returns for a code is a constant of the list, the
    code is not -1, and x509_v_err_str_to_int maps that name back to the
    code. *)
Theorem x509_v_err_int_to_str_inverse (cpp_expand : string -> string) (code : Z)
    (n : string) :
  x509_v_err_int_to_str (x509_v_table cpp_expand) code = Some n ->
  n ∈ x509_v_names /\ code <> -1 /\
  x509_v_err_str_to_int (x509_v_table cpp_expand) n = code.
Proof.
  unfold x509_v_err_int_to_str.
  destruct (Z.eqb_spec code (-1)) as [| Hcode]; [discriminate |].
  intros H. apply x509_v_err_find_code_Some in H as (e & He & <- & <-).
  split; [| split; [exact Hcode |]].
  - rewrite <- (x509_v_table_names cpp_expand).
    change (List.map ?f ?l) with (f <$> l). now apply list_elem_of_fmap_2.
  - apply x509_v_err_str_to_int_member; [| exact He].
    rewrite x509_v_table_names. exact x509_v_names_NoDup.
Qed.

Lemma x509_v_err_int_to_str_inverse_witness :
  x509_v_err_str_to_int (x509_v_table cpp_expand_numbered) "X509_V_ERR_CERT_REVOKED" = 23.
Proof.
  refine (proj2 (proj2 (x509_v_err_int_to_str_inverse cpp_expand_numbered 23
                          "X509_V_ERR_CERT_REVOKED" _))).
  reflexivity.
Defined.

(** X5. A name that is not in the list maps to -1, whatever the headers;
    and before init_x509_v_err_tab has run, every name maps to -1 and no
    code maps to a name. *)
Theorem x509_v_err_lookup_fails (cpp_expand : string -> string) :
  (forall str, str ∉ x509_v_names ->
     x509_v_err_str_to_int (x509_v_table cpp_expand) str = -1) /\
  (forall str, x509_v_err_str_to_int (x509_v_codes cpp_expand) str = -1) /\
  (forall code, x509_v_err_int_to_str (x509_v_codes cpp_expand) code = None).
Proof.
  split; [| split].
  - intros str Hstr. apply x509_v_err_str_to_int_unknown.
    intros e He E. apply Hstr. rewrite <- E, <- (x509_v_table_names cpp_expand).
    change (List.map ?f ?l) with (f <$> l). now apply list_elem_of_fmap_2.
  - intros str. unfold x509_v_codes.
    induction x509_v_names as [| x l IH]; [reflexivity |].
    cbn [List.map x509_v_err_str_to_int V vc_string vc_code].
    now destruct (streq str x).
  - intros code. unfold x509_v_err_int_to_str, x509_v_codes.
    destruct (Z.eqb_spec code (-1)) as [| Hcode]; [reflexivity |].
    induction x509_v_names as [| x l IH]; [reflexivity |].
    cbn [List.map x509_v_err_find_code V vc_string vc_code].
    destruct (Z.eqb_spec (-1) code) as [E | _]; [congruence | exact IH].
Qed.

Lemma x509_v_err_lookup_fails_witness :
  x509_v_err_str_to_int (x509_v_table cpp_expand_numbered) "X509_V_ERR_NO_SUCH_CODE" = -1.
Proof.
  refine (proj1 (x509_v_err_lookup_fails cpp_expand_numbered) _ _).
  apply (bool_decide_unpack _). vm_compute. exact I.
Defined.

(** ** ssl_sock_get_dn_entry, for the other values of [pos] *)

Section DistinguishedNameForward.

Variable OBJ_nid2sn : Z -> option (list Z).
Variable chunk_strcasecmp : buffer -> list Z -> Z.

Local Abbreviation fw_loop := (dn_entry_loop OBJ_nid2sn chunk_strcasecmp).
Local Abbreviation fw_scan := (dn_scan OBJ_nid2sn chunk_strcasecmp).
Local Abbreviation fw_matches := (dn_matches OBJ_nid2sn chunk_strcasecmp).
Local Abbreviation fw_matching := (entry_matches OBJ_nid2sn chunk_strcasecmp).

(** With [pos >= 0] the loop visits the entries in encoding order. *)
Lemma dn_entry_loop_forward (a : X509_NAME) entry pos out :
  0 <= pos ->
  forall (todo i : nat) (cur : Z),
    (i + todo = length a)%nat ->
    fw_loop todo a entry pos (Z.of_nat (length a)) (Z.of_nat i) cur out
    = fw_scan (drop i a) entry pos cur out.
Proof.
  intros Hpos todo. induction todo as [| todo IH]; intros i cur Hi.
  - rewrite drop_ge by lia. reflexivity.
  - cbn [dn_entry_loop].
    assert (Hltb : (pos <? 0) = false) by (apply Z.ltb_ge; lia).
    rewrite Hltb. cbn iota.
    destruct (lookup_lt_is_Some_2 a i) as [ne Hne]; [lia |].
    rewrite (drop_S _ _ _ Hne).
    unfold X509_NAME_get_entry.
    destruct (Z.ltb_spec (Z.of_nat i) 0); [lia |].
    rewrite Nat2Z.id.
    change (a !! i) with (@lookup nat X509_NAME_ENTRY (list X509_NAME_ENTRY) _ i a).
    rewrite Hne. cbn [dn_scan]. rewrite Hltb. cbn iota.
    replace (Z.of_nat i + 1) with (Z.of_nat (S i)) by lia.
    rewrite !IH by lia. unfold dn_entry_copy. reflexivity.
Qed.

(** Counting up from [cur], the scan stops at the match that brings the
    counter to [pos]. *)
Lemma dn_scan_select_forward (l : list X509_NAME_ENTRY) entry pos out :
  forall cur, 0 <= cur < pos ->
    fw_scan l entry pos cur out
    = match filter (fw_matching entry) l !! Z.to_nat (pos - cur - 1) with
      | None => (0, out)
      | Some ne => dn_entry_copy ne out
      end.
Proof.
  induction l as [| ne l IH]; intros cur Hcur; [reflexivity |].
  cbn [dn_scan].
  assert (Hltb : (pos <? 0) = false) by (apply Z.ltb_ge; lia).
  rewrite Hltb.
  destruct (Z.eqb_spec (chunk_strcasecmp entry (entry_name OBJ_nid2sn (ne_object ne))) 0)
    as [Hm | Hm]; cbn [negb].
  - rewrite filter_cons_True by exact Hm.
    destruct (Z.eqb_spec (cur + 1) pos) as [Heq | Hneq]; cbn [negb].
    + replace (Z.to_nat (pos - cur - 1)) with 0%nat by lia. reflexivity.
    + rewrite IH by lia.
      replace (Z.to_nat (pos - cur - 1)) with (S (Z.to_nat (pos - (cur + 1) - 1))) by lia.
      reflexivity.
  - rewrite filter_cons_False by exact Hm. now apply IH.
Qed.

(** The counter never comes back to 0. *)
Lemma dn_scan_zero (l : list X509_NAME_ENTRY) entry out :
  forall cur, 0 <= cur -> fw_scan l entry 0 cur out = (0, out).
Proof.
  induction l as [| ne l IH]; intros cur Hcur; [reflexivity |].
  cbn [dn_scan]. change (0 <? 0) with false. cbn iota.
  destruct (negb _); [now apply IH |].
  destruct (Z.eqb_spec (cur + 1) 0); [lia |]. cbn [negb]. apply IH. lia.
Qed.

(** The scan writes to the buffer only when it returns 1. *)
Lemma dn_scan_untouched (l : list X509_NAME_ENTRY) entry pos out :
  forall cur,
    let r := fw_scan l entry pos cur out in
    (fst r = 0 \/ fst r = -1 \/ fst r = 1) /\ (fst r <> 1 -> snd r = out).
Proof.
  induction l as [| ne l IH]; intros cur; cbn [dn_scan]; [cbn; auto |].
  destruct (negb _); [apply IH |].
  destruct (negb _); [apply IH |].
  unfold dn_entry_copy.
  destruct (b_size out <? _); cbn [fst snd]; [auto | split; [auto | congruence]].
Qed.

(** X6. For a positive [pos], ssl_sock_get_dn_entry selects the [pos]-th
    matching attribute in encoding order ([pos = 1] is the first match);
    it returns 0 when there are fewer matches, -1 when the value of the
    match is longer than the capacity of the buffer, and 1 with the value
    as contents otherwise. *)
Theorem ssl_sock_get_dn_entry_positive (a : X509_NAME) (entry : buffer) (pos : Z)
    (out : buffer) :
  0 < pos -> buffer_wf out ->
  (forall ne, ne ∈ a -> asn1_wf (ne_value ne)) ->
  let r := ssl_sock_get_dn_entry OBJ_nid2sn chunk_strcasecmp a entry pos out in
  match fw_matches entry a !! Z.to_nat (pos - 1) with
  | None => r = (0, set_data out 0)
  | Some ne =>
      let len := asn1_length (ne_value ne) in
      (b_size out < len -> r = (-1, set_data out 0)) /\
      (len <= b_size out ->
         fst r = 1 /\ b_data (snd r) = len /\ contents (snd r) = asn1_data (ne_value ne))
  end.
Proof.
  intros Hpos Hwf Hvals r.
  assert (Hr : r = match fw_matches entry a !! Z.to_nat (pos - 1) with
                   | None => (0, set_data out 0)
                   | Some ne => dn_entry_copy ne (set_data out 0)
                   end).
  { subst r. unfold ssl_sock_get_dn_entry, X509_NAME_entry_count. rewrite Nat2Z.id.
    pose proof (dn_entry_loop_forward a entry pos (set_data out 0) ltac:(lia)
                  (length a) 0%nat 0 eq_refl) as Hloop.
    change (Z.of_nat 0) with 0 in Hloop. rewrite Hloop.
    rewrite drop_0, dn_scan_select_forward by lia.
    unfold dn_matches. replace (pos - 0 - 1) with (pos - 1) by lia. reflexivity. }
  rewrite Hr. clear Hr r.
  destruct (fw_matches entry a !! Z.to_nat (pos - 1)) as [ne |] eqn:Hsel; [| reflexivity].
  refine (dn_entry_copy_spec ne (set_data out 0) _ _).
  - destruct Hwf as (? & ? & ?). unfold buffer_wf. cbn. lia.
  - apply Hvals. apply list_elem_of_lookup_2 in Hsel.
    unfold dn_matches in Hsel. apply list_elem_of_filter in Hsel. tauto.
Qed.

(** X7. Whatever [pos] and the name, ssl_sock_get_dn_entry returns 0, -1
    or 1; unless it returns 1 it leaves the area as it was and [data] at
    0; and with [pos = 0] it returns 0. *)
Theorem ssl_sock_get_dn_entry_failure (a : X509_NAME) (entry : buffer) (pos : Z)
    (out : buffer) :
  let r := ssl_sock_get_dn_entry OBJ_nid2sn chunk_strcasecmp a entry pos out in
  (fst r = 0 \/ fst r = -1 \/ fst r = 1) /\
  (fst r <> 1 -> snd r = set_data out 0) /\
  (pos = 0 -> r = (0, set_data out 0)).
Proof.
  intros r.
  assert (Hr : r = fw_scan (if pos <? 0 then reverse a else a) entry pos 0 (set_data out 0)).
  { subst r. unfold ssl_sock_get_dn_entry, X509_NAME_entry_count. rewrite Nat2Z.id.
    destruct (Z.ltb_spec pos 0) as [Hneg | Hpos].
    - pose proof (dn_entry_loop_reverse OBJ_nid2sn chunk_strcasecmp a entry pos
                    (set_data out 0) Hneg (length a) 0%nat 0 eq_refl) as Hloop.
      change (Z.of_nat 0) with 0 in Hloop. now rewrite Hloop, drop_0.
    - pose proof (dn_entry_loop_forward a entry pos (set_data out 0) Hpos
                    (length a) 0%nat 0 eq_refl) as Hloop.
      change (Z.of_nat 0) with 0 in Hloop. now rewrite Hloop, drop_0. }
  rewrite Hr. clear Hr r.
  pose proof (dn_scan_untouched (if pos <? 0 then reverse a else a) entry pos
                (set_data out 0) 0) as [H1 H2].
  split; [exact H1 | split; [exact H2 |]].
  intros ->. change (0 <? 0) with false. cbn iota. apply dn_scan_zero. lia.
Qed.

End DistinguishedNameForward.

Lemma ssl_sock_get_dn_entry_positive_witness :
  let r := ssl_sock_get_dn_entry sample_nid2sn chunk_strcasecmp_model
             sample_name (chunk_of_string "cn") 2 out_16 in
  fst r = 1 /\ b_data (snd r) = 9 /\ contents (snd r) = bytes_of_string "b.example".
Proof.
  assert (Hwf : buffer_wf out_16) by (unfold buffer_wf; simpl; lia).
  assert (Hvals : forall ne, ne ∈ sample_name -> asn1_wf (ne_value ne)).
  { intros ne Hne. unfold sample_name in Hne.
    repeat (apply elem_of_cons in Hne; destruct Hne as [-> | Hne];
            [unfold asn1_wf, INT_MAX; simpl; lia |]).
    now apply elem_of_nil in Hne. }
  assert (Hpos : 0 < 2) by lia.
  pose proof (ssl_sock_get_dn_entry_positive sample_nid2sn chunk_strcasecmp_model
                sample_name (chunk_of_string "cn") 2 out_16 Hpos Hwf Hvals) as H.
  apply (proj2 H). simpl. lia.
Defined.

Lemma ssl_sock_get_dn_entry_failure_witness :
  ssl_sock_get_dn_entry sample_nid2sn chunk_strcasecmp_model
    sample_name (chunk_of_string "cn") 0 out_16 = (0, set_data out_16 0).
Proof.
  exact (proj2 (proj2 (ssl_sock_get_dn_entry_failure sample_nid2sn chunk_strcasecmp_model
                         sample_name (chunk_of_string "cn") 0 out_16)) eq_refl).
Defined.

(** ** ssl_sock_get_dn_oneline *)

Lemma strlen_bounds (s : list Z) : 0 <= strlen s <= Z.of_nat (length s).
Proof.
  induction s as [| c s IH]; cbn [strlen length]; [lia |].
  destruct (c =? 0); lia.
Qed.

Section OnelineProperties.

Variable OBJ_nid2sn : Z -> option (list Z).

Local Abbreviation render := (oneline OBJ_nid2sn).
Local Abbreviation render_entry := (oneline_entry OBJ_nid2sn).

Lemma oneline_entry_length (ne : X509_NAME_ENTRY) :
  asn1_wf (ne_value ne) ->
  zlength (render_entry ne)
  = 1 + strlen (entry_name OBJ_nid2sn (ne_object ne)) + 1 + asn1_length (ne_value ne).
Proof.
  intros [Hlen _]. unfold zlength, oneline_entry.
  pose proof (strlen_bounds (entry_name OBJ_nid2sn (ne_object ne))).
  cbn [length]. rewrite length_app, length_take. cbn [length]. lia.
Qed.

Lemma oneline_snoc (a : list X509_NAME_ENTRY) (ne : X509_NAME_ENTRY) :
  render (a ++ [ne]) = render a ++ render_entry ne.
Proof.
  unfold oneline. rewrite List.map_app, concat_app. cbn [List.map concat].
  now rewrite app_nil_r.
Qed.

Lemma oneline_take_S (a : list X509_NAME_ENTRY) (i : nat) (ne : X509_NAME_ENTRY) :
  a !! i = Some ne -> render (take (S i) a) = render (take i a) ++ render_entry ne.
Proof. intros H. rewrite (take_S_r _ _ _ H). apply oneline_snoc. Qed.

Lemma oneline_take_le (a : list X509_NAME_ENTRY) (k : nat) :
  zlength (render (take k a)) <= zlength (render a).
Proof.
  rewrite <- (take_drop k a) at 2. unfold oneline, zlength.
  rewrite List.map_app, concat_app, length_app. lia.
Qed.

(** The four writes of one iteration store the rendering of the entry at
    the write pointer. *)
Lemma oneline_entry_written (area : list Z) (p : Z) (ne : X509_NAME_ENTRY) :
  0 <= p -> asn1_wf (ne_value ne) ->
  let s := entry_name OBJ_nid2sn (ne_object ne) in
  let ln := strlen s in
  let a1 := store area p 0x2f in
  let a2 := memcpy a1 (p + 1) s ln in
  let a3 := store a2 (p + 1 + ln) 0x3d in
  memcpy a3 (p + 1 + ln + 1) (asn1_data (ne_value ne)) (asn1_length (ne_value ne))
  = list_inserts (Z.to_nat p) (render_entry ne) area.
Proof.
  intros Hp [Hlen _] s ln a1 a2 a3.
  pose proof (strlen_bounds s) as Hs. fold ln in Hs.
  unfold oneline_entry. fold s. fold ln.
  set (s' := take (Z.to_nat ln) s).
  assert (Hs' : length s' = Z.to_nat ln) by (unfold s'; rewrite length_take; lia).
  change (0x2f :: s' ++ 0x3d :: asn1_data (ne_value ne))
    with ([0x2f] ++ s' ++ [0x3d] ++ asn1_data (ne_value ne)).
  rewrite !list_inserts_app_l. cbn [length].
  unfold memcpy. rewrite Hlen, Nat2Z.id, firstn_all.
  replace (Z.to_nat (p + 1 + ln + 1)) with (1 + (length s' + (1 + Z.to_nat p)))%nat by lia.
  f_equal. subst a3. unfold store.
  replace (Z.to_nat (p + 1 + ln)) with (length s' + (1 + Z.to_nat p))%nat by lia.
  cbn [list_inserts]. f_equal. subst a2. unfold memcpy. fold s'.
  replace (Z.to_nat (p + 1)) with (1 + Z.to_nat p)%nat by lia.
  f_equal.
Qed.

(** The loop, from an iteration on: it ends at the first entry that does
    not fit, or at the end of the name. *)
Lemma dn_oneline_loop_spec (a : X509_NAME) :
  (forall ne, ne ∈ a -> name_entry_wf OBJ_nid2sn ne) ->
  forall (todo i : nat) (out : buffer),
    (i + todo = length a)%nat ->
    buffer_wf out -> b_size out <= INT_MAX -> buffer_inv out ->
    b_data out = zlength (render (take i a)) ->
    contents out = render (take i a) ->
    let r := dn_oneline_loop OBJ_nid2sn todo a (Z.of_nat i) (b_data out) (b_data out) out in
    exists k : nat,
      (k <= length a)%nat /\
      contents (snd r) = render (take k a) /\
      b_data (snd r) = zlength (render (take k a)) /\
      b_size (snd r) = b_size out /\ buffer_inv (snd r) /\
      ((k = length a /\ fst r = (if b_data (snd r) =? 0 then 0 else 1)) \/
       ((k < length a)%nat /\ fst r = -1 /\
        b_size out < zlength (render (take (S k) a)))).
Proof.
  intros Hwfa todo. induction todo as [| todo IH];
    intros i out Hi (Hsize & Hdata & Harea) Hmax Hinv Hd Hc r; subst r.
  - cbn [dn_oneline_loop fst snd]. exists i.
    repeat split; try assumption; lia.
  - cbn [dn_oneline_loop].
    destruct (lookup_lt_is_Some_2 a i) as [ne Hne]; [lia |].
    unfold X509_NAME_get_entry.
    destruct (Z.ltb_spec (Z.of_nat i) 0); [lia |].
    rewrite Nat2Z.id.
    change (a !! i) with (@lookup nat X509_NAME_ENTRY (list X509_NAME_ENTRY) _ i a).
    rewrite Hne.
    destruct (Hwfa ne) as [Hval Hname]; [eapply list_elem_of_lookup_2; exact Hne |].
    pose proof (oneline_entry_length ne Hval) as Hel.
    pose proof (strlen_bounds (entry_name OBJ_nid2sn (ne_object ne))) as Hs.
    pose proof (oneline_take_S a i ne Hne) as Hsnoc.
    assert (HlenS : zlength (render (take (S i) a))
                    = b_data out + zlength (render_entry ne))
      by (rewrite Hsnoc, Hd; unfold zlength; rewrite length_app; lia).
    destruct Hval as [Hvlen Hvmax]. unfold INT_MAX, buffer_inv in *.
    set (l' := b_data out + (1 + strlen (entry_name OBJ_nid2sn (ne_object ne)) + 1
                             + asn1_length (ne_value ne))).
    assert (Hl' : l' = zlength (render (take (S i) a))) by (unfold l'; lia).
    rewrite (to_size_t_small l') by (unfold l'; lia).
    destruct (Z.ltb_spec (b_size out) l') as [Hover | Hfit].
    + cbn [fst snd]. exists i.
      repeat split; try assumption; lia.
    + rewrite oneline_entry_written by (try lia; split; assumption).
      set (out' := set_area (set_data out l') _).
      assert (Hc' : contents out' = render (take (S i) a)).
      { unfold contents, out'. cbn [b_data b_area set_data set_area].
        rewrite Hsnoc, <- Hc.
        replace l' with (b_data out + Z.of_nat (length (render_entry ne)))
          by (unfold zlength in *; lia).
        apply contents_append; [unfold buffer_wf; lia | unfold zlength in *; lia]. }
      assert (Hd' : b_data out' = l') by reflexivity.
      replace (b_data out + 1 + strlen (entry_name OBJ_nid2sn (ne_object ne)) + 1
               + asn1_length (ne_value ne)) with (b_data out') by (rewrite Hd'; unfold l'; lia).
      replace l' with (b_data out') at 1 by exact Hd'.
      replace (Z.of_nat i + 1) with (Z.of_nat (S i)) by lia.
      assert (Hwf' : buffer_wf out').
      { unfold buffer_wf, out'. cbn [b_size b_data b_area set_data set_area].
        rewrite length_inserts. lia. }
      assert (Hinv' : buffer_inv out') by (unfold buffer_inv; rewrite Hd'; exact Hfit).
      assert (Hd'' : b_data out' = zlength (render (take (S i) a)))
        by (rewrite Hd'; exact Hl').
      destruct (IH (S i) out' ltac:(lia) Hwf' Hmax Hinv' Hd'' Hc')
        as (k & Hk & H1 & H2 & H3 & H4 & H5).
      exists k. repeat split; assumption.
Qed.

(** X8. ssl_sock_get_dn_oneline writes [/name=value] for the entries in
    encoding order.  When the whole rendering fits, it is the contents,
    [data] is its length, and the result is 1, or 0 for an empty name.
    When it does not fit the result is -1 and the buffer holds the
    rendering of the entries before the first one that goes past the
    capacity, with [data] the length of that part. *)
Theorem ssl_sock_get_dn_oneline_spec (a : X509_NAME) (out : buffer) :
  buffer_wf out -> b_size out <= INT_MAX ->
  (forall ne, ne ∈ a -> name_entry_wf OBJ_nid2sn ne) ->
  let r := ssl_sock_get_dn_oneline OBJ_nid2sn a out in
  (zlength (render a) <= b_size out ->
     contents (snd r) = render a /\ b_data (snd r) = zlength (render a) /\
     (a = [] -> fst r = 0) /\ (a <> [] -> fst r = 1)) /\
  (b_size out < zlength (render a) ->
     fst r = -1 /\
     exists k : nat, (k < length a)%nat /\
       contents (snd r) = render (take k a) /\
       b_data (snd r) = zlength (render (take k a)) /\
       zlength (render (take k a)) <= b_size out < zlength (render (take (S k) a))).
Proof.
  intros Hwf Hmax Hwfa r.
  pose proof Hwf as (Hsize & Hdata & Harea).
  assert (Hwf0 : buffer_wf (set_data out 0)) by (unfold buffer_wf; cbn; lia).
  pose proof (dn_oneline_loop_spec a Hwfa (length a) 0%nat (set_data out 0) eq_refl Hwf0
                Hmax ltac:(unfold buffer_inv; cbn; lia) eq_refl eq_refl) as Hloop.
  cbn zeta in Hloop.
  change (dn_oneline_loop OBJ_nid2sn (length a) a (Z.of_nat 0)
            (b_data (set_data out 0)) (b_data (set_data out 0)) (set_data out 0))
    with (dn_oneline_loop OBJ_nid2sn (length a) a 0 0 0 (set_data out 0)) in Hloop.
  assert (Hr : r = dn_oneline_loop OBJ_nid2sn (length a) a 0 0 0 (set_data out 0))
    by (subst r; unfold ssl_sock_get_dn_oneline, X509_NAME_entry_count;
        now rewrite Nat2Z.id).
  rewrite Hr. clear Hr r.
  destruct Hloop as (k & Hk & Hc & Hd & Hs & Hinv & Hend).
  change (b_size (set_data out 0)) with (b_size out) in *.
  pose proof (oneline_take_le a (S k)) as Hle.
  split.
  - intros Hfit. destruct Hend as [[-> Hret] | (Hlt & _ & Hover)]; [| lia].
    rewrite take_ge in Hc, Hd by lia.
    split; [exact Hc | split; [exact Hd |]]. rewrite Hret, Hd. split.
    + intros ->. reflexivity.
    + intros Hne. destruct a as [| ne a]; [congruence |].
      unfold zlength, oneline, oneline_entry. cbn [List.map concat length app].
      match goal with |- context [?x =? 0] => destruct (Z.eqb_spec x 0) end;
        [lia | reflexivity].
  - intros Hover. destruct Hend as [[-> Hret] | (Hlt & Hret & Hover')].
    + rewrite take_ge in Hd by lia. unfold buffer_inv in Hinv. lia.
    + split; [exact Hret |]. exists k. unfold buffer_inv in Hinv.
      repeat split; try assumption; lia.
Qed.

End OnelineProperties.

Lemma ssl_sock_get_dn_oneline_spec_witness :
  let a := [name_entry 13 "example.com"; name_entry 17 "Acme"] in
  let r := ssl_sock_get_dn_oneline sample_nid2sn a out_16 in
  fst r = -1 /\
  exists k : nat, (k < 2)%nat /\
    contents (snd r) = oneline sample_nid2sn (take k a) /\
    b_data (snd r) = zlength (oneline sample_nid2sn (take k a)) /\
    zlength (oneline sample_nid2sn (take k a)) <= 16
      < zlength (oneline sample_nid2sn (take (S k) a)).
Proof.
  intros a.
  assert (Hwf : buffer_wf out_16) by (unfold buffer_wf; simpl; lia).
  assert (Hmax : b_size out_16 <= INT_MAX) by (unfold INT_MAX; simpl; lia).
  assert (Hwfa : forall ne, ne ∈ a -> name_entry_wf sample_nid2sn ne).
  { intros ne Hne. unfold a in Hne.
    repeat (apply elem_of_cons in Hne; destruct Hne as [-> | Hne];
            [unfold name_entry_wf, asn1_wf, INT_MAX; simpl; lia |]).
    now apply elem_of_nil in Hne. }
  refine (proj2 (ssl_sock_get_dn_oneline_spec sample_nid2sn a out_16 Hwf Hmax Hwfa) _).
  vm_compute. reflexivity.
Defined.

(** ** ssl_sock_get_verified_chain_root, with a self-issued entry *)

Section VerifiedChainSelfIssued.

Variable X509_check_issued : X509 -> X509 -> Z.

Lemma chain_root_loop_first (pre post : list X509) (c : X509) (crt : option X509) :
  forall done_ : list X509,
    (forall c', c' ∈ pre -> X509_check_issued c' c' <> X509_V_OK) ->
    X509_check_issued c c = X509_V_OK ->
    chain_root_loop X509_check_issued (length (pre ++ c :: post))
                    (done_ ++ pre ++ c :: post) (Z.of_nat (length done_)) crt
    = Some c.
Proof.
  revert crt. induction pre as [| c0 pre IH]; intros crt done_ Hno Hok.
  - cbn [app length chain_root_loop]. rewrite sk_X509_value_middle.
    now rewrite Hok, Z.eqb_refl.
  - cbn [app length chain_root_loop]. rewrite sk_X509_value_middle.
    destruct (Z.eqb_spec (X509_check_issued c0 c0) X509_V_OK) as [E | _].
    { exfalso. apply (Hno c0); [left | exact E]. }
    replace (done_ ++ c0 :: pre ++ c :: post) with ((done_ ++ [c0]) ++ pre ++ c :: post)
      by now rewrite <- app_assoc.
    replace (Z.of_nat (length done_) + 1) with (Z.of_nat (length (done_ ++ [c0])))
      by (rewrite length_app; simpl; lia).
    apply IH; [| exact Hok]. intros c' Hc'. apply Hno. now right.
Qed.

(** X9. When the verified chain has a self-issued certificate, the
    function returns the first one, whatever follows it in the chain. *)
Theorem ssl_sock_get_verified_chain_root_first (ssl : SSL) (pre post : list X509)
    (c : X509) :
  SSL_get0_verified_chain ssl = Some (pre ++ c :: post) ->
  (forall c', c' ∈ pre -> X509_check_issued c' c' <> X509_V_OK) ->
  X509_check_issued c c = X509_V_OK ->
  ssl_sock_get_verified_chain_root X509_check_issued ssl = Some c.
Proof.
  intros Hchain Hno Hok.
  unfold ssl_sock_get_verified_chain_root, sk_X509_num. rewrite Hchain, Nat2Z.id.
  exact (chain_root_loop_first pre post c None [] Hno Hok).
Qed.

End VerifiedChainSelfIssued.

Lemma ssl_sock_get_verified_chain_root_first_witness :
  ssl_sock_get_verified_chain_root check_issued_no_serial
    (MkSSL (Some [crt_leaf; crt_root; crt_intermediate])) = Some crt_root.
Proof.
  refine (ssl_sock_get_verified_chain_root_first check_issued_no_serial
            (MkSSL (Some [crt_leaf; crt_root; crt_intermediate]))
            [crt_leaf] [crt_intermediate] crt_root eq_refl _ eq_refl).
  intros c' Hc'. apply list_elem_of_singleton in Hc' as ->. discriminate.
Defined.

(** ** openssl_version_parser, branch by branch *)

Lemma openssl_version_parser_stages (p : list Z) :
  peek p <> 0 ->
  openssl_version_parser (Some p)
  = let '(v, e) := strtol p in
    let major := to_uint v in
    if negb (peek e =? 0x2e) || (0xf <? major) then 0
    else version_after_major major (tl e).
Proof.
  intros Hp. unfold openssl_version_parser, version_after_major, version_after_minor,
    version_tail.
  destruct (Z.eqb_spec (peek p) 0); [contradiction |].
  destruct (strtol p) as [v e].
  destruct (negb _ || _); [reflexivity |].
  destruct (strtol (tl e)) as [v1 e1].
  destruct (negb _ || _); [reflexivity |].
  destruct (strtol (tl e1)) as [v2 e2].
  destruct (_ <? _); [reflexivity |].
  destruct (peek e2 =? 0); [reflexivity |].
  destruct (peek e2 =? 0x2d); [| reflexivity].
  destruct (strncmp _ _ _ =? 0); [| reflexivity].
  now destruct (strtol (drop 4 (tl e2))).
Qed.

Lemma peek_digits_nonzero (ds rest : list Z) : digits ds -> peek (ds ++ rest) <> 0.
Proof.
  intros Hds E. pose proof (peek_digits ds rest Hds) as H. rewrite E in H. discriminate.
Qed.

Lemma field_value_small (ds : list Z) (bound : Z) :
  digits ds -> decimal_value ds <= bound -> bound <= 0xff ->
  field_value ds = decimal_value ds.
Proof.
  intros Hds Hle Hb. pose proof (decimal_value_nonneg ds Hds).
  unfold field_value, clamp_long, LONG_MIN, LONG_MAX.
  destruct (Z.ltb_spec (decimal_value ds) (- 2 ^ 63)); [lia |].
  destruct (Z.ltb_spec (2 ^ 63 - 1) (decimal_value ds)); [lia |].
  unfold to_uint. apply Z.mod_small. lia.
Qed.

(** The three numeric fields: each is read by strtol, truncated to an
    [unsigned int] and compared with its limit. *)
Lemma openssl_version_parser_fields (ma mi fx rest : list Z) :
  digits ma -> digits mi -> digits fx -> isdigit (peek rest) = false ->
  openssl_version_parser (version_text ma mi fx rest)
  = if 0xf <? field_value ma then 0
    else if 0xff <? field_value mi then 0
    else if 0xff <? field_value fx then 0
    else version_tail (field_value ma) (field_value mi) (field_value fx) rest.
Proof.
  intros Hma Hmi Hfx Hrest. unfold version_text.
  change (bytes_of_string ".") with [0x2e]. cbn [app].
  rewrite openssl_version_parser_stages by now apply peek_digits_nonzero.
  rewrite strtol_decimal by (auto; reflexivity). fold (field_value ma).
  cbn [peek tl]. rewrite Z.eqb_refl. cbn [negb orb].
  destruct (0xf <? field_value ma); [reflexivity |].
  unfold version_after_major.
  rewrite strtol_decimal by (auto; reflexivity). fold (field_value mi).
  cbn [peek tl]. rewrite Z.eqb_refl. cbn [negb orb].
  destruct (0xff <? field_value mi); [reflexivity |].
  unfold version_after_minor.
  rewrite strtol_decimal by auto. fold (field_value fx). reflexivity.
Qed.

Lemma leb_false_of_le (a b : Z) : b <= a -> (a <? b) = false.
Proof. intros H. apply Z.ltb_ge. exact H. Qed.

(** The same with fields inside their limits. *)
Lemma openssl_version_parser_tail (ma mi fx rest : list Z) :
  digits ma -> digits mi -> digits fx -> isdigit (peek rest) = false ->
  decimal_value ma <= 0xf -> decimal_value mi <= 0xff -> decimal_value fx <= 0xff ->
  openssl_version_parser (version_text ma mi fx rest)
  = version_tail (decimal_value ma) (decimal_value mi) (decimal_value fx) rest.
Proof.
  intros Hma Hmi Hfx Hrest Bma Bmi Bfx.
  rewrite openssl_version_parser_fields by assumption.
  rewrite (field_value_small ma 0xf), (field_value_small mi 0xff),
    (field_value_small fx 0xff) by (assumption || lia).
  now rewrite !leb_false_of_le by lia.
Qed.

(** Packing is positional. *)
Lemma lor_shiftl_add (hi lo k : Z) :
  0 <= k -> 0 <= lo < 2 ^ k -> Z.lor (Z.shiftl hi k) lo = hi * 2 ^ k + lo.
Proof.
  intros Hk Hlo.
  assert (Hland : Z.land (Z.shiftl hi k) lo = 0).
  { apply Z.bits_inj'. intros n Hn. rewrite Z.land_spec, Z.bits_0.
    destruct (Z.lt_ge_cases n k) as [Hlt | Hge].
    - rewrite Z.shiftl_spec_low by lia. reflexivity.
    - rewrite <- (Z.mod_small lo (2 ^ k)) by lia.
      rewrite Z.mod_pow2_bits_high by lia. apply andb_false_r. }
  rewrite <- Z.lxor_lor by exact Hland.
  rewrite <- Z.add_nocarry_lxor by exact Hland.
  now rewrite Z.shiftl_mul_pow2.
Qed.

Lemma land_small (x n : Z) : 0 <= n -> 0 <= x < 2 ^ n -> Z.land x (Z.ones n) = x.
Proof. intros Hn Hx. rewrite Z.land_ones by lia. now apply Z.mod_small. Qed.

Lemma numversion_sum (major minor fix_ patch status : Z) :
  0 <= major <= 0xf -> 0 <= minor <= 0xff -> 0 <= fix_ <= 0xff ->
  0 <= patch <= 0xff -> 0 <= status <= 0xf ->
  numversion major minor fix_ patch status
  = major * 2 ^ 28 + minor * 2 ^ 20 + fix_ * 2 ^ 12 + patch * 2 ^ 4 + status.
Proof.
  intros HM Hm Hf Hp Hs. unfold numversion.
  change 0xf with (Z.ones 4). change 0xff with (Z.ones 8).
  rewrite !land_small by (change (Z.ones 4) with 15 in *; change (Z.ones 8) with 255 in *; lia).
  change (Z.ones 4) with 15 in *. change (Z.ones 8) with 255 in *.
  rewrite (lor_shiftl_add patch status 4) by lia.
  rewrite (lor_shiftl_add fix_ _ 12) by lia.
  rewrite (lor_shiftl_add minor _ 20) by lia.
  rewrite (lor_shiftl_add major _ 28) by lia.
  lia.
Qed.

Lemma version_fields_numversion (major minor fix_ patch status : Z) :
  0 <= major <= 0xf -> 0 <= minor <= 0xff -> 0 <= fix_ <= 0xff ->
  0 <= patch <= 0xff -> 0 <= status <= 0xf ->
  let v := numversion major minor fix_ patch status in
  version_major v = major /\ version_minor v = minor /\ version_fix v = fix_ /\
  version_patch v = patch /\ version_status v = status.
Proof.
  intros HM Hm Hf Hp Hs v. subst v.
  rewrite numversion_sum by assumption.
  unfold version_major, version_minor, version_fix, version_patch, version_status.
  change 0xf with (Z.ones 4). change 0xff with (Z.ones 8).
  rewrite !Z.land_ones, !Z.shiftr_div_pow2 by lia.
  change (Z.ones 4) with 15 in *. change (Z.ones 8) with 255 in *.
  repeat split; Z.div_mod_to_equations; lia.
Qed.

Lemma digits_one (c : Z) : isdigit c = true -> digits [c].
Proof. intros Hc. split; [discriminate | repeat constructor; exact Hc]. Qed.

Lemma digits_string (s : string) :
  bytes_of_string s <> [] ->
  forallb isdigit (bytes_of_string s) = true -> digits (bytes_of_string s).
Proof.
  intros Hne Hall. split; [exact Hne |].
  apply Forall_forall. intros c Hc. rewrite List.forallb_forall in Hall.
  apply Hall. now apply list_elem_of_In.
Qed.

(** X10. A release string [MAJOR.MINOR.FIX] with fields inside their
    limits is packed with patch 0 and status 0xF, and the five fields read
    back from the packed number are the ones of the string. *)
Theorem openssl_version_parser_release (ma mi fx : list Z) :
  digits ma -> digits mi -> digits fx ->
  decimal_value ma <= 0xf -> decimal_value mi <= 0xff -> decimal_value fx <= 0xff ->
  let v := openssl_version_parser (version_text ma mi fx []) in
  v = decimal_value ma * 2 ^ 28 + decimal_value mi * 2 ^ 20 + decimal_value fx * 2 ^ 12 + 0xf /\
  version_major v = decimal_value ma /\ version_minor v = decimal_value mi /\
  version_fix v = decimal_value fx /\ version_patch v = 0 /\ version_status v = 0xf.
Proof.
  intros Hma Hmi Hfx Bma Bmi Bfx v.
  pose proof (decimal_value_nonneg ma Hma). pose proof (decimal_value_nonneg mi Hmi).
  pose proof (decimal_value_nonneg fx Hfx).
  assert (Hv : v = numversion (decimal_value ma) (decimal_value mi) (decimal_value fx) 0 0xf)
    by (subst v; now rewrite openssl_version_parser_tail by (auto; reflexivity)).
  rewrite Hv. split.
  - rewrite numversion_sum by lia. lia.
  - apply version_fields_numversion; lia.
Qed.

Lemma openssl_version_parser_release_witness :
  let v := openssl_version_parser (version_string "1.1.1") in
  v = 0x1010100f /\ version_major v = 1 /\ version_minor v = 1 /\ version_fix v = 1 /\
  version_patch v = 0 /\ version_status v = 0xf.
Proof.
  refine (openssl_version_parser_release [0x31] [0x31] [0x31]
            (digits_one 0x31 eq_refl) (digits_one 0x31 eq_refl) (digits_one 0x31 eq_refl)
            _ _ _);
    vm_compute; discriminate.
Defined.

Lemma field_value_uint (ds : list Z) :
  digits ds -> decimal_value ds < 2 ^ 32 -> field_value ds = decimal_value ds.
Proof.
  intros Hds Hlt. pose proof (decimal_value_nonneg ds Hds).
  unfold field_value, clamp_long, LONG_MIN, LONG_MAX.
  destruct (Z.ltb_spec (decimal_value ds) (- 2 ^ 63)); [lia |].
  destruct (Z.ltb_spec (2 ^ 63 - 1) (decimal_value ds)); [lia |].
  unfold to_uint. apply Z.mod_small. lia.
Qed.

(** The branch taken after a hyphen and "beta". *)
Lemma version_tail_beta (major minor fix_ : Z) (nb junk : list Z) :
  digits nb -> isdigit (peek junk) = false ->
  version_tail major minor fix_ (bytes_of_string "-beta" ++ nb ++ junk)
  = if 14 <? field_value nb then 0
    else numversion major minor fix_ 0 (field_value nb).
Proof.
  intros Hnb Hjunk.
  unfold version_tail. change (bytes_of_string "-beta") with [0x2d; 0x62; 0x65; 0x74; 0x61].
  change (bytes_of_string "beta") with [0x62; 0x65; 0x74; 0x61].
  cbn [app peek tl drop strncmp].
  change (0x2d =? 0) with false. change (0x2d =? 0x2d) with true.
  change (0x62 =? 0x62) with true. change (0x65 =? 0x65) with true.
  change (0x74 =? 0x74) with true. change (0x61 =? 0x61) with true.
  change (0x62 =? 0) with false. change (0x65 =? 0) with false.
  change (0x74 =? 0) with false. change (0x61 =? 0) with false.
  cbn iota. change (0 =? 0) with true. cbn iota. rewrite drop_0.
  rewrite strtol_decimal by assumption. reflexivity.
Qed.

(** The branch taken after a hyphen and anything else. *)
Lemma version_tail_dev (major minor fix_ : Z) (suffix : list Z) :
  take 4 suffix <> bytes_of_string "beta" ->
  version_tail major minor fix_ (bytes_of_string "-" ++ suffix)
  = numversion major minor fix_ 0 0.
Proof.
  intros Hsuffix. unfold version_tail. change (bytes_of_string "-") with [0x2d].
  cbn [app peek tl]. change (0x2d =? 0) with false. change (0x2d =? 0x2d) with true.
  cbn iota.
  destruct (Z.eqb_spec (strncmp suffix (bytes_of_string "beta") 4) 0) as [E | _];
    [| reflexivity].
  apply strncmp_beta in E. contradiction.
Qed.

(** X11. After [MAJOR.MINOR.FIX-beta] the digits that follow give the
    status nibble when their value is at most 14, whatever comes after
    them, and the patch field is 0; a value from 15 to 2^32 - 1 makes the
    parser fail with 0. *)
Theorem openssl_version_parser_beta (ma mi fx nb junk : list Z) :
  digits ma -> digits mi -> digits fx -> digits nb ->
  decimal_value ma <= 0xf -> decimal_value mi <= 0xff -> decimal_value fx <= 0xff ->
  isdigit (peek junk) = false ->
  let v := openssl_version_parser
             (version_text ma mi fx (bytes_of_string "-beta" ++ nb ++ junk)) in
  (decimal_value nb <= 14 ->
     v = numversion (decimal_value ma) (decimal_value mi) (decimal_value fx) 0
                    (decimal_value nb) /\
     version_status v = decimal_value nb /\ version_patch v = 0) /\
  (14 < decimal_value nb < 2 ^ 32 -> v = 0).
Proof.
  intros Hma Hmi Hfx Hnb Bma Bmi Bfx Hjunk v.
  pose proof (decimal_value_nonneg ma Hma). pose proof (decimal_value_nonneg mi Hmi).
  pose proof (decimal_value_nonneg fx Hfx). pose proof (decimal_value_nonneg nb Hnb) as Hn0.
  assert (Hv : v = if 14 <? field_value nb then 0
                   else numversion (decimal_value ma) (decimal_value mi) (decimal_value fx)
                                   0 (field_value nb)).
  { subst v. rewrite openssl_version_parser_tail by (auto; reflexivity).
    now apply version_tail_beta. }
  assert (Hfv : decimal_value nb < 2 ^ 32 -> field_value nb = decimal_value nb)
    by now apply field_value_uint.
  split.
  - intros Hle. rewrite Hfv in Hv by lia.
    rewrite leb_false_of_le in Hv by lia. rewrite Hv.
    split; [reflexivity |].
    pose proof (version_fields_numversion (decimal_value ma) (decimal_value mi)
                  (decimal_value fx) 0 (decimal_value nb)
                  ltac:(lia) ltac:(lia) ltac:(lia) ltac:(lia) ltac:(lia))
      as (_ & _ & _ & Hp & Hs).
    split; assumption.
  - intros Hgt. rewrite Hfv in Hv by lia.
    destruct (Z.ltb_spec 14 (decimal_value nb)); [exact Hv | lia].
Qed.

Lemma openssl_version_parser_beta_witness :
  let v := openssl_version_parser (version_string "3.0.0-beta2-dev") in
  v = 0x30000002 /\ version_status v = 2 /\ version_patch v = 0.
Proof.
  refine (proj1 (openssl_version_parser_beta [0x33] [0x30] [0x30] [0x32]
            (bytes_of_string "-dev")
            (digits_one 0x33 eq_refl) (digits_one 0x30 eq_refl) (digits_one 0x30 eq_refl)
            (digits_one 0x32 eq_refl) _ _ _ eq_refl) _);
    vm_compute; discriminate.
Defined.

(** X12. For fields inside their limits the packed number is
    [major * 2^28 + minor * 2^20 + fix * 2^12 + patch * 2^4 + status], it
    fits 32 bits, and each field is read back from its bits. *)
Theorem numversion_layout (major minor fix_ patch status : Z) :
  0 <= major <= 0xf -> 0 <= minor <= 0xff -> 0 <= fix_ <= 0xff ->
  0 <= patch <= 0xff -> 0 <= status <= 0xf ->
  let v := numversion major minor fix_ patch status in
  v = major * 2 ^ 28 + minor * 2 ^ 20 + fix_ * 2 ^ 12 + patch * 2 ^ 4 + status /\
  0 <= v < 2 ^ 32 /\
  version_major v = major /\ version_minor v = minor /\ version_fix v = fix_ /\
  version_patch v = patch /\ version_status v = status.
Proof.
  intros HM Hm Hf Hp Hs v.
  pose proof (numversion_sum major minor fix_ patch status HM Hm Hf Hp Hs) as Hsum.
  split; [exact Hsum | split].
  - subst v. rewrite Hsum. lia.
  - now apply version_fields_numversion.
Qed.

Lemma numversion_layout_witness :
  let v := numversion 1 0 2 21 0xf in
  v = 1 * 2 ^ 28 + 0 * 2 ^ 20 + 2 * 2 ^ 12 + 21 * 2 ^ 4 + 0xf /\
  0 <= v < 2 ^ 32 /\
  version_major v = 1 /\ version_minor v = 0 /\ version_fix v = 2 /\
  version_patch v = 21 /\ version_status v = 0xf.
Proof. apply (numversion_layout 1 0 2 21 0xf); lia. Defined.

(** X13. Packed numbers of fields inside their limits compare as the
    tuples (major, minor, fix, patch, status) compare in lexicographic
    order. *)
Theorem numversion_order (M1 m1 f1 p1 s1 M2 m2 f2 p2 s2 : Z) :
  0 <= M1 <= 0xf -> 0 <= m1 <= 0xff -> 0 <= f1 <= 0xff -> 0 <= p1 <= 0xff -> 0 <= s1 <= 0xf ->
  0 <= M2 <= 0xf -> 0 <= m2 <= 0xff -> 0 <= f2 <= 0xff -> 0 <= p2 <= 0xff -> 0 <= s2 <= 0xf ->
  numversion M1 m1 f1 p1 s1 < numversion M2 m2 f2 p2 s2 <->
  M1 < M2 \/ (M1 = M2 /\ (m1 < m2 \/ (m1 = m2 /\ (f1 < f2 \/ (f1 = f2 /\
    (p1 < p2 \/ (p1 = p2 /\ s1 < s2))))))).
Proof.
  intros. rewrite !numversion_sum by assumption. lia.
Qed.

Lemma numversion_order_witness :
  numversion 1 1 1 23 0xf < numversion 3 0 0 0 0 <->
  1 < 3 \/ (1 = 3 /\ (1 < 0 \/ (1 = 0 /\ (1 < 0 \/ (1 = 0 /\
    (23 < 0 \/ (23 = 0 /\ 0xf < 0))))))).
Proof. apply (numversion_order 1 1 1 23 0xf 3 0 0 0 0); lia. Defined.

(** X14. For the same [MAJOR.MINOR.FIX], a development version (a hyphen
    followed by something other than "beta") packs below every beta from
    1 to 14, which packs below the release. *)
Theorem openssl_version_parser_prerelease_order (ma mi fx suffix nb junk : list Z) :
  digits ma -> digits mi -> digits fx -> digits nb ->
  decimal_value ma <= 0xf -> decimal_value mi <= 0xff -> decimal_value fx <= 0xff ->
  take 4 suffix <> bytes_of_string "beta" ->
  1 <= decimal_value nb <= 14 -> isdigit (peek junk) = false ->
  openssl_version_parser (version_text ma mi fx (bytes_of_string "-" ++ suffix))
  < openssl_version_parser (version_text ma mi fx (bytes_of_string "-beta" ++ nb ++ junk))
  < openssl_version_parser (version_text ma mi fx []).
Proof.
  intros Hma Hmi Hfx Hnb Bma Bmi Bfx Hsuffix Bnb Hjunk.
  pose proof (decimal_value_nonneg ma Hma). pose proof (decimal_value_nonneg mi Hmi).
  pose proof (decimal_value_nonneg fx Hfx).
  rewrite !openssl_version_parser_tail by (auto; reflexivity).
  rewrite version_tail_dev by exact Hsuffix.
  rewrite version_tail_beta by assumption.
  rewrite field_value_uint by (auto; lia).
  rewrite leb_false_of_le by lia.
  change (version_tail (decimal_value ma) (decimal_value mi) (decimal_value fx) [])
    with (numversion (decimal_value ma) (decimal_value mi) (decimal_value fx) 0 0xf).
  rewrite !numversion_sum by lia. lia.
Qed.

Lemma openssl_version_parser_prerelease_order_witness :
  openssl_version_parser (version_string "3.0.0-alpha17")
  < openssl_version_parser (version_string "3.0.0-beta1")
  < openssl_version_parser (version_string "3.0.0").
Proof.
  refine (openssl_version_parser_prerelease_order [0x33] [0x30] [0x30]
            (bytes_of_string "alpha17") [0x31] []
            (digits_one 0x33 eq_refl) (digits_one 0x30 eq_refl) (digits_one 0x30 eq_refl)
            (digits_one 0x31 eq_refl) _ _ _ _ _ eq_refl);
    vm_compute; try discriminate; split; discriminate.
Defined.

(** X15. The parser returns 0 for a NULL or empty string, for a first
    field that is not followed by a dot, and for a field whose value, as
    the [unsigned int] it is stored in, is above its limit (15 for the
    major, 255 for the minor and the fix). *)
Theorem openssl_version_parser_rejects :
  openssl_version_parser None = 0 /\
  openssl_version_parser (Some []) = 0 /\
  (forall ma rest, digits ma -> isdigit (peek rest) = false -> peek rest <> 0x2e ->
     openssl_version_parser (Some (ma ++ rest)) = 0) /\
  (forall ma mi fx rest,
     digits ma -> digits mi -> digits fx -> isdigit (peek rest) = false ->
     0xf < field_value ma \/ 0xff < field_value mi \/ 0xff < field_value fx ->
     openssl_version_parser (version_text ma mi fx rest) = 0).
Proof.
  split; [reflexivity | split; [reflexivity | split]].
  - intros ma rest Hma Hrest Hdot.
    rewrite openssl_version_parser_stages by now apply peek_digits_nonzero.
    rewrite strtol_decimal by assumption.
    destruct (Z.eqb_spec (peek rest) 0x2e); [contradiction | reflexivity].
  - intros ma mi fx rest Hma Hmi Hfx Hrest Hover.
    rewrite openssl_version_parser_fields by assumption.
    destruct (Z.ltb_spec 0xf (field_value ma)); [reflexivity |].
    destruct (Z.ltb_spec 0xff (field_value mi)); [reflexivity |].
    destruct (Z.ltb_spec 0xff (field_value fx)); [reflexivity | lia].
Qed.

Lemma openssl_version_parser_rejects_witness :
  openssl_version_parser (version_string "9999.0.0") = 0 /\
  openssl_version_parser (version_string "3-0-0") = 0.
Proof.
  pose proof openssl_version_parser_rejects as (_ & _ & Hdot & Hover).
  split.
  - refine (Hover (bytes_of_string "9999") [0x30] [0x30] []
              (digits_string "9999" _ eq_refl) (digits_one 0x30 eq_refl)
              (digits_one 0x30 eq_refl) eq_refl _).
    + discriminate.
    + left. vm_compute. reflexivity.
  - refine (Hdot [0x33] (bytes_of_string "-0-0") (digits_one 0x33 eq_refl) eq_refl _).
    vm_compute. discriminate.
Defined.

(** X16. The limits are tested after the conversion of the [long] that
    strtol returns to [unsigned int]: a major written as a number that
    fits [long] and is at most 15 modulo 2^32 is accepted as that
    residue. *)
Theorem openssl_version_parser_major_wraps (ma mi fx rest : list Z) :
  digits ma -> digits mi -> digits fx -> isdigit (peek rest) = false ->
  decimal_value ma <= LONG_MAX -> decimal_value ma mod 2 ^ 32 <= 0xf ->
  decimal_value mi <= 0xff -> decimal_value fx <= 0xff ->
  openssl_version_parser (version_text ma mi fx rest)
  = version_tail (decimal_value ma mod 2 ^ 32) (decimal_value mi) (decimal_value fx) rest.
Proof.
  intros Hma Hmi Hfx Hrest Hlong Hmod Bmi Bfx.
  pose proof (decimal_value_nonneg ma Hma).
  rewrite openssl_version_parser_fields by assumption.
  assert (Hf : field_value ma = decimal_value ma mod 2 ^ 32).
  { unfold field_value, clamp_long, LONG_MIN, LONG_MAX in *.
    destruct (Z.ltb_spec (decimal_value ma) (- 2 ^ 63)); [lia |].
    destruct (Z.ltb_spec (2 ^ 63 - 1) (decimal_value ma)); [lia | reflexivity]. }
  rewrite Hf, (field_value_small mi 0xff), (field_value_small fx 0xff) by (assumption || lia).
  now rewrite !leb_false_of_le by lia.
Qed.

Lemma openssl_version_parser_major_wraps_witness :
  openssl_version_parser (version_string "4294967299.0.0") = 0x3000000f.
Proof.
  refine (openssl_version_parser_major_wraps (bytes_of_string "4294967299") [0x30] [0x30] []
            (digits_string "4294967299" _ eq_refl) (digits_one 0x30 eq_refl)
            (digits_one 0x30 eq_refl) eq_refl _ _ _ _);
    vm_compute; discriminate.
Defined.

(** ** exclude_tls_grease on a buffer of any capacity from 2 *)

Lemma grease_spec_short (l : list Z) : (length l <= 1)%nat -> grease_spec l = l.
Proof. destruct l as [| a [| b l]]; cbn; intros; try reflexivity; lia. Qed.

(** The loop ends at the end of the input, or at the first pair to keep
    for which fewer than two bytes are free. *)
Lemma grease_loop_general (input : list Z) :
  bytes input ->
  forall (fuel : nat) (ptr : Z) (out : buffer),
    0 <= ptr <= Z.of_nat (length input) ->
    Z.of_nat (length input) - ptr <= Z.of_nat fuel ->
    buffer_wf out -> 2 <= b_size out -> buffer_inv out ->
    let r := grease_loop fuel input (Z.of_nat (length input)) ptr out in
    exists kept,
      grease_spec (drop (Z.to_nat ptr) input)
      = kept ++ grease_spec (drop (Z.to_nat (fst r)) input) /\
      0 <= fst r <= Z.of_nat (length input) /\
      buffer_wf (snd r) /\ b_size (snd r) = b_size out /\
      b_data (snd r) = b_data out + Z.of_nat (length kept) /\
      buffer_inv (snd r) /\
      contents (snd r) = contents out ++ kept /\
      (Z.of_nat (length input) - 1 <= fst r \/
       (fst r < Z.of_nat (length input) - 1 /\
        is_grease_pair (byte_at input (fst r)) (byte_at input (fst r + 1)) = false /\
        b_size out - 2 < b_data (snd r))).
Proof.
  intros Hbytes fuel.
  induction fuel as [| fuel IH]; intros ptr out Hptr Hfuel Hwf H2 Hinv r;
    pose proof Hwf as (Hsize & Hdata & Harea); unfold buffer_inv in Hinv |- *.
  - subst r. cbn [grease_loop fst snd]. exists [].
    cbn [app length Z.of_nat]. rewrite app_nil_r.
    repeat split; try lia; left; lia.
  - destruct (Z.ltb_spec ptr (Z.of_nat (length input) - 1)) as [Hlt | Hge].
    + assert (Hdrop := drop_two input ptr ltac:(lia)).
      assert (Htest := grease_test (byte_at input ptr) (byte_at input (ptr + 1))
                         (bytes_byte_at input ptr Hbytes)
                         (bytes_byte_at input (ptr + 1) Hbytes)).
      pose proof Hlt as Hlt'. apply Z.ltb_lt in Hlt.
      destruct (is_grease_pair (byte_at input ptr) (byte_at input (ptr + 1))) eqn:Hg;
        cbn [negb] in Htest.
      * assert (Hr : r = grease_loop fuel input (Z.of_nat (length input)) (ptr + 2) out)
          by (subst r; cbn [grease_loop]; rewrite Hlt, Htest; reflexivity).
        rewrite Hr. clear Hr r.
        destruct (IH (ptr + 2) out ltac:(lia) ltac:(lia) Hwf H2 Hinv) as (kept & Hk & H).
        exists kept. rewrite Hdrop. cbn [grease_spec]. rewrite Hg.
        split; [exact Hk | exact H].
      * destruct (Z.leb_spec (b_data out) (b_size out - 2)) as [Hroom | Hfull].
        -- set (pair := [byte_at input ptr; byte_at input (ptr + 1)]).
           set (out1 := set_data (set_area out
                          (list_inserts (Z.to_nat (b_data out)) pair (b_area out)))
                          (b_data out + 2)).
           assert (Hr : r = grease_loop fuel input (Z.of_nat (length input)) (ptr + 2) out1).
           { subst r. cbn [grease_loop]. rewrite Hlt, Htest.
             rewrite (to_size_t_small (b_size out - 2)) by lia.
             destruct (Z.leb_spec (b_data out) (b_size out - 2)) as [_ | ?]; [| lia].
             rewrite to_size_t_small by lia.
             unfold memcpy. rewrite Hdrop. reflexivity. }
           rewrite Hr. clear Hr r.
           assert (Hwf1 : buffer_wf out1)
             by (unfold buffer_wf, out1; cbn [b_size b_data b_area set_data set_area];
                 rewrite length_inserts; lia).
           assert (Hinv1 : buffer_inv out1) by (unfold buffer_inv, out1; cbn; lia).
           destruct (IH (ptr + 2) out1 ltac:(lia) ltac:(lia) Hwf1 H2 Hinv1)
             as (kept & Hk & H1 & H3 & H4 & H5 & H6 & H7 & H8).
           exists (pair ++ kept). rewrite Hdrop. cbn [grease_spec]. rewrite Hg.
           split; [subst pair; cbn [app]; now rewrite Hk |].
           split; [exact H1 |]. split; [exact H3 |].
           split; [rewrite H4; reflexivity |].
           split; [rewrite H5, length_app; unfold out1, pair; cbn; lia |].
           split; [exact H6 |].
           split; [| exact H8].
           rewrite H7, app_assoc. f_equal.
           unfold contents at 1, out1. cbn [b_data b_area set_data set_area].
           apply (contents_append out pair); [exact Hwf | cbn; lia].
        -- assert (Hr : r = (ptr, out)).
           { subst r. cbn [grease_loop]. rewrite Hlt, Htest.
             rewrite (to_size_t_small (b_size out - 2)) by lia.
             destruct (Z.leb_spec (b_data out) (b_size out - 2)); [lia | reflexivity]. }
           rewrite Hr. clear Hr r. cbn [fst snd]. exists [].
           cbn [app length Z.of_nat]. rewrite app_nil_r.
           repeat split; try lia; right; repeat split; try lia; exact Hg.
    + assert (Hr : r = (ptr, out)).
      { subst r. cbn [grease_loop].
        destruct (Z.ltb_spec ptr (Z.of_nat (length input) - 1)); [lia | reflexivity]. }
      rewrite Hr. clear Hr r. cbn [fst snd]. exists [].
      cbn [app length Z.of_nat]. rewrite app_nil_r.
      repeat split; try lia; left; lia.
Qed.

(** What the function leaves in a buffer of capacity at least 2. *)
Lemma exclude_tls_grease_general (input : list Z) (out : buffer) :
  bytes input -> buffer_wf out -> 2 <= b_size out -> buffer_inv out ->
  let out' := exclude_tls_grease input (Z.of_nat (length input)) out in
  let room := Z.to_nat (b_size out - b_data out) in
  contents out' = contents out ++ take room (grease_spec input) /\
  b_data out' = b_data out + Z.of_nat (length (take room (grease_spec input))) /\
  b_size out' = b_size out /\ buffer_inv out'.
Proof.
  intros Hbytes Hwf H2 Hinv out' room.
  pose proof (grease_loop_general input Hbytes (Z.to_nat (Z.of_nat (length input))) 0 out
                ltac:(lia) ltac:(lia) Hwf H2 Hinv) as (kept & Hk & Hspec).
  cbn zeta in Hspec. subst out'. unfold exclude_tls_grease.
  destruct (grease_loop _ input _ 0 out) as [ptr out1].
  cbn [fst snd] in Hk, Hspec. rewrite drop_0 in Hk.
  destruct Hspec as (Hptr & Hwf1 & Hsz & Hdt & Hinv1 & Hct & Hexit).
  pose proof Hwf as (Hsize & Hdata & Harea).
  pose proof Hwf1 as (Hsize1 & Hdata1 & Harea1).
  unfold buffer_inv in *.
  set (rest := grease_spec (drop (Z.to_nat ptr) input)) in *.
  set (room1 := Z.to_nat (b_size out1 - b_data out1)).
  assert (Hroom : room = (length kept + room1)%nat) by (unfold room, room1; lia).
  assert (Hroom1 : Z.of_nat room1 = b_size out1 - b_data out1) by (unfold room1; lia).
  clearbody room1.
  assert (Htake : take room (grease_spec input) = kept ++ take room1 rest).
  { rewrite Hk, Hroom, take_app. rewrite take_ge by lia.
    now replace (length kept + room1 - length kept)%nat with room1 by lia. }
  rewrite Htake, length_app.
  (* what the last statement appends is [take room1 rest] *)
  assert (Hlast :
    (if (0 <? to_size_t (b_size out1 - b_data out1)) && (0 <? Z.of_nat (length input) - ptr)
     then [byte_at input ptr] else []) = take room1 rest).
  { rewrite to_size_t_small by lia.
    destruct Hexit as [Hend | (Hlt & Hg & Hfull)].
    - destruct (Z.eq_dec ptr (Z.of_nat (length input))) as [-> | Hodd].
      + subst rest. rewrite drop_ge by lia. cbn [grease_spec]. rewrite take_nil.
        rewrite Z.sub_diag. change (0 <? 0) with false. now rewrite andb_false_r.
      + assert (Hd : drop (Z.to_nat ptr) input = [byte_at input ptr]).
        { unfold byte_at.
          destruct (lookup_lt_is_Some_2 input (Z.to_nat ptr)) as [c Hc]; [lia |].
          rewrite (drop_S _ _ _ Hc), (nth_lookup_Some _ _ _ _ Hc).
          now rewrite drop_ge by lia. }
        subst rest. rewrite Hd. cbn [grease_spec].
        destruct (Z.ltb_spec 0 (Z.of_nat (length input) - ptr)); [| lia].
        rewrite andb_true_r.
        destruct (Z.ltb_spec 0 (b_size out1 - b_data out1)).
        * rewrite take_ge by (cbn [length]; lia). reflexivity.
        * replace room1 with 0%nat by lia. reflexivity.
    - subst rest. rewrite (drop_two input ptr) by lia. cbn [grease_spec]. rewrite Hg.
      destruct (Z.ltb_spec 0 (Z.of_nat (length input) - ptr)); [| lia].
      rewrite andb_true_r.
      destruct (Z.ltb_spec 0 (b_size out1 - b_data out1)).
      + replace room1 with 1%nat by lia. reflexivity.
      + replace room1 with 0%nat by lia. reflexivity. }
  assert (Hlen1 : (length (take room1 rest) <= room1)%nat)
    by (rewrite length_take; lia).
  destruct ((0 <? to_size_t (b_size out1 - b_data out1))
            && (0 <? Z.of_nat (length input) - ptr)) eqn:Hcond.
  - rewrite <- Hlast in *. cbn [length] in *.
    cbn [b_data b_size b_area set_data set_area contents].
    assert (Hfree : b_data out1 + 1 <= b_size out1) by lia.
    rewrite to_size_t_small by lia.
    split; [| split; [lia | split; [exact Hsz | lia]]].
    unfold contents. cbn [b_data b_area set_data set_area].
    pose proof (contents_append out1 [byte_at input ptr] Hwf1 ltac:(cbn; lia)) as Happ.
    cbn [length list_inserts] in Happ. change (Z.of_nat 1) with 1 in Happ.
    unfold store. rewrite Happ, Hct. now rewrite <- app_assoc.
  - rewrite <- Hlast. cbn [length]. rewrite app_nil_r.
    split; [exact Hct | split; [lia | split; [exact Hsz | lia]]].
Qed.

(** X17. On a buffer of capacity at least 2 with [data <= size],
    exclude_tls_grease appends the filtered input cut to the free room:
    the contents grow by the first [size - data] bytes of the input
    without its GREASE pairs, the capacity is unchanged and [data] never
    goes past it.  When the filtered input fits the room, all of it is
    appended. *)
Theorem exclude_tls_grease_truncates (input : list Z) (out : buffer) :
  bytes input -> buffer_wf out -> 2 <= b_size out -> buffer_inv out ->
  let out' := exclude_tls_grease input (Z.of_nat (length input)) out in
  let room := b_size out - b_data out in
  contents out' = contents out ++ take (Z.to_nat room) (grease_spec input) /\
  b_data out' = b_data out + Z.min room (zlength (grease_spec input)) /\
  b_size out' = b_size out /\ b_data out' <= b_size out' /\
  (zlength (grease_spec input) <= room -> contents out' = contents out ++ grease_spec input).
Proof.
  intros Hbytes Hwf H2 Hinv out' room.
  destruct (exclude_tls_grease_general input out Hbytes Hwf H2 Hinv) as (Hc & Hd & Hs & Hi).
  fold out' in Hc, Hd, Hs, Hi. fold room in Hc, Hd.
  unfold buffer_inv in Hinv, Hi. unfold zlength.
  split; [exact Hc | split; [| split; [exact Hs | split; [exact Hi |]]]].
  - rewrite Hd, length_take. subst room. lia.
  - intros Hfit. rewrite Hc. now rewrite take_ge by lia.
Qed.

Lemma exclude_tls_grease_truncates_witness :
  let out' := exclude_tls_grease [0x0a; 0x0a; 0x13; 0x01; 0x13; 0x02] 6 (Buffer 3 [0; 0; 0] 0 0) in
  contents out' = [0x13; 0x01; 0x13] /\ b_data out' = 3 /\ b_size out' = 3 /\
  b_data out' <= b_size out'.
Proof.
  assert (Hb : bytes [0x0a; 0x0a; 0x13; 0x01; 0x13; 0x02]) by (repeat constructor; lia).
  assert (Hwf : buffer_wf (Buffer 3 [0; 0; 0] 0 0)) by (unfold buffer_wf; simpl; lia).
  assert (H2 : 2 <= b_size (Buffer 3 [0; 0; 0] 0 0)) by (simpl; lia).
  assert (Hinv : buffer_inv (Buffer 3 [0; 0; 0] 0 0)) by (unfold buffer_inv; simpl; lia).
  pose proof (exclude_tls_grease_truncates _ (Buffer 3 [0; 0; 0] 0 0) Hb Hwf H2 Hinv)
    as (Hc & Hd & Hs & Hi & _).
  repeat split; assumption.
Defined.

(** The filter has nothing left to remove in what it kept. *)
Lemma grease_spec_take_fixed (l : list Z) :
  forall n : nat, grease_spec (take n (grease_spec l)) = take n (grease_spec l).
Proof.
  assert (H : forall (m : nat) (l : list Z), (length l <= m)%nat ->
            forall n : nat, grease_spec (take n (grease_spec l)) = take n (grease_spec l)).
  { intros m. induction m as [| m IH]; intros l0 Hl n.
    - destruct l0; [| cbn in Hl; lia]. cbn. now rewrite take_nil.
    - destruct l0 as [| a [| b l']].
      + cbn. now rewrite take_nil.
      + cbn [grease_spec]. apply grease_spec_short. rewrite length_take. cbn. lia.
      + cbn [grease_spec]. destruct (is_grease_pair a b) eqn:Hg.
        * apply IH. cbn in Hl. lia.
        * destruct n as [| [| n]]; [reflexivity | reflexivity |].
          cbn [take grease_spec]. rewrite Hg. f_equal. f_equal.
          apply IH. cbn in Hl. lia. }
  exact (H (length l) l (le_n _)).
Qed.

Lemma bytes_grease_spec (l : list Z) : bytes l -> bytes (grease_spec l).
Proof.
  unfold bytes.
  assert (H : forall (m : nat) (l : list Z), (length l <= m)%nat ->
            Forall (fun b => 0 <= b < 256) l -> Forall (fun b => 0 <= b < 256) (grease_spec l)).
  { intros m. induction m as [| m IH]; intros l0 Hl Hb.
    - destruct l0; [exact Hb | cbn in Hl; lia].
    - destruct l0 as [| a [| b l']]; [exact Hb | exact Hb |].
      cbn [grease_spec].
      apply Forall_cons in Hb as [Ha Hb]. apply Forall_cons in Hb as [Hb' Hb].
      destruct (is_grease_pair a b).
      + apply IH; [cbn in Hl; lia | exact Hb].
      + repeat (apply Forall_cons; split; [assumption |]).
        apply IH; [cbn in Hl; lia | exact Hb]. }
  exact (H (length l) l (le_n _)).
Qed.

(** X18. Filtering twice is filtering once: when the output of
    exclude_tls_grease into an empty buffer of capacity at least 2 is
    filtered again into such a buffer, the contents are the same, cut or
    not. *)
Theorem exclude_tls_grease_idempotent (input : list Z) (out : buffer) :
  bytes input -> buffer_wf out -> 2 <= b_size out -> b_data out = 0 ->
  let out1 := exclude_tls_grease input (Z.of_nat (length input)) out in
  let out2 := exclude_tls_grease (contents out1) (b_data out1) out in
  contents out2 = contents out1.
Proof.
  intros Hbytes Hwf H2 Hd0 out1 out2.
  assert (Hinv : buffer_inv out) by (unfold buffer_inv; lia).
  assert (Hempty : contents out = []) by (unfold contents; rewrite Hd0; apply take_0).
  destruct (exclude_tls_grease_general input out Hbytes Hwf H2 Hinv) as (Hc1 & Hd1 & _ & _).
  fold out1 in Hc1, Hd1. rewrite Hempty in Hc1. cbn [app] in Hc1.
  rewrite Hd0 in Hc1, Hd1.
  assert (Hlen : b_data out1 = Z.of_nat (length (contents out1)))
    by (rewrite Hc1, Hd1; lia).
  assert (Hb1 : bytes (contents out1)).
  { rewrite Hc1. unfold bytes. apply Forall_take. now apply bytes_grease_spec. }
  subst out2. rewrite Hlen.
  destruct (exclude_tls_grease_general (contents out1) out Hb1 Hwf H2 Hinv) as (Hc2 & _).
  rewrite Hc2, Hempty, Hd0. cbn [app]. rewrite Hc1.
  rewrite grease_spec_take_fixed. rewrite take_take. f_equal. lia.
Qed.

Lemma exclude_tls_grease_idempotent_witness :
  let out := Buffer 3 [0; 0; 0] 0 0 in
  let out1 := exclude_tls_grease [0x0a; 0x0a; 0x13; 0x01; 0x13; 0x02] 6 out in
  contents (exclude_tls_grease (contents out1) (b_data out1) out) = contents out1.
Proof.
  assert (Hb : bytes [0x0a; 0x0a; 0x13; 0x01; 0x13; 0x02]) by (repeat constructor; lia).
  assert (Hwf : buffer_wf (Buffer 3 [0; 0; 0] 0 0)) by (unfold buffer_wf; simpl; lia).
  refine (exclude_tls_grease_idempotent _ (Buffer 3 [0; 0; 0] 0 0) Hb Hwf _ eq_refl).
  simpl; lia.
Defined.

(** ** asn1_generalizedtime_to_epoch and the calendar *)

Lemma char_val_digit (c : Z) : isdigit c = true -> char_val c = c.
Proof.
  intros H. apply isdigit_range in H. unfold char_val.
  destruct (Z.ltb_spec c 128); [reflexivity | lia].
Qed.

Lemma remaining_cons (c : Z) (l : list Z) : remaining (c :: l) = 1 + remaining l.
Proof. unfold remaining. cbn [length]. lia. Qed.

Lemma remaining_nonneg (l : list Z) : 0 <= remaining l.
Proof. unfold remaining. lia. Qed.

Lemma char_at_0 (a : Z) (l : list Z) : char_at (a :: l) 0 = char_val a.
Proof. reflexivity. Qed.

Lemma char_at_1 (a b : Z) (l : list Z) : char_at (a :: b :: l) 1 = char_val b.
Proof. reflexivity. Qed.

Lemma char_at_2 (a b c : Z) (l : list Z) : char_at (a :: b :: c :: l) 2 = char_val c.
Proof. reflexivity. Qed.

Lemma char_at_3 (a b c d : Z) (l : list Z) : char_at (a :: b :: c :: d :: l) 3 = char_val d.
Proof. reflexivity. Qed.

Lemma two_digits_cons (a b : Z) (l : list Z) :
  two_digits (a :: b :: l) = 10 * (char_val a - 0x30) + char_val b - 0x30.
Proof. reflexivity. Qed.

(** The function on twelve bytes followed by [rest]: the year and the
    month are read, the month is tested, and day, hours and minutes are
    added to the beginning of the month. *)
Lemma asn1_generalizedtime_to_epoch_stages
    (y1 y2 y3 y4 mo1 mo2 d1 d2 h1 h2 mi1 mi2 : Z) (rest : list Z) :
  asn1_generalizedtime_to_epoch
    (generalizedtime_bytes
       (y1 :: y2 :: y3 :: y4 :: mo1 :: mo2 :: d1 :: d2 :: h1 :: h2 :: mi1 :: mi2 :: rest))
  = let year := to_size_t (1000 * (char_val y1 - 0x30) + 100 * (char_val y2 - 0x30)
                           + 10 * (char_val y3 - 0x30) + char_val y4 - 0x30) in
    let month := to_size_t (10 * (char_val mo1 - 0x30) + char_val mo2 - 0x30) in
    if (month <? 1) || (12 <? month) then -1
    else
      epoch_seconds_tail
        (epoch_month_start year month
         + (10 * (char_val d1 - 0x30) + char_val d2 - 0x30 - 1) * 24 * 60 * 60
         + (10 * (char_val h1 - 0x30) + char_val h2 - 0x30) * 60 * 60
         + (10 * (char_val mi1 - 0x30) + char_val mi2 - 0x30) * 60)
        rest.
Proof.
  unfold asn1_generalizedtime_to_epoch, generalizedtime_bytes.
  cbn [asn1_type asn1_length asn1_data].
  change (V_ASN1_GENERALIZEDTIME =? V_ASN1_GENERALIZEDTIME) with true. cbn [negb].
  unfold zlength. rewrite Nat2Z.id, firstn_all.
  pose proof (remaining_nonneg rest) as Hrest.
  rewrite !remaining_cons.
  match goal with |- context [?a <? 4] => destruct (Z.ltb_spec a 4); [lia |] end.
  rewrite char_at_0, char_at_1, char_at_2, char_at_3.
  cbn [skipn]. rewrite !remaining_cons.
  match goal with |- context [?a <? 2] => destruct (Z.ltb_spec a 2); [lia |] end.
  rewrite !two_digits_cons. cbn zeta.
  destruct (_ || _); [reflexivity |].
  match goal with |- context [?a <? 2] => destruct (Z.ltb_spec a 2); [lia |] end.
  match goal with |- context [?a <? 2] => destruct (Z.ltb_spec a 2); [lia |] end.
  match goal with |- context [?a <? 2] => destruct (Z.ltb_spec a 2); [lia |] end.
  reflexivity.
Qed.

Lemma leap_count_step (k : Z) :
  0 <= k -> leap_count (k + 1) = leap_count k + (if is_leap (k + 1) then 1 else 0).
Proof.
  intros Hk. unfold leap_count, is_leap.
  destruct (Z.eqb_spec ((k + 1) mod 4) 0), (Z.eqb_spec ((k + 1) mod 100) 0),
    (Z.eqb_spec ((k + 1) mod 400) 0); cbn [negb andb orb];
    Z.div_mod_to_equations; lia.
Qed.

Lemma days_to_year_formula (n : nat) :
  days_to_year n = Z.of_nat n * 365 + leap_count (1969 + Z.of_nat n) - 477.
Proof.
  induction n as [| n IH].
  - reflexivity.
  - cbn [days_to_year]. rewrite IH. unfold days_in_year.
    replace (1969 + Z.of_nat (S n)) with (1969 + Z.of_nat n + 1) by lia.
    rewrite leap_count_step by lia.
    replace (1969 + Z.of_nat n + 1) with (1970 + Z.of_nat n) by lia.
    destruct (is_leap (1970 + Z.of_nat n)); lia.
Qed.

Lemma days_to_month_formula (y m : Z) :
  1 <= m <= 12 ->
  days_to_month y (Z.to_nat (m - 1))
  = nth (Z.to_nat (m - 1)) month_offset 0
    + (if (3 <=? m) && is_leap y then 1 else 0).
Proof.
  intros Hm.
  assert (Hcases : m = 1 \/ m = 2 \/ m = 3 \/ m = 4 \/ m = 5 \/ m = 6 \/ m = 7 \/ m = 8 \/
                   m = 9 \/ m = 10 \/ m = 11 \/ m = 12) by lia.
  repeat (destruct Hcases as [-> | Hcases]); try subst m;
    match goal with
    | |- context [Z.to_nat ?k] =>
        let v := eval vm_compute in (Z.to_nat k) in change (Z.to_nat k) with v
    end;
    cbn [days_to_month]; unfold days_in_month; destruct (is_leap y); reflexivity.
Qed.

(** The day count of the code is the day count of the calendar. *)
Lemma epoch_month_start_calendar (year month : Z) :
  1970 <= year <= 9999 -> 1 <= month <= 12 ->
  epoch_month_start year month
  = (days_to_year (Z.to_nat (year - 1970)) + days_to_month year (Z.to_nat (month - 1)))
    * 86400.
Proof.
  intros Hy Hm. unfold epoch_month_start.
  rewrite days_to_year_formula, days_to_month_formula by exact Hm.
  rewrite Z2Nat.id by lia.
  rewrite (to_size_t_small (year - 1970)) by lia.
  assert (Hoff : 0 <= nth (Z.to_nat (month - 1)) month_offset 0 <= 334).
  { assert (Hcases : month = 1 \/ month = 2 \/ month = 3 \/ month = 4 \/ month = 5 \/
                     month = 6 \/ month = 7 \/ month = 8 \/ month = 9 \/ month = 10 \/
                     month = 11 \/ month = 12) by lia.
    repeat (destruct Hcases as [-> | Hcases]); try subst month;
      match goal with
      | |- context [Z.to_nat ?k] =>
          let v := eval vm_compute in (Z.to_nat k) in change (Z.to_nat k) with v
      end; cbn [nth month_offset]; lia. }
  change ((1970 - 1) / 4 - (1970 - 1) / 100 + (1970 - 1) / 400) with 477.
  fold (leap_count (to_size_t (year - (if month <? 3 then 1 else 0)))).
  replace (1969 + (year - 1970)) with (year - 1) by lia.
  assert (Hleap : leap_count (to_size_t (year - (if month <? 3 then 1 else 0)))
                  = leap_count (year - 1)
                    + (if (3 <=? month) && is_leap year then 1 else 0)).
  { destruct (Z.ltb_spec month 3), (Z.leb_spec 3 month); try lia; cbn [andb].
    - rewrite to_size_t_small by lia. lia.
    - rewrite to_size_t_small by lia.
      pose proof (leap_count_step (year - 1) ltac:(lia)) as Hs.
      replace (year - 1 + 1) with year in Hs by lia.
      replace (year - 0) with year by lia. exact Hs. }
  rewrite Hleap.
  assert (Hlc : 0 <= leap_count (year - 1) <= 2500)
    by (unfold leap_count; Z.div_mod_to_equations; lia).
  set (days := (year - 1970) * 365
               + (leap_count (year - 1) + (if (3 <=? month) && is_leap year then 1 else 0))
               - 477 + nth (Z.to_nat (month - 1)) month_offset 0).
  assert (Hlc0 : 477 <= leap_count (year - 1))
    by (unfold leap_count; Z.div_mod_to_equations; lia).
  assert (Hdays : 0 <= days <= 4000000)
    by (unfold days; destruct ((3 <=? month) && is_leap year); lia).
  unfold to_long. rewrite Z.mod_small by lia.
  destruct (Z.ltb_spec (days * 24 * 60 * 60) (2 ^ 63)); [| lia].
  unfold days. lia.
Qed.

Lemma char_val_byte_eq (c k : Z) :
  0 <= c < 256 -> 0 <= k < 128 -> (char_val c =? k) = (c =? k).
Proof.
  intros Hc Hk. unfold char_val.
  destruct (Z.ltb_spec c 128); [reflexivity |].
  destruct (Z.eqb_spec (c - 256) k), (Z.eqb_spec c k); try reflexivity; lia.
Qed.

Lemma epoch_timezone_Z (epoch : Z) : epoch_timezone epoch [0x5a] = epoch.
Proof. reflexivity. Qed.

(** Without seconds: the zone follows the minutes. *)
Lemma epoch_seconds_tail_none (epoch c : Z) (tz : list Z) :
  (char_val c <? 0x30) || (0x39 <? char_val c) = true ->
  epoch_seconds_tail epoch (c :: tz) = epoch_timezone epoch (c :: tz).
Proof.
  intros Hc. unfold epoch_seconds_tail. rewrite remaining_cons, char_at_0, Hc.
  pose proof (remaining_nonneg tz).
  destruct (Z.eqb_spec (1 + remaining tz) 0); [lia | reflexivity].
Qed.

Lemma digit_not_outside (c : Z) :
  isdigit c = true -> (char_val c <? 0x30) || (0x39 <? char_val c) = false.
Proof.
  intros H. rewrite (char_val_digit c H). apply isdigit_range in H.
  destruct (Z.ltb_spec c 0x30), (Z.ltb_spec 0x39 c); try reflexivity; lia.
Qed.

(** With seconds, and a zone that does not start with a dot. *)
Lemma epoch_seconds_tail_seconds (epoch s1 s2 c : Z) (tz : list Z) :
  isdigit s1 = true -> isdigit s2 = true -> char_val c <> 0x2e ->
  epoch_seconds_tail epoch (s1 :: s2 :: c :: tz)
  = epoch_timezone (epoch + two_digit_value s1 s2) (c :: tz).
Proof.
  intros H1 H2 Hc. unfold epoch_seconds_tail.
  pose proof (remaining_nonneg tz).
  rewrite !remaining_cons, char_at_0, (digit_not_outside s1 H1), two_digits_cons.
  destruct (Z.eqb_spec (1 + (1 + (1 + remaining tz))) 0); [lia |].
  destruct (Z.ltb_spec (1 + (1 + (1 + remaining tz))) 2); [lia |].
  cbn [skipn]. rewrite remaining_cons, char_at_0.
  destruct (Z.eqb_spec (1 + remaining tz) 0); [lia |].
  destruct (Z.eqb_spec (char_val c) 0x2e); [contradiction |].
  rewrite (char_val_digit s1 H1), (char_val_digit s2 H2).
  unfold two_digit_value, digit_val. f_equal. lia.
Qed.

Lemma skip_fraction_step (x y : Z) (l : list Z) :
  skip_fraction (x :: y :: l)
  = if (0x30 <=? char_val y) && (char_val y <=? 0x39) then skip_fraction (y :: l)
    else Some (y :: l).
Proof. reflexivity. Qed.

(** The loop over the fraction stops at the first byte that is not a
    digit. *)
Lemma skip_fraction_digits (frac : list Z) (x c : Z) (tz : list Z) :
  all_digits frac -> isdigit c = false -> 0 <= c < 256 ->
  skip_fraction (x :: frac ++ c :: tz) = Some (c :: tz).
Proof.
  intros Hfrac Hc Hb. unfold all_digits in Hfrac. revert x.
  induction frac as [| d frac IH]; intros x.
  - cbn [app]. rewrite skip_fraction_step.
    assert (Hn : (0x30 <=? char_val c) && (char_val c <=? 0x39) = false).
    { unfold isdigit in Hc. unfold char_val. destruct (Z.ltb_spec c 128); [exact Hc |].
      destruct (Z.leb_spec 0x30 (c - 256)); [lia | reflexivity]. }
    now rewrite Hn.
  - apply Forall_cons in Hfrac as [Hd Hfrac].
    cbn [app]. rewrite skip_fraction_step, (char_val_digit d Hd).
    unfold isdigit in Hd. rewrite Hd. now apply IH.
Qed.

(** With seconds and a fraction. *)
Lemma epoch_seconds_tail_fraction (epoch s1 s2 c : Z) (frac tz : list Z) :
  isdigit s1 = true -> isdigit s2 = true ->
  all_digits frac -> isdigit c = false -> 0 <= c < 256 ->
  epoch_seconds_tail epoch (s1 :: s2 :: 0x2e :: frac ++ c :: tz)
  = epoch_timezone (epoch + two_digit_value s1 s2) (c :: tz).
Proof.
  intros H1 H2 Hfrac Hc Hb. unfold epoch_seconds_tail.
  pose proof (remaining_nonneg (frac ++ c :: tz)).
  rewrite !remaining_cons, char_at_0, (digit_not_outside s1 H1), two_digits_cons.
  destruct (Z.eqb_spec (1 + (1 + (1 + remaining (frac ++ c :: tz)))) 0); [lia |].
  destruct (Z.ltb_spec (1 + (1 + (1 + remaining (frac ++ c :: tz)))) 2); [lia |].
  cbn [skipn]. rewrite remaining_cons, char_at_0.
  destruct (Z.eqb_spec (1 + remaining (frac ++ c :: tz)) 0); [lia |].
  change (char_val 0x2e =? 0x2e) with true. cbn iota.
  rewrite skip_fraction_digits by assumption.
  rewrite (char_val_digit s1 H1), (char_val_digit s2 H2).
  unfold two_digit_value, digit_val. f_equal. lia.
Qed.

(** Date, hours and minutes made of digits: the value before the seconds
    is the calendar value. *)
Lemma asn1_generalizedtime_to_epoch_minutes
    (y1 y2 y3 y4 mo1 mo2 d1 d2 h1 h2 mi1 mi2 : Z) (rest : list Z) :
  all_digits [y1; y2; y3; y4; mo1; mo2; d1; d2; h1; h2; mi1; mi2] ->
  let year := four_digit_value y1 y2 y3 y4 in
  let month := two_digit_value mo1 mo2 in
  1970 <= year -> 1 <= month <= 12 ->
  asn1_generalizedtime_to_epoch
    (generalizedtime_bytes
       (y1 :: y2 :: y3 :: y4 :: mo1 :: mo2 :: d1 :: d2 :: h1 :: h2 :: mi1 :: mi2 :: rest))
  = epoch_seconds_tail
      (civil_seconds year month (two_digit_value d1 d2) (two_digit_value h1 h2)
                     (two_digit_value mi1 mi2) 0)
      rest.
Proof.
  intros Hd year month Hy Hm.
  rewrite asn1_generalizedtime_to_epoch_stages. cbn zeta.
  unfold all_digits in Hd.
  repeat match goal with
         | H : Forall _ (_ :: _) |- _ => apply Forall_cons in H; destruct H as [? H]
         end.
  repeat match goal with
         | H : isdigit ?c = true |- _ =>
             rewrite (char_val_digit c H); apply isdigit_range in H
         end.
  unfold year, month, four_digit_value, two_digit_value, digit_val in *.
  rewrite !to_size_t_small by lia.
  destruct (Z.ltb_spec (10 * (mo1 - 48) + mo2 - 48) 1); [lia |].
  destruct (Z.ltb_spec 12 (10 * (mo1 - 48) + mo2 - 48)); [lia |].
  cbn [orb].
  rewrite epoch_month_start_calendar by lia.
  f_equal. unfold civil_seconds.
  replace (10 * (mo1 - 48) + (mo2 - 48)) with (10 * (mo1 - 48) + mo2 - 48) by lia.
  replace (1000 * (y1 - 48) + 100 * (y2 - 48) + 10 * (y3 - 48) + (y4 - 48))
    with (1000 * (y1 - 48) + 100 * (y2 - 48) + 10 * (y3 - 48) + y4 - 48) by lia.
  lia.
Qed.

(** X19. For a UTC time [YYYYMMDDHHMMSSZ] made of digits, with a year from
    1970 and a month from 1 to 12, the result is the number of seconds
    from the Epoch to that date and time in the Gregorian calendar. *)
Theorem asn1_generalizedtime_to_epoch_calendar
    (y1 y2 y3 y4 mo1 mo2 d1 d2 h1 h2 mi1 mi2 s1 s2 : Z) :
  all_digits [y1; y2; y3; y4; mo1; mo2; d1; d2; h1; h2; mi1; mi2; s1; s2] ->
  let year := four_digit_value y1 y2 y3 y4 in
  let month := two_digit_value mo1 mo2 in
  1970 <= year -> 1 <= month <= 12 ->
  asn1_generalizedtime_to_epoch
    (generalizedtime_bytes
       [y1; y2; y3; y4; mo1; mo2; d1; d2; h1; h2; mi1; mi2; s1; s2; 0x5a])
  = civil_seconds year month (two_digit_value d1 d2) (two_digit_value h1 h2)
                  (two_digit_value mi1 mi2) (two_digit_value s1 s2).
Proof.
  intros Hd year month Hy Hm.
  assert (Hd12 : all_digits [y1; y2; y3; y4; mo1; mo2; d1; d2; h1; h2; mi1; mi2]).
  { unfold all_digits in *. apply (Forall_app_1 _ _ [s1; s2]) in Hd || idtac.
    repeat (apply Forall_cons in Hd; destruct Hd as [? Hd]).
    repeat (apply Forall_cons; split; [assumption |]). constructor. }
  assert (Hs : isdigit s1 = true /\ isdigit s2 = true).
  { unfold all_digits in Hd.
    repeat (apply Forall_cons in Hd; destruct Hd as [? Hd]). split; assumption. }
  destruct Hs as [Hs1 Hs2].
  rewrite (asn1_generalizedtime_to_epoch_minutes y1 y2 y3 y4 mo1 mo2 d1 d2 h1 h2 mi1 mi2
             [s1; s2; 0x5a] Hd12 Hy Hm).
  rewrite epoch_seconds_tail_seconds by (auto; discriminate).
  rewrite epoch_timezone_Z. subst year month. unfold civil_seconds. ring.
Qed.

Lemma asn1_generalizedtime_to_epoch_calendar_witness :
  asn1_generalizedtime_to_epoch (Some (generalizedtime "20240229235959Z"))
  = civil_seconds 2024 2 29 23 59 59.
Proof.
  refine (asn1_generalizedtime_to_epoch_calendar
            0x32 0x30 0x32 0x34 0x30 0x32 0x32 0x39 0x32 0x33 0x35 0x39 0x35 0x39 _ _ _).
  - unfold all_digits. repeat constructor.
  - vm_compute. discriminate.
  - vm_compute. split; discriminate.
Defined.

(** X20. The seconds are optional and a fraction of the seconds is
    ignored: [YYYYMMDDHHMMZ] gives the calendar value with 0 seconds, and
    [YYYYMMDDHHMMSS.fZ], with any run of digits [f], gives the value of
    [YYYYMMDDHHMMSSZ]. *)
Theorem asn1_generalizedtime_to_epoch_optional_seconds
    (y1 y2 y3 y4 mo1 mo2 d1 d2 h1 h2 mi1 mi2 : Z) :
  all_digits [y1; y2; y3; y4; mo1; mo2; d1; d2; h1; h2; mi1; mi2] ->
  let year := four_digit_value y1 y2 y3 y4 in
  let month := two_digit_value mo1 mo2 in
  let at_second := civil_seconds year month (two_digit_value d1 d2) (two_digit_value h1 h2)
                                 (two_digit_value mi1 mi2) in
  1970 <= year -> 1 <= month <= 12 ->
  asn1_generalizedtime_to_epoch
    (generalizedtime_bytes [y1; y2; y3; y4; mo1; mo2; d1; d2; h1; h2; mi1; mi2; 0x5a])
  = at_second 0 /\
  (forall s1 s2 frac, isdigit s1 = true -> isdigit s2 = true -> all_digits frac ->
     asn1_generalizedtime_to_epoch
       (generalizedtime_bytes
          ([y1; y2; y3; y4; mo1; mo2; d1; d2; h1; h2; mi1; mi2; s1; s2; 0x2e]
           ++ frac ++ [0x5a]))
     = at_second (two_digit_value s1 s2)).
Proof.
  intros Hd year month at_second Hy Hm. split.
  - rewrite (asn1_generalizedtime_to_epoch_minutes y1 y2 y3 y4 mo1 mo2 d1 d2 h1 h2 mi1 mi2
               [0x5a] Hd Hy Hm).
    rewrite epoch_seconds_tail_none by reflexivity. apply epoch_timezone_Z.
  - intros s1 s2 frac Hs1 Hs2 Hfrac. cbn [app].
    rewrite (asn1_generalizedtime_to_epoch_minutes y1 y2 y3 y4 mo1 mo2 d1 d2 h1 h2 mi1 mi2
               (s1 :: s2 :: 0x2e :: frac ++ [0x5a]) Hd Hy Hm).
    rewrite epoch_seconds_tail_fraction by (auto; lia).
    rewrite epoch_timezone_Z. subst at_second year month. unfold civil_seconds. ring.
Qed.

Lemma asn1_generalizedtime_to_epoch_optional_seconds_witness :
  asn1_generalizedtime_to_epoch (Some (generalizedtime "202301151230Z"))
  = civil_seconds 2023 1 15 12 30 0 /\
  asn1_generalizedtime_to_epoch (Some (generalizedtime "20230115123045.125Z"))
  = civil_seconds 2023 1 15 12 30 45.
Proof.
  assert (Hd : all_digits [0x32; 0x30; 0x32; 0x33; 0x30; 0x31; 0x31; 0x35; 0x31; 0x32; 0x33; 0x30])
    by (unfold all_digits; repeat constructor).
  assert (Hy : 1970 <= four_digit_value 0x32 0x30 0x32 0x33) by (vm_compute; discriminate).
  assert (Hm : 1 <= two_digit_value 0x30 0x31 <= 12) by (vm_compute; split; discriminate).
  pose proof (asn1_generalizedtime_to_epoch_optional_seconds
                0x32 0x30 0x32 0x33 0x30 0x31 0x31 0x35 0x31 0x32 0x33 0x30 Hd Hy Hm)
    as [H0 Hf].
  split; [exact H0 |].
  refine (Hf 0x34 0x35 [0x31; 0x32; 0x35] eq_refl eq_refl _).
  unfold all_digits. repeat constructor.
Defined.

(** After the seconds, a zone that is neither "Z", nor a sign and four
    bytes, nor the start of a fraction, is refused. *)
Lemma epoch_seconds_tail_rejects (epoch s1 s2 : Z) (tz : list Z) :
  isdigit s1 = true -> isdigit s2 = true -> bytes tz ->
  peek tz <> 0x2e -> ~ zone_accepted tz ->
  epoch_seconds_tail epoch (s1 :: s2 :: tz) = -1.
Proof.
  intros H1 H2 Hb Hdot Hzone. destruct tz as [| c tz].
  - unfold epoch_seconds_tail.
    rewrite !remaining_cons, char_at_0, (digit_not_outside s1 H1).
    change (remaining []) with 0. reflexivity.
  - cbn [peek] in Hdot.
    assert (Hc : 0 <= c < 256) by (unfold bytes in Hb; now apply Forall_cons in Hb as [? _]).
    assert (Hne : char_val c <> 0x2e).
    { pose proof (char_val_byte_eq c 0x2e Hc ltac:(lia)) as E.
      destruct (Z.eqb_spec (char_val c) 0x2e), (Z.eqb_spec c 0x2e); congruence. }
    rewrite epoch_seconds_tail_seconds by assumption.
    unfold epoch_timezone. rewrite char_at_0, !char_val_byte_eq by lia.
    unfold zone_accepted, zlength in Hzone. unfold remaining. cbn [peek] in Hzone.
    destruct (Z.eqb_spec c 0x5a) as [-> | _].
    { destruct (Z.eqb_spec (Z.of_nat (length (0x5a :: tz))) 1) as [E | _]; [| reflexivity].
      exfalso. apply Hzone. left. destruct tz; [reflexivity | cbn in E; lia]. }
    destruct (Z.eqb_spec c 0x2b) as [-> | _].
    { destruct (Z.eqb_spec (Z.of_nat (length (0x2b :: tz))) 5) as [E | _]; [| reflexivity].
      exfalso. apply Hzone. right. split; [exact E | now left]. }
    destruct (Z.eqb_spec c 0x2d) as [-> | _]; [| reflexivity].
    destruct (Z.eqb_spec (Z.of_nat (length (0x2d :: tz))) 5) as [E | _]; [| reflexivity].
    exfalso. apply Hzone. right. split; [exact E | now right].
Qed.

(** X21. The function returns -1 for a NULL pointer, for an object that is
    not tagged as a generalized time, for a month outside 1..12, and, after
    a time with seconds, for any zone other than "Z" or a sign followed by
    exactly four bytes (bytes after the "Z", an offset that is too short or
    too long, another letter). *)
Theorem asn1_generalizedtime_to_epoch_rejects :
  asn1_generalizedtime_to_epoch None = -1 /\
  (forall d, asn1_type d <> V_ASN1_GENERALIZEDTIME ->
     asn1_generalizedtime_to_epoch (Some d) = -1) /\
  (forall y1 y2 y3 y4 mo1 mo2 d1 d2 h1 h2 mi1 mi2 rest,
     isdigit mo1 = true -> isdigit mo2 = true ->
     ~ 1 <= two_digit_value mo1 mo2 <= 12 ->
     asn1_generalizedtime_to_epoch
       (generalizedtime_bytes
          (y1 :: y2 :: y3 :: y4 :: mo1 :: mo2 :: d1 :: d2 :: h1 :: h2 :: mi1 :: mi2 :: rest))
     = -1) /\
  (forall y1 y2 y3 y4 mo1 mo2 d1 d2 h1 h2 mi1 mi2 s1 s2 tz,
     isdigit s1 = true -> isdigit s2 = true -> bytes tz ->
     peek tz <> 0x2e -> ~ zone_accepted tz ->
     asn1_generalizedtime_to_epoch
       (generalizedtime_bytes
          (y1 :: y2 :: y3 :: y4 :: mo1 :: mo2 :: d1 :: d2 :: h1 :: h2 :: mi1 :: mi2
              :: s1 :: s2 :: tz))
     = -1).
Proof.
  split; [reflexivity | split; [| split]].
  - intros d Hd. unfold asn1_generalizedtime_to_epoch.
    destruct (Z.eqb_spec (asn1_type d) V_ASN1_GENERALIZEDTIME); [contradiction | reflexivity].
  - intros y1 y2 y3 y4 mo1 mo2 d1 d2 h1 h2 mi1 mi2 rest H1 H2 Hm.
    rewrite asn1_generalizedtime_to_epoch_stages. cbn zeta.
    rewrite (char_val_digit mo1 H1), (char_val_digit mo2 H2).
    apply isdigit_range in H1, H2. unfold two_digit_value, digit_val in Hm.
    rewrite (to_size_t_small (10 * (mo1 - 48) + mo2 - 48)) by lia.
    destruct (Z.ltb_spec (10 * (mo1 - 48) + mo2 - 48) 1); [reflexivity |].
    destruct (Z.ltb_spec 12 (10 * (mo1 - 48) + mo2 - 48)); [reflexivity | lia].
  - intros y1 y2 y3 y4 mo1 mo2 d1 d2 h1 h2 mi1 mi2 s1 s2 tz H1 H2 Hb Hdot Hzone.
    rewrite asn1_generalizedtime_to_epoch_stages. cbn zeta.
    destruct (_ || _); [reflexivity |].
    now apply epoch_seconds_tail_rejects.
Qed.

Lemma asn1_generalizedtime_to_epoch_rejects_witness :
  asn1_generalizedtime_to_epoch (Some (generalizedtime "20231315000000Z")) = -1 /\
  asn1_generalizedtime_to_epoch (Some (generalizedtime "20230115123045Zx")) = -1 /\
  asn1_generalizedtime_to_epoch (Some (generalizedtime "20230115123045+01")) = -1.
Proof.
  pose proof asn1_generalizedtime_to_epoch_rejects as (_ & _ & Hmonth & Hzone).
  split; [| split].
  - refine (Hmonth 0x32 0x30 0x32 0x33 0x31 0x33 0x31 0x35 0x30 0x30 0x30 0x30
              (bytes_of_string "00Z") eq_refl eq_refl _).
    vm_compute. intros [_ H]. now apply H.
  - refine (Hzone 0x32 0x30 0x32 0x33 0x30 0x31 0x31 0x35 0x31 0x32 0x33 0x30 0x34 0x35
              (bytes_of_string "Zx") eq_refl eq_refl _ _ _).
    + repeat constructor; lia.
    + vm_compute. discriminate.
    + intros [H | [H _]]; [discriminate H | vm_compute in H; discriminate H].
  - refine (Hzone 0x32 0x30 0x32 0x33 0x30 0x31 0x31 0x35 0x31 0x32 0x33 0x30 0x34 0x35
              (bytes_of_string "+01") eq_refl eq_refl _ _ _).
    + repeat constructor; lia.
    + vm_compute. discriminate.
    + intros [H | [H _]]; [discriminate H | vm_compute in H; discriminate H].
Defined.

(** ** The NID of a curve, from the headers *)

Lemma init_curves_tab_map (l : list curve) :
  init_curves_tab l = List.map init_curve l.
Proof.
  unfold init_curve, init_curves_tab. apply List.map_ext. intros c. cbn [List.map hd].
  reflexivity.
Qed.

Lemma curves_table_entry (cpp_expand : string -> string)
    (line : Z * nid_arg * string * option string) :
  line ∈ curves_args ->
  init_curve (V_curve cpp_expand line) ∈ curves_table cpp_expand.
Proof.
  intros Hin. unfold curves_table, curves_list.
  rewrite init_curves_tab_map, List.map_map.
  change (List.map ?f ?l) with (f <$> l).
  apply list_elem_of_fmap. exists line. split; [reflexivity | exact Hin].
Qed.

Lemma curves2nid_entry (cpp_expand : string -> string) w x y z :
  (w, x, y, z) ∈ curves_args ->
  curves2nid (curves_table cpp_expand) y
  = cv_nid (init_curve (Curve w (-1) (nid_arg_text cpp_expand x) y z)).
Proof.
  intros Hin.
  assert (Hnd : NoDup (concat (List.map curve_names (curves_table cpp_expand)))).
  { rewrite curves_table_names. apply (bool_decide_unpack _). vm_compute. exact I. }
  apply (curves2nid_member _ _ y Hnd (curves_table_ids cpp_expand)
           (curves_table_entry cpp_expand _ Hin)).
  unfold init_curve, init_curves_tab. cbn [List.map hd nid_val_str].
  destruct (strtol _) as [value endptr].
  destruct (negb _ && _); left.
Qed.

Lemma strtol_erange_decimal (ds : list Z) :
  digits ds -> decimal_value ds <= LONG_MAX -> strtol_erange ds = false.
Proof.
  intros Hd Hle. pose proof (decimal_value_nonneg ds Hd) as H0.
  destruct Hd as [Hne Hds].
  destruct ds as [| c ds]; [congruence |].
  pose proof (Forall_inv Hds) as Hc. cbn beta in Hc.
  pose proof (proj1 (isdigit_range c) Hc) as Hr.
  unfold strtol_erange. cbn [skip_space].
  assert (Hsp : isspace c = false).
  { unfold isspace. destruct (Z.eqb_spec c 0x20); [lia |].
    destruct (Z.leb_spec 0x09 c), (Z.leb_spec c 0x0d); try reflexivity; lia. }
  rewrite Hsp.
  destruct (Z.eqb_spec c 0x2d); [lia |]. destruct (Z.eqb_spec c 0x2b); [lia |].
  cbn [peek]. rewrite Hc.
  pose proof (strtol_digits_app (c :: ds) [] 0 Hds eq_refl) as E.
  rewrite app_nil_r in E. rewrite E. fold (decimal_value (c :: ds)).
  unfold LONG_MIN, LONG_MAX in *.
  destruct (Z.ltb_spec (decimal_value (c :: ds)) (- 2 ^ 63)); [lia |].
  destruct (Z.ltb_spec (2 ^ 63 - 1) (decimal_value (c :: ds))); [lia | reflexivity].
Qed.

(** X22. The NID that curves2nid gives for the name of a line of the curve
    table is decided by the headers of the library: -1 when the second
    argument of the line is the literal -1, -1 when it is a constant that
    the headers do not define (its text stays the constant's name), and
    the number the constant is defined as when that is a run of decimal
    digits within [int]. *)
Theorem curves2nid_headers (cpp_expand : string -> string) :
  forall w x y z, (w, x, y, z) ∈ curves_args ->
    match x with
    | NidLiteral _ => curves2nid (curves_table cpp_expand) y = -1
    | NidMacro m =>
        (cpp_expand m = m -> curves2nid (curves_table cpp_expand) y = -1) /\
        (forall ds, bytes_of_string (cpp_expand m) = ds ->
           digits ds -> decimal_value ds <= INT_MAX ->
           curves2nid (curves_table cpp_expand) y = decimal_value ds)
    end.
Proof.
  intros w x y z Hin.
  assert (Hnone : cv_nid (init_curve (Curve w (-1) (nid_arg_text cpp_expand_none x) y z)) = -1).
  { assert (H : Forall (fun line : Z * nid_arg * string * option string =>
                  cv_nid (init_curve (V_curve cpp_expand_none line)) = -1) curves_args)
      by (apply (bool_decide_unpack _); vm_compute; exact I).
    rewrite Forall_forall in H. exact (H _ Hin). }
  rewrite (curves2nid_entry cpp_expand w x y z Hin).
  destruct x as [m | l]; cbn [nid_arg_text] in *.
  - split.
    + intros ->. exact Hnone.
    + intros ds Hds Hd Hle. pose proof (decimal_value_nonneg ds Hd) as H0.
      unfold init_curve, init_curves_tab. cbn [List.map hd nid_val_str]. rewrite Hds.
      pose proof (strtol_decimal ds [] Hd eq_refl) as E. rewrite app_nil_r in E.
      rewrite E, strtol_erange_decimal by (auto; unfold LONG_MAX, INT_MAX in *; lia).
      cbn [negb andb length].
      destruct Hd as [Hne _].
      destruct (Z.ltb_spec (Z.of_nat 0) (Z.of_nat (length ds)))
        as [_ | Hlen]; [| destruct ds; [congruence | cbn in Hlen; lia]].
      cbn [cv_nid]. unfold clamp_long, to_int, LONG_MIN, LONG_MAX, INT_MAX in *.
      destruct (Z.ltb_spec (decimal_value ds) (- 2 ^ 63)); [lia |].
      destruct (Z.ltb_spec (2 ^ 63 - 1) (decimal_value ds)); [lia |].
      rewrite Z.mod_small by lia.
      destruct (Z.ltb_spec (decimal_value ds) (2 ^ 31)); [reflexivity | lia].
  - exact Hnone.
Qed.

Lemma curves2nid_headers_witness :
  curves2nid (curves_table cpp_expand_p256) "secp256r1" = 415 /\
  curves2nid (curves_table cpp_expand_p256) "secp384r1" = -1 /\
  curves2nid (curves_table cpp_expand_p256) "X25519Kyber768Draft00" = -1.
Proof.
  split; [| split].
  - refine (proj2 (curves2nid_headers cpp_expand_p256 23 (NidMacro "NID_X9_62_prime256v1")
              "secp256r1" (Some "P-256"%string) _) (bytes_of_string "415") eq_refl _ _).
    + apply (list_elem_of_lookup_2 _ 22%nat). reflexivity.
    + split; [discriminate | repeat constructor].
    + vm_compute. discriminate.
  - refine (proj1 (curves2nid_headers cpp_expand_p256 24 (NidMacro "NID_secp384r1")
              "secp384r1" (Some "P-384"%string) _) eq_refl).
    apply (list_elem_of_lookup_2 _ 23%nat). reflexivity.
  - refine (curves2nid_headers cpp_expand_p256 25497 (NidLiteral "-1")
              "X25519Kyber768Draft00" None _).
    apply (list_elem_of_lookup_2 _ 45%nat). reflexivity.
Defined.

(** ** A second run of the initialisation functions *)

(** X23. The two initialisation functions may run again: whatever the
    table they are given, a second run of init_x509_v_err_tab or of
    init_curves_tab leaves what the first run produced. *)
Theorem init_tab_idempotent :
  (forall tab, init_x509_v_err_tab (init_x509_v_err_tab tab) = init_x509_v_err_tab tab) /\
  (forall tab, init_curves_tab (init_curves_tab tab) = init_curves_tab tab).
Proof.
  split; intros tab.
  - unfold init_x509_v_err_tab. rewrite List.map_map. apply List.map_ext. intros e.
    destruct (streq (vc_string e) (vc_value e)) eqn:E; [now rewrite E |].
    cbn [vc_string vc_value]. now rewrite E.
  - unfold init_curves_tab. rewrite List.map_map. apply List.map_ext. intros c.
    destruct (strtol (bytes_of_string (nid_val_str c))) as [value endptr] eqn:Es.
    destruct (negb _ && _) eqn:E.
    + cbn [nid_val_str curve_id cv_name cv_nist]. now rewrite Es, E.
    + now rewrite Es, E.
Qed.

(** ** The buffer after a copy *)

Lemma buffer_frame_keep (out : buffer) (ret : Z) : buffer_frame out (ret, out).
Proof. unfold buffer_frame. cbn [fst snd]. tauto. Qed.

Lemma buffer_frame_copy (out : buffer) (src : list Z) (a n : Z) :
  to_size_t n <= b_size out ->
  buffer_frame out
    (1, set_data (set_area out (memcpy (b_area out) 0 src a)) (to_size_t n)).
Proof.
  intros Hfit. unfold buffer_frame. cbn [fst snd].
  split; [reflexivity | split; [reflexivity | split; [congruence | split]]].
  - intros (Hs & Hd & Ha). unfold buffer_wf. cbn.
    rewrite memcpy_length. pose proof (to_size_t_range n). lia.
  - intros _. unfold buffer_inv. cbn. exact Hfit.
Qed.

(** X24. ssl_sock_get_serial, ssl_sock_crt2der and ssl_sock_get_time,
    whatever the certificate, the time and the buffer: the result is -1, 0
    or 1 (never 0 for ssl_sock_crt2der); the capacity and [head] are never
    written; unless the result is 1 the buffer is left exactly as it was;
    and a buffer whose counters fit, and one with [data <= size], stays
    so. *)
Theorem copy_functions_frame (crt : X509) (tm : ASN1_STRING) (out : buffer) :
  (buffer_frame out (ssl_sock_get_serial crt out) /\
   fst (ssl_sock_get_serial crt out) ∈ [-1; 0; 1]) /\
  (buffer_frame out (ssl_sock_crt2der crt out) /\
   fst (ssl_sock_crt2der crt out) ∈ [-1; 1]) /\
  (buffer_frame out (ssl_sock_get_time tm out) /\
   fst (ssl_sock_get_time tm out) ∈ [-1; 0; 1]).
Proof.
  split; [| split].
  - unfold ssl_sock_get_serial.
    destruct (X509_get_serialNumber crt) as [serial |];
      [| split; [apply buffer_frame_keep | apply list_elem_of_In; cbn; tauto]].
    destruct (Z.ltb_spec (b_size out) (to_size_t (asn1_length serial)));
      (split; [first [apply buffer_frame_keep | now apply buffer_frame_copy]
              | cbn [fst]; apply list_elem_of_In; cbn; tauto]).
  - unfold ssl_sock_crt2der.
    destruct (i2d_X509_len crt <=? 0);
      [split; [apply buffer_frame_keep | apply list_elem_of_In; cbn; tauto] |].
    destruct (Z.ltb_spec (b_size out) (to_size_t (i2d_X509_len crt)));
      (split; [first [apply buffer_frame_keep | now apply buffer_frame_copy]
              | cbn [fst]; apply list_elem_of_In; cbn; tauto]).
  - unfold ssl_sock_get_time.
    repeat match goal with
           | |- context [if ?b <? ?c then _ else _] => destruct (Z.ltb_spec b c)
           | |- context [if ?b then _ else _] => destruct b
           end;
      (split; [first [apply buffer_frame_keep | now apply buffer_frame_copy]
              | cbn [fst]; apply list_elem_of_In; cbn; tauto]).
Qed.
